(** * A poker agent: hand evaluator, hand categorizer and decision policy

    Shallow embedding of [goat.py] (classes [Card], [HandEvaluator] and
    [GTOPlayer]) and of the part of [bot.py] it relies on (the player id).

    Conventions of the embedding.
    - Python [int] is [Z]; [len] is [nat]; Python [float] values (pot
      fractions, pot odds, equities) are exact rationals [Q].  All the
      float values the agent computes are quotients and products of chip
      counts with the constants 0.4, 0.5, 0.66, 1.5, 2.5 and 1/100.  The
      doubles of the code are not these rationals at every size: the
      truncations [int(pot * 0.66)] and [int(pot * 0.4)] and the
      comparison of the equity with the pot odds agree with the exact
      ones for chip counts of at most 10^13 in absolute value (the
      products with 0.5, 1.5 and 2.5 are then exact), they depart from
      them above about 10^14, and beyond the range of the doubles the
      code raises [OverflowError], which is not modelled.  The theorems
      that state a result which goes through a float therefore carry the
      bound [Spec.machine_sized] on the chip counts involved.
    - Python [str] is [string], read as a sequence of code points below
      256.
    - Code that can raise returns [result]; [try]/[except] is [try_except].
    - A [dict] whose iteration order is observable ([Counter]) is an
      association list in insertion order; a [dict] that is only looked
      up is a [gmap]; a [set] is a [gset]. *)

From Stdlib Require Import ZArith QArith String Ascii DecimalString DecimalPos.
From stdpp Require Import base list gmap sets strings sorting.

Open Scope Z_scope.

(** ** Python runtime *)

Module Py.

Inductive exn := ValueError | IndexError.

Inductive result (A : Type) : Type :=
| Ok (a : A)
| Raise (e : exn).
Arguments Ok {A} a.
Arguments Raise {A} e.

#[export] Instance result_ret : MRet result := @Ok.
#[export] Instance result_bind : MBind result := λ A B f m,
  match m with Ok a => f a | Raise e => Raise e end.

#[export] Instance result_fmap : FMap result := λ A B f m,
  match m with Ok a => Ok (f a) | Raise e => Raise e end.

#[export] Instance exn_eq_dec : EqDecision exn.
Proof. solve_decision. Defined.

(** [try: m except e: h] *)
Definition try_except {A} (m : result A) (e : exn) (h : result A) : result A :=
  match m with
  | Ok a => Ok a
  | Raise e' => if decide (e' = e) then h else Raise e'
  end.

(** [l[i]] for a non-negative index. *)
Definition getitem {A} (l : list A) (i : nat) : result A :=
  match l !! i with Some x => Ok x | None => Raise IndexError end.

(** [a, b = l] *)
Definition unpack2 {A} (l : list A) : result (A * A) :=
  match l with [a; b] => Ok (a, b) | _ => Raise ValueError end.

(** [l.count(x)] *)
Definition list_count {A} `{EqDecision A} (l : list A) (x : A) : nat :=
  length (filter (λ y, y = x) l).

(** The number of occurrences, as the integer a counter holds. *)
Definition occurrences {K} `{EqDecision K} (l : list K) (k : K) : Z :=
  Z.of_nat (list_count l k).

(** A left-to-right [for] loop whose body can raise. *)
Fixpoint foldlM {A B} (f : A → B → result A) (a : A) (l : list B) : result A :=
  match l with
  | [] => Ok a
  | x :: l' => a' ← f a x; foldlM f a' l'
  end.

(** *** [sorted]

    [sorted_by before l] is the stable sort of [l] in which [y] is placed
    in front of a later-inserted [x] exactly when [before y x]: it is
    [sorted(l, key=...)] when [before y x] is [key y < key x] and
    [sorted(l, key=..., reverse=True)] when it is [key y > key x] (both
    keep elements with equal keys in their original order). *)
Fixpoint insert_by {A} (before : A → A → bool) (x : A) (l : list A) : list A :=
  match l with
  | [] => [x]
  | y :: l' => if before y x then y :: insert_by before x l' else x :: y :: l'
  end.

Definition sorted_by {A} (before : A → A → bool) (l : list A) : list A :=
  foldr (insert_by before) [] l.

(** The order the result is sorted by: [x] may stand in front of [y]
    unless [y] has to come before [x]. *)
Definition may_precede {A} (before : A → A → bool) (x y : A) : Prop :=
  before y x = false.

(** [sorted(l)] and [sorted(l, reverse=True)] on integers. *)
Definition sorted_asc (l : list Z) : list Z := sorted_by (λ y x, y <? x) l.
Definition sorted_desc (l : list Z) : list Z := sorted_by (λ y x, x <? y) l.

(** *** [collections.Counter]

    A counter is the list of its (key, count) items in insertion order. *)
Fixpoint counter_add {K} `{EqDecision K} (k : K) (c : list (K * Z)) : list (K * Z) :=
  match c with
  | [] => [(k, 1)]
  | (k', n) :: c' =>
      if decide (k = k') then (k', n + 1) :: c' else (k', n) :: counter_add k c'
  end.

Definition Counter {K} `{EqDecision K} (l : list K) : list (K * Z) :=
  foldl (λ c k, counter_add k c) [] l.

Definition keys {K} (c : list (K * Z)) : list K := c.*1.
Definition values {K} (c : list (K * Z)) : list Z := c.*2.

(** [c[k]] on a counter: missing keys count 0. *)
Fixpoint counter_get {K} `{EqDecision K} (c : list (K * Z)) (k : K) : Z :=
  match c with
  | [] => 0
  | (k', n) :: c' => if decide (k = k') then n else counter_get c' k
  end.

(** [c.most_common(1)]: the first item of maximal count, if any. *)
Fixpoint max_by_count {K} (best : K * Z) (c : list (K * Z)) : K * Z :=
  match c with
  | [] => best
  | x :: c' => max_by_count (if best.2 <? x.2 then x else best) c'
  end.

Definition most_common1 {K} (c : list (K * Z)) : list (K * Z) :=
  match c with
  | [] => []
  | x :: c' => [max_by_count x c']
  end.

(** [itertools.combinations(l, k)], in the order of the iterator. *)
Fixpoint combinations {A} (l : list A) (k : nat) : list (list A) :=
  match k with
  | O => [[]]
  | S k' =>
      match l with
      | [] => []
      | x :: l' => map (cons x) (combinations l' k') ++ combinations l' k
      end
  end.

(** [[u[i+k] - u[i] for i in range(len(u) - k)]]: the spans of the windows
    of [k+1] consecutive entries of [u]. *)
Definition window_spans (k : nat) (u : list Z) : list Z :=
  zip_with (λ a b, b - a) u (drop k u).

(** *** Strings *)

Definition chars (s : string) : list ascii := list_ascii_of_string s.
Definition str (l : list ascii) : string := string_of_list_ascii l.

(** [s[:-1]] and [s[-1]] of a non-empty string. *)
Definition str_init (s : string) : string := str (removelast (chars s)).
Definition str_last (s : string) : string :=
  match last (chars s) with Some c => String c EmptyString | None => EmptyString end.

(** [s[i]] *)
Definition str_getitem (s : string) (i : nat) : result string :=
  match String.get i s with
  | Some c => Ok (String c EmptyString)
  | None => Raise IndexError
  end.

Definition startswith (s p : string) : bool := String.prefix p s.
Definition endswith (s p : string) : bool :=
  bool_decide (suffix (chars p) (chars s)).

(** [s.split(" ")]: the pieces between single spaces, empty ones
    included. *)
Fixpoint split_chars (l : list ascii) : list (list ascii) :=
  match l with
  | [] => [[]]
  | c :: l' =>
      if decide (c = " "%char) then [] :: split_chars l'
      else match split_chars l' with
           | w :: ws => (c :: w) :: ws
           | [] => [[c]]
           end
  end.

Definition split_space (s : string) : list string := str <$> split_chars (chars s).

(** [str(n)] of an integer. *)
Definition str_int (n : Z) : string := NilZero.string_of_int (Z.to_int n).

(** [int(s)] of a string, base 10: surrounding whitespace is stripped, an
    optional sign follows, then digits in which single underscores may
    separate digits; anything else raises [ValueError].  The whitespace
    of [int] among the code points below 256 is tab, line feed, vertical
    tab, form feed, carriage return and space (9 to 13 and 32), and,
    outside ASCII, next line and no-break space (133 and 160); the
    separators 28 to 31 are no whitespace for [int].  (The interpreter's
    limit on the number of digits is not modelled.) *)
Definition is_space (c : ascii) : bool :=
  let n := nat_of_ascii c in
  ((9 <=? n) && (n <=? 13) || (n =? 32) || (n =? 133) || (n =? 160))%nat.

Definition digit_val (c : ascii) : option Z :=
  let n := nat_of_ascii c in
  if ((48 <=? n) && (n <=? 57))%nat then Some (Z.of_nat n - 48) else None.

Fixpoint parse_digits (acc : Z) (after_digit : bool) (l : list ascii) : option Z :=
  match l with
  | [] => if after_digit then Some acc else None
  | c :: l' =>
      if decide (c = "_"%char) then
        if after_digit then parse_digits acc false l' else None
      else
        match digit_val c with
        | Some d => parse_digits (10 * acc + d) true l'
        | None => None
        end
  end.

Fixpoint lstrip (l : list ascii) : list ascii :=
  match l with
  | c :: l' => if is_space c then lstrip l' else l
  | [] => []
  end.

Definition strip (l : list ascii) : list ascii :=
  reverse (lstrip (reverse (lstrip l))).

Definition int_str (s : string) : result Z :=
  let body := strip (chars s) in
  let parsed :=
    match body with
    | c :: l' =>
        if decide (c = "-"%char) then Z.opp <$> parse_digits 0 false l'
        else if decide (c = "+"%char) then parse_digits 0 false l'
        else parse_digits 0 false body
    | [] => None
    end in
  match parsed with Some n => Ok n | None => Raise ValueError end.

(** [int(x)] of a float: truncation toward zero. *)
Definition int_float (x : Q) : Z := Z.quot (Qnum x) (Z.pos (Qden x)).

End Py.
Import Py.

(** ** Enumerations *)

Inductive HandRank :=
| HIGH_CARD | PAIR | TWO_PAIR | THREE_OF_A_KIND | STRAIGHT
| FLUSH | FULL_HOUSE | FOUR_OF_A_KIND | STRAIGHT_FLUSH.

Definition HandRank_value (r : HandRank) : Z :=
  match r with
  | HIGH_CARD => 0 | PAIR => 1 | TWO_PAIR => 2 | THREE_OF_A_KIND => 3
  | STRAIGHT => 4 | FLUSH => 5 | FULL_HOUSE => 6 | FOUR_OF_A_KIND => 7
  | STRAIGHT_FLUSH => 8
  end.

Inductive HandCategory :=
| MONSTER | STRONG_MADE | MEDIUM_MADE | WEAK_MADE | STRONG_DRAW | WEAK_DRAW | AIR.

Definition HandCategory_value (c : HandCategory) : Q :=
  match c with
  | MONSTER => 5 | STRONG_MADE => 4 | MEDIUM_MADE => 3 | WEAK_MADE => 2
  | STRONG_DRAW => 1 | WEAK_DRAW => 1 # 2 | AIR => 0
  end%Q.

#[export] Instance HandRank_eq_dec : EqDecision HandRank.
Proof. solve_decision. Defined.
#[export] Instance HandCategory_eq_dec : EqDecision HandCategory.
Proof. solve_decision. Defined.

(** ** class Card *)

Record Card := mkCard { rank : Z; suit : string }.

#[export] Instance Card_eq_dec : EqDecision Card.
Proof. solve_decision. Defined.

Definition rank_map (s : string) : option Z :=
  if decide (s = "T") then Some 10
  else if decide (s = "J") then Some 11
  else if decide (s = "Q") then Some 12
  else if decide (s = "K") then Some 13
  else if decide (s = "A") then Some 14
  else None.

Definition rank_map_rev (r : Z) : option string :=
  if decide (r = 10) then Some "T"
  else if decide (r = 11) then Some "J"
  else if decide (r = 12) then Some "Q"
  else if decide (r = 13) then Some "K"
  else if decide (r = 14) then Some "A"
  else None.

(** [Card.__init__] *)
Definition Card_init (card_str : string) : result Card :=
  if decide (card_str = "") then Ok (mkCard 0 "")
  else
    let rank_str := str_init card_str in
    let suit := str_last card_str in
    try_except
      (r ← match rank_map rank_str with
           | Some n => Ok n
           | None => int_str rank_str
           end;
       Ok (mkCard r suit))
      ValueError
      (Ok (mkCard 0 suit)).

(** [Card.__repr__] *)
Definition Card_repr (c : Card) : string :=
  if decide (rank c = 0) then ""
  else default (str_int (rank c)) (rank_map_rev (rank c)) +:+ suit c.

(** ** class HandEvaluator *)

Module HandEvaluator.

(** [sorted(cards, key=lambda c: c.rank, reverse=True)] *)
Definition sort_cards (cards : list Card) : list Card :=
  sorted_by (λ y x, rank x <? rank y) cards.

Definition _evaluate_preliminary (cards : list Card) : HandRank * list Z :=
  let ranks := map rank cards in
  let rank_counts := Counter ranks in
  if bool_decide (4 ∈ values rank_counts) then (FOUR_OF_A_KIND, sorted_desc ranks)
  else if bool_decide (3 ∈ values rank_counts) then (THREE_OF_A_KIND, sorted_desc ranks)
  else if (1 <=? list_count (values rank_counts) 2%Z)%nat
       then (PAIR, sorted_desc ranks)
  else (HIGH_CARD, sorted_desc ranks).

(** The key [(rank_counts[r], r)] of the [main_ranks] sort, compared as
    tuples. *)
Definition main_rank_lt (rank_counts : list (Z * Z)) (r1 r2 : Z) : bool :=
  let n1 := counter_get rank_counts r1 in
  let n2 := counter_get rank_counts r2 in
  (n1 <? n2) || ((n1 =? n2) && (r1 <? r2)).

Definition _evaluate_five_card_hand (hand : list Card) : result (HandRank * list Z) :=
  let ranks := sorted_desc (map rank hand) in
  let suits := map suit hand in
  let rank_counts := Counter ranks in
  let is_flush := bool_decide (size (list_to_set suits : gset string) = 1%nat) in
  let unique_ranks := sorted_asc (elements (list_to_set ranks : gset Z)) in
  let '(is_straight, ranks) :=
    if bool_decide ((list_to_set ranks : gset Z) = {[14; 2; 3; 4; 5]})
    then (true, [5; 4; 3; 2; 1])
    else if (5 <=? length unique_ranks)%nat
    then (existsb (λ d, - d =? -4) (window_spans 4 unique_ranks), ranks)
    else (false, ranks) in
  if is_straight && is_flush then Ok (STRAIGHT_FLUSH, ranks)
  else
    let counts := sorted_desc (values rank_counts) in
    let main_ranks := sorted_by (λ y x, main_rank_lt rank_counts x y) (keys rank_counts) in
    c0 ← getitem counts 0;
    if c0 =? 4 then Ok (FOUR_OF_A_KIND, main_ranks)
    else if bool_decide (counts = [3; 2]) then Ok (FULL_HOUSE, main_ranks)
    else if is_flush then Ok (FLUSH, ranks)
    else if is_straight then Ok (STRAIGHT, ranks)
    else if c0 =? 3 then Ok (THREE_OF_A_KIND, main_ranks)
    else if bool_decide (counts = [2; 2; 1]) then Ok (TWO_PAIR, main_ranks)
    else if c0 =? 2 then Ok (PAIR, main_ranks)
    else Ok (HIGH_CARD, ranks).

(** The inner [for i in range(len(kickers))] loop of [evaluate]: the value
    of [best_kickers] when the loop ends. *)
Fixpoint kicker_scan (kickers best_kickers : list Z) (range : list nat) : result (list Z) :=
  match range with
  | [] => Ok best_kickers
  | i :: range' =>
      k ← getitem kickers i;
      b ← getitem best_kickers i;
      if b <? k then Ok kickers
      else if k <? b then Ok best_kickers
      else kicker_scan kickers best_kickers range'
  end.

(** One iteration of the loop over the 5-card combinations. *)
Definition evaluate_step (best : HandRank * list Z) (combo : list Card)
  : result (HandRank * list Z) :=
  let '(best_rank, best_kickers) := best in
  '(rank, kickers) ← _evaluate_five_card_hand combo;
  if HandRank_value best_rank <? HandRank_value rank then Ok (rank, kickers)
  else if HandRank_value rank =? HandRank_value best_rank then
    best_kickers' ← kicker_scan kickers best_kickers (seq 0 (length kickers));
    Ok (best_rank, best_kickers')
  else Ok (best_rank, best_kickers).

Definition evaluate (hand community : list Card) : result (HandRank * list Z) :=
  let all_cards := sort_cards (hand ++ community) in
  if (length all_cards <? 5)%nat then Ok (_evaluate_preliminary all_cards)
  else
    foldlM evaluate_step (HIGH_CARD, take 5 (map rank all_cards))
           (combinations all_cards 5).

End HandEvaluator.

(** ** The host's types

    [type.round_state] and [type.poker_action] are not part of the
    sources at hand. *)

(** Modelled from the spec: the round-state snapshot [RoundStateClient],
    with the fields the agent reads (section 6: round label, current total
    bet, per-player posted-bet mapping, pot size, minimum and maximum legal
    raise, community card strings, per-player last-action mapping,
    big-blind player identifier). *)
Record RoundStateClient := mkRoundState {
  round : string;
  current_bet : Z;
  player_bets : gmap string Z;
  pot : Z;
  min_raise : Z;
  max_raise : Z;
  community_cards : list string;
  player_actions : gmap string string;
  big_blind_player_id : Z;
}.

(** Modelled from the spec: the actions of [PokerAction] the agent
    returns (section 6: FOLD, CHECK, CALL, RAISE). *)
Inductive PokerAction := FOLD | CHECK | CALL | RAISE.

#[export] Instance PokerAction_eq_dec : EqDecision PokerAction.
Proof. solve_decision. Defined.

(** ** class GTOPlayer *)

Module GTOPlayer.

(** The keys ['EARLY'], ['MIDDLE'], ['LATE'], ['BLINDS'] of the range table. *)
Inductive Position := EARLY | MIDDLE | LATE | BLINDS.

#[export] Instance Position_eq_dec : EqDecision Position.
Proof. solve_decision. Defined.

(** The entry of one position: ['RFI'], ['vs_raise']['3bet'] and
    ['vs_raise']['call']. *)
Record PositionRanges := mkRanges {
  RFI : list string;
  vs_raise_3bet : list string;
  vs_raise_call : list string;
}.

Definition preflop_ranges (p : Position) : PositionRanges :=
  match p with
  | EARLY => mkRanges
      ["77+"; "ATs+"; "KJs+"; "QJs"; "JTs"; "T9s"; "AJo+"; "KQo"]
      ["TT+"; "AQs+"; "AKo"] ["22-99"; "AJs"; "ATs"; "KQs"]
  | MIDDLE => mkRanges
      ["55+"; "A8s+"; "K9s+"; "QTs+"; "JTs"; "T9s"; "A9o+"; "KTo+"; "QJo"]
      ["99+"; "ATs+"; "KJs+"; "AQo+"] ["22-88"; "A9s"; "KTs"; "QTs"]
  | LATE => mkRanges
      ["22+"; "A2s+"; "K7s+"; "Q8s+"; "J8s+"; "T8s+"; "A2o+"; "K9o+"; "QTo+"; "JTo"]
      ["88+"; "A8s+"; "K9s+"; "AQo+"; "KQo"] ["22-77"; "A2s-A7s"; "JTs"; "QTs"]
  | BLINDS => mkRanges
      ["33+"; "A2s+"; "K8s+"; "Q9s+"; "J9s+"; "A7o+"; "KTo+"]
      ["99+"; "AJs+"; "AQo+"] ["22-88"; "A2s-ATs"; "KJs+"; "QTs+"]
  end.

(** The instance attributes; [id] is [None] until the host sets it. *)
Record t := mk {
  id : option Z;
  hand : list Card;
  is_preflop_aggressor : bool;
  all_player_ids : list Z;
}.

(** [str(self.id)] *)
Definition str_id (i : option Z) : string :=
  match i with Some n => str_int n | None => "None" end.

(** [all_player_ids.index(x)]: the first index holding [x]. *)
Fixpoint index (l : list Z) (x : option Z) : result nat :=
  match l with
  | [] => Raise ValueError
  | y :: l' => if decide (Some y = x) then Ok O else S <$> index l' x
  end.

Definition _get_position (self : t) (round_state : RoundStateClient) : result Position :=
  let player_count := Z.of_nat (length (all_player_ids self)) in
  if player_count <=? 3 then Ok LATE
  else
    match
      my_index ← index (all_player_ids self) (id self);
      bb_index ← index (all_player_ids self) (Some (big_blind_player_id round_state));
      Ok ((Z.of_nat my_index - Z.of_nat bb_index + player_count) `mod` player_count)
    with
    | Raise ValueError => Ok LATE
    | Raise e => Raise e
    | Ok relative_pos =>
        if bool_decide (relative_pos ∈ [player_count - 1; player_count - 2]) then Ok BLINDS
        else if relative_pos =? player_count - 3 then Ok LATE
        else if relative_pos =? player_count - 4 then Ok LATE
        else if relative_pos =? player_count - 5 then Ok MIDDLE
        else Ok EARLY
    end.

Definition rank_str (r : Z) : string := default (str_int r) (rank_map_rev r).

Definition _get_hand_string (self : t) : result string :=
  '(c1, c2) ← unpack2 (HandEvaluator.sort_cards (hand self));
  let s := if decide (suit c1 = suit c2) then "s" else "o" in
  let r1 := rank_str (rank c1) in
  let r2 := rank_str (rank c2) in
  Ok (if decide (r1 = r2) then r1 +:+ r2 else r1 +:+ r2 +:+ s).

(** The body of the loop of [_is_in_range]: whether the token [r] makes
    the function return [True]. *)
Definition range_token_matches (hand_str : string) (c1 c2 : Card) (r : string)
  : result bool :=
  if decide (String.length r = 2%nat) then Ok (startswith hand_str r)
  else if endswith r "+" then
    base_rank_str ← str_getitem r 1;
    base_rank ← rank <$> Card_init (base_rank_str +:+ "s");
    is_pair_range ←
      (if decide (String.length r = 3%nat)
       then r0 ← str_getitem r 0; r1 ← str_getitem r 1; Ok (bool_decide (r0 = r1))
       else Ok false);
    if (is_pair_range : bool) then
      Ok ((rank c1 =? rank c2) && (base_rank <=? rank c1))
    else if endswith r "s+" && endswith hand_str "s" then
      h0 ← str_getitem hand_str 0; r0 ← str_getitem r 0;
      Ok (bool_decide (h0 = r0) && (base_rank <=? rank c2))
    else if endswith r "o+" && endswith hand_str "o" then
      h0 ← str_getitem hand_str 0; r0 ← str_getitem r 0;
      Ok (bool_decide (h0 = r0) && (base_rank <=? rank c2))
    else Ok false
  else Ok (bool_decide (r = hand_str)).

Fixpoint in_range_loop (hand_str : string) (c1 c2 : Card) (range_list : list string)
  : result bool :=
  match range_list with
  | [] => Ok false
  | r :: range_list' =>
      m ← range_token_matches hand_str c1 c2 r;
      if (m : bool) then Ok true else in_range_loop hand_str c1 c2 range_list'
  end.

Definition _is_in_range (self : t) (range_list : list string) : result bool :=
  hand_str ← _get_hand_string self;
  '(c1, c2) ← unpack2 (hand self);
  in_range_loop hand_str c1 c2 range_list.

Definition community_cards_of (round_state : RoundStateClient) : result (list Card) :=
  mapM Card_init (community_cards round_state).

(** [sorted(list(set(c.rank for c in combined)))] *)
Definition unique_ranks_of (combined : list Card) : list Z :=
  sorted_asc (elements (list_to_set (map rank combined) : gset Z)).

(** [Counter(suits).most_common(1)[0][1]] *)
Definition top_suit_count (combined : list Card) : result Z :=
  snd <$> getitem (most_common1 (Counter (map suit combined))) 0.

(** [max(l, default=0)] *)
Definition max_default0 (l : list Z) : Z :=
  match l with [] => 0 | x :: l' => foldl Z.max x l' end.

Definition _categorize_hand (rank_ : HandRank) (hand community : list Card)
  : result HandCategory :=
  if HandRank_value FULL_HOUSE <=? HandRank_value rank_ then Ok MONSTER
  else
    is_set ←
      (if decide (rank_ = THREE_OF_A_KIND)
       then h0 ← getitem hand 0; h1 ← getitem hand 1; Ok (rank h0 =? rank h1)
       else Ok false);
    if (is_set : bool) then Ok MONSTER
    else if HandRank_value TWO_PAIR <=? HandRank_value rank_ then Ok STRONG_MADE
    else
      let combined := hand ++ community in
      is_draw ←
        (if (length combined <? 5)%nat then
           n ← top_suit_count combined;
           if n =? 4 then Ok true
           else
             let unique_ranks := unique_ranks_of combined in
             if (4 <=? length unique_ranks)%nat
             then Ok (existsb (λ d, d <=? 4) (window_spans 3 unique_ranks))
             else Ok false
         else Ok false);
      if (is_draw : bool) then Ok STRONG_DRAW
      else if decide (rank_ = PAIR) then
        pair_rank ← getitem (filter (λ rc, rc.2 = 2) (Counter (map rank combined))).*1 0;
        h0 ← getitem hand 0; h1 ← getitem hand 1;
        if bool_decide (pair_rank ∈ [rank h0; rank h1])
           && (max_default0 (map rank community) <=? pair_rank)
        then Ok STRONG_MADE
        else if bool_decide (pair_rank ∈ [rank h0; rank h1]) then Ok MEDIUM_MADE
        else Ok WEAK_MADE
      else Ok AIR.

Definition _estimate_draw_equity (self : t) (community_cards : list Card) : result Q :=
  let outs := 0 in
  let combined := hand self ++ community_cards in
  n ← top_suit_count combined;
  let outs := if n =? 4 then outs + 9 else outs in
  let unique_ranks := unique_ranks_of combined in
  let outs :=
    if (4 <=? length unique_ranks)%nat then
      if existsb (λ d, d =? 3) (window_spans 3 unique_ranks) then Z.max outs 8
      else if existsb (λ d, d =? 4) (window_spans 3 unique_ranks) then Z.max outs 4
      else outs
    else outs in
  let multiplier := if decide (length community_cards = 3%nat) then 4 else 2 in
  Ok (inject_Z (outs * multiplier) / 100)%Q.

Definition _make_bet (round_state : RoundStateClient) (amount : Q) : PokerAction * Z :=
  let amount := int_float amount in
  let min_bet := min_raise round_state in
  let max_bet := max_raise round_state in
  let clamped_amount := Z.max min_bet (Z.min amount max_bet) in
  (RAISE, clamped_amount).

Definition _make_raise (round_state : RoundStateClient) (amount : Q) : PokerAction * Z :=
  let amount := int_float amount in
  let min_raise := min_raise round_state in
  let max_raise := max_raise round_state in
  let clamped_amount := Z.max min_raise (Z.min amount max_raise) in
  (RAISE, clamped_amount).

(** The methods that assign [self.is_preflop_aggressor] return the
    updated instance next to their result. *)
Definition set_aggressor (self : t) : t :=
  mk (id self) (hand self) true (all_player_ids self).

Definition _get_preflop_action (self : t) (round_state : RoundStateClient)
    (amount_to_call : Z) : result (PokerAction * Z * t) :=
  position ← _get_position self round_state;
  let ranges := preflop_ranges position in
  let has_raise :=
    bool_decide (map_Exists (λ _ action, action = "Raise") (player_actions round_state)) in
  if has_raise then
    in_3bet ← _is_in_range self (vs_raise_3bet ranges);
    if (in_3bet : bool) then
      Ok (_make_raise round_state (inject_Z (current_bet round_state * 3)), set_aggressor self)
    else
      in_call ← _is_in_range self (vs_raise_call ranges);
      if (in_call : bool) then Ok (CALL, amount_to_call, self)
      else Ok (FOLD, 0, self)
  else
    in_rfi ← _is_in_range self (RFI ranges);
    if (in_rfi : bool) then
      Ok (_make_raise round_state (inject_Z (min_raise round_state) * (5 # 2)), set_aggressor self)
    else if amount_to_call =? 0 then Ok (CHECK, 0, self)
    else Ok (FOLD, 0, self).

(** [get_action]; [random] is the value [random.random()] returns when
    it is called. *)
Definition get_action (self : t) (round_state : RoundStateClient) (random : Q)
  : result (PokerAction * Z * t) :=
  let amount_to_call :=
    current_bet round_state - default 0 (player_bets round_state !! str_id (id self)) in
  if decide (round round_state = "Preflop") then
    _get_preflop_action self round_state amount_to_call
  else
    community_cards ← community_cards_of round_state;
    '(hand_rank, _) ← HandEvaluator.evaluate (hand self) community_cards;
    hand_category ← _categorize_hand hand_rank (hand self) community_cards;
    let pot_size := pot round_state in
    let cat := HandCategory_value hand_category in
    if amount_to_call =? 0 then
      if is_preflop_aggressor self then
        if Qle_bool (HandCategory_value STRONG_MADE) cat
           || Qeq_bool cat (HandCategory_value STRONG_DRAW)
        then Ok (_make_bet round_state (inject_Z (int_float (inject_Z pot_size * (66 # 100)))), self)
        else if Qeq_bool cat (HandCategory_value AIR)
                && negb (Qle_bool (4 # 10) random)
        then Ok (_make_bet round_state (inject_Z (int_float (inject_Z pot_size * (4 # 10)))), self)
        else Ok (CHECK, 0, self)
      else
        if Qle_bool (HandCategory_value MEDIUM_MADE) cat
        then Ok (_make_bet round_state (inject_Z (int_float (inject_Z pot_size * (1 # 2)))), self)
        else Ok (CHECK, 0, self)
    else
      let pot_odds :=
        (if 0 <? pot_size + amount_to_call
         then inject_Z amount_to_call / inject_Z (pot_size + amount_to_call)
         else 0)%Q in
      if Qeq_bool cat (HandCategory_value MONSTER) then
        Ok (_make_raise round_state
              (inject_Z (int_float (inject_Z pot_size * (3 # 2) + inject_Z amount_to_call))),
            self)
      else if Qle_bool (HandCategory_value STRONG_MADE) cat then
        Ok (CALL, amount_to_call, self)
      else
        called_draw ←
          (if Qeq_bool cat (HandCategory_value STRONG_DRAW) then
             equity ← _estimate_draw_equity self community_cards;
             Ok (negb (Qle_bool equity pot_odds))
           else Ok false);
        if (called_draw : bool) then Ok (CALL, amount_to_call, self)
        else if Qle_bool (HandCategory_value WEAK_MADE) cat
                && Qle_bool (inject_Z amount_to_call) (inject_Z pot_size * (1 # 2))
        then Ok (CALL, amount_to_call, self)
        else Ok (FOLD, 0, self).

(** *** The lifecycle

    [Bot.__init__] and [GTOPlayer.__init__], [Bot.set_id], [on_start] and
    [on_round_start]; what they print is left out.  [on_start] assigns
    the seats before it looks the hand text up, so that they are stored
    also when the lookup raises: it returns the instance as it leaves
    it, next to [Ok ()] or the exception. *)

Definition init : t := mk None [] false [].

Definition set_id (self : t) (player_id : Z) : t :=
  mk (Some player_id) (hand self) (is_preflop_aggressor self) (all_player_ids self).

Definition on_start (self : t) (starting_chips : Z) (player_hands : list string)
    (blind_amount big_blind_player_id small_blind_player_id : Z)
    (all_players : list Z) : t * result unit :=
  let self := mk (id self) (hand self) (is_preflop_aggressor self) all_players in
  match
    my_hand_str ← getitem player_hands 0;
    mapM Card_init (split_space my_hand_str)
  with
  | Ok hand =>
      (mk (id self) hand (is_preflop_aggressor self) (all_player_ids self), Ok ())
  | Raise e => (self, Raise e)
  end.

Definition on_round_start (self : t) (round_state : RoundStateClient)
    (remaining_chips : Z) : t :=
  mk (id self) (hand self) false (all_player_ids self).

End GTOPlayer.

(** ** Notions of the specification *)

(** The card a well-formed string denotes. *)
Definition card (s : string) : Card :=
  match Card_init s with Ok c => c | Raise _ => mkCard 0 "" end.

Module Spec.
Import GTOPlayer.

(** *** The order on scores *)

(** Kickers are compared lexicographically, most significant first. *)
Fixpoint kickers_compare (k1 k2 : list Z) : comparison :=
  match k1, k2 with
  | [], [] => Eq
  | [], _ :: _ => Lt
  | _ :: _, [] => Gt
  | a :: k1', b :: k2' =>
      match a ?= b with
      | Eq => kickers_compare k1' k2'
      | c => c
      end
  end.

(** A score is a hand rank with its kickers; the rank's ordinal is
    compared first. *)
Definition score_compare (s1 s2 : HandRank * list Z) : comparison :=
  match HandRank_value s1.1 ?= HandRank_value s2.1 with
  | Eq => kickers_compare s1.2 s2.2
  | c => c
  end.

Definition score_le (s1 s2 : HandRank * list Z) : Prop := score_compare s1 s2 ≠ Gt.
Definition score_lt (s1 s2 : HandRank * list Z) : Prop := score_compare s1 s2 = Lt.

(** The better of the best score so far and a new score; the new one
    replaces the old one only when it is strictly greater. *)
Definition score_max (best s : HandRank * list Z) : HandRank * list Z :=
  match score_compare s best with Gt => s | _ => best end.

(** The number of kickers of each hand rank. *)
Definition kicker_length (r : HandRank) : nat :=
  match r with
  | FOUR_OF_A_KIND | FULL_HOUSE => 2
  | THREE_OF_A_KIND | TWO_PAIR => 3
  | PAIR => 4
  | HIGH_CARD | STRAIGHT | FLUSH | STRAIGHT_FLUSH => 5
  end.

Definition well_formed (s : HandRank * list Z) : Prop :=
  length s.2 = kicker_length s.1.

(** All the cards are of one suit. *)
Definition same_suit (hand : list Card) : Prop :=
  ∃ s, Forall (λ c, suit c = s) hand.

(** *** Seats and positions *)

(** The seat (index) of a player in the seat order, if the player is at
    the table. *)
Definition seat_of (ids : list Z) (x : option Z) : option nat :=
  fst <$> list_find (λ y, Some y = x) ids.

(** The relative-offset table: BLINDS at [player_count - 1] and
    [player_count - 2], LATE at [player_count - 3] and [player_count - 4],
    MIDDLE at [player_count - 5], EARLY otherwise. *)
Definition position_by_offset (player_count relative_pos : Z) : Position :=
  if decide (relative_pos = player_count - 1 ∨ relative_pos = player_count - 2) then BLINDS
  else if decide (relative_pos = player_count - 3 ∨ relative_pos = player_count - 4) then LATE
  else if decide (relative_pos = player_count - 5) then MIDDLE
  else EARLY.

(** The position by the table, with the default LATE when the agent or
    the big blind is not in the seat order. *)
Definition table_position (ids : list Z) (me : option Z) (bb : Z) : Position :=
  match seat_of ids me, seat_of ids (Some bb) with
  | Some i, Some j =>
      let player_count := Z.of_nat (length ids) in
      position_by_offset player_count ((Z.of_nat i - Z.of_nat j) `mod` player_count)
  | _, _ => LATE
  end.

(** *** Chip counts

    The code computes with doubles.  For integers of at most 10^13 in
    absolute value the products with 0.5, 1.5 and 2.5 are exact, the
    truncations of the products with 0.66 and 0.4 are those of the exact
    products, and the comparison of an equity of so many hundredths with
    the pot odds is the one of the exact quotients; the decimal text of
    such an integer exists. *)
Definition chips_max : Z := 10 ^ 13.

Definition machine_sized (x : Z) : Prop := - chips_max ≤ x ≤ chips_max.

(** The id of the agent, when it has one, is machine sized. *)
Definition small_id (i : option Z) : Prop :=
  match i with Some n => machine_sized n | None => True end.

(** *** Facing a bet *)

(** Pot odds: the amount to call over the pot after the call, 0 when that
    pot is 0. *)
Definition pot_odds (pot amount_to_call : Z) : Q :=
  if decide (pot + amount_to_call = 0) then 0%Q
  else (inject_Z amount_to_call / inject_Z (pot + amount_to_call))%Q.

(** "The category is at least [c0]", on the strategic scale. *)
Definition at_least (c c0 : HandCategory) : bool :=
  Qle_bool (HandCategory_value c0) (HandCategory_value c).

Definition Qlt_bool (x y : Q) : bool := negb (Qle_bool y x).

(** A chip amount brought into the raise bounds of the round. *)
Definition clamp (round_state : RoundStateClient) (amount : Z) : Z :=
  Z.max (min_raise round_state) (Z.min amount (max_raise round_state)).

(** The decision facing a bet, by the rules of section 4.5 in their order:
    a monster raises toward 1.5 x pot + amount to call (whole chips), a
    category of at least strong-made calls, a strong draw calls when its
    equity exceeds the pot odds, a category of at least weak-made calls
    when the amount to call is at most half the pot; everything else
    folds. *)
Definition facing_bet_decision (round_state : RoundStateClient)
    (category : HandCategory) (equity : Q) (amount_to_call : Z) : PokerAction * Z :=
  let pot := pot round_state in
  if decide (category = MONSTER) then
    (RAISE, clamp round_state ((3 * pot + 2 * amount_to_call) `quot` 2))
  else if at_least category STRONG_MADE then (CALL, amount_to_call)
  else if bool_decide (category = STRONG_DRAW)
          && Qlt_bool (pot_odds pot amount_to_call) equity
  then (CALL, amount_to_call)
  else if at_least category WEAK_MADE && bool_decide (2 * amount_to_call ≤ pot)
  then (CALL, amount_to_call)
  else (FOLD, 0).

(** *** Draw equity by the rule of thumb *)

(** Four cards of one suit: some suit is the suit of exactly four of the
    cards (a four-flush). *)
Definition four_of_one_suit (cards : list Card) : bool :=
  bool_decide (Exists (λ s, list_count (map suit cards) s = 4%nat) (map suit cards)).

(** The distinct ranks of the cards, in increasing order. *)
Definition distinct_ranks (cards : list Card) : list Z :=
  merge_sort Z.le (remove_dups (map rank cards)).

(** Some window of four consecutive entries [u[i], ..., u[i+3]] has the
    given span [u[i+3] - u[i]]. *)
Definition has_window (span : Z) (u : list Z) : bool :=
  existsb
    (λ i, match u !! i, u !! (i + 3)%nat with
          | Some lo, Some hi => hi - lo =? span
          | _, _ => false
          end)
    (seq 0 (length u)).

Definition draw_outs (cards : list Card) : Z :=
  let outs := if four_of_one_suit cards then 9 else 0 in
  let u := distinct_ranks cards in
  if has_window 3 u then Z.max outs 8
  else if has_window 4 u then Z.max outs 4
  else outs.

(** Two percent per out and per card to come: the multiplier is 4 with
    three community cards known and 2 with four. *)
Definition outs_multiplier (community : list Card) : Z :=
  2 * (5 - Z.of_nat (length community)).

Definition rule_of_thumb_equity (hand community : list Card) : Q :=
  (inject_Z (draw_outs (hand ++ community) * outs_multiplier community) / 100)%Q.

(** *** Range tokens *)

(** A token that contains a dash (the span form, as "22-99"). *)
Definition has_dash (r : string) : bool := bool_decide ("-"%char ∈ chars r).

(** The range lists of the configured table. *)
Definition table_lists : list (list string) :=
  p ← [EARLY; MIDDLE; LATE; BLINDS];
  [RFI (preflop_ranges p); vs_raise_3bet (preflop_ranges p); vs_raise_call (preflop_ranges p)].

(** *** Sentinel cards *)



(** A card that stands for malformed text. *)
Definition is_sentinel (c : Card) : Prop := rank c = 0.

#[export] Instance is_sentinel_dec c : Decision (is_sentinel c).
Proof. unfold is_sentinel. apply _. Defined.


(** The characters a rank is written with. *)
Definition rank_char (c : ascii) : bool :=
  bool_decide (c ∈ chars "0123456789-TJQKA").

(** A necessary condition for being the hand string of two cards: an
    even length (the pair form) or rank characters followed by [s] or
    [o]. *)
Definition hand_string_shape (r : string) : bool :=
  Nat.even (String.length r)
  || match last (chars r) with
     | Some c => bool_decide (c = "s"%char ∨ c = "o"%char)
                 && forallb rank_char (removelast (chars r))
     | None => false
     end.

(** A token of the exact-match form that no hand string equals. *)
Definition never_matches (r : string) : bool :=
  negb (bool_decide (String.length r = 2%nat)) && negb (endswith r "+")
  && negb (hand_string_shape r).

(** *** Raise bounds *)

(** What [get_action] returns is within the raise bounds when it is a
    raise. *)
Definition within_bounds (round_state : RoundStateClient) (r : PokerAction * Z * t) : Prop :=
  r.1.1 = RAISE →
  min_raise round_state ≤ max_raise round_state →
  min_raise round_state ≤ r.1.2 ≤ max_raise round_state.

End Spec.

(** ** Example deals *)

Module Examples.
Import GTOPlayer.

(** The agent in seat 0 of a six-seat table, with the given hole cards. *)
Definition agent (hole : list string) : GTOPlayer.t :=
  mk (Some 1) (map card hole) false [1; 2; 3; 4; 5; 6].

(** Before the flop, the big blind of 10 posted by player 2, no raise. *)
Definition preflop_unraised : RoundStateClient :=
  mkRoundState "Preflop" 10 ∅ 15 20 1000 [] ∅ 2.

(** A flop of A K 2 with a bet of 50 into a pot of 100. *)
Definition flop_bet : RoundStateClient :=
  mkRoundState "Flop" 50 ∅ 100 100 1000 ["Ac"; "Kd"; "2s"] ∅ 2.

End Examples.

(** ** Further notions *)

Module More.

(** *** The five-card scorer *)

(** Five ranks in decreasing order that follow each other. *)
Definition consecutive (ranks : list Z) : Prop :=
  ∃ high, ranks = [high; high - 1; high - 2; high - 3; high - 4].

(** The ranks of the wheel, in decreasing order. *)
Definition wheel : list Z := [14; 5; 4; 3; 2].

(** The hand ranks whose kickers are the distinct ranks, grouped. *)
Definition grouped (r : HandRank) : Prop :=
  r ∈ [FOUR_OF_A_KIND; FULL_HOUSE; THREE_OF_A_KIND; TWO_PAIR; PAIR].

(** How often the kickers of a grouped hand rank are held, in the order
    of the kickers. *)
Definition multiplicities (r : HandRank) : list Z :=
  match r with
  | FOUR_OF_A_KIND => [4; 1]
  | FULL_HOUSE => [3; 2]
  | THREE_OF_A_KIND => [3; 1; 1]
  | TWO_PAIR => [2; 2; 1]
  | PAIR => [2; 1; 1; 1]
  | _ => []
  end.

(** [x] comes before [y] among grouped kickers: it is held more often,
    or as often and is the higher rank. *)
Definition before_in_kickers (ranks : list Z) (x y : Z) : Prop :=
  occurrences ranks y < occurrences ranks x
  ∨ (occurrences ranks y = occurrences ranks x ∧ y < x).

(** *** Nothing to call *)

(** A bet of [num / den] of the pot in whole chips, brought into the
    raise bounds. *)
Definition pot_bet (round_state : RoundStateClient) (num den : Z) : PokerAction * Z :=
  (RAISE, Spec.clamp round_state ((num * pot round_state) `quot` den)).

(** The decision after the flop with nothing to call.  The pre-flop
    aggressor bets 66% of the pot with a monster, a strong made hand or
    a strong draw, bets 40% of the pot with air when the random draw is
    below 0.4, and checks otherwise; any other player bets half the pot
    with a monster, a strong or a medium made hand, and checks
    otherwise. *)
Definition nothing_owed_decision (round_state : RoundStateClient)
    (aggressor : bool) (category : HandCategory) (random : Q) : PokerAction * Z :=
  if aggressor then
    if bool_decide (category ∈ [MONSTER; STRONG_MADE; STRONG_DRAW])
    then pot_bet round_state 66 100
    else if bool_decide (category = AIR) && Spec.Qlt_bool random (4 # 10)
    then pot_bet round_state 4 10
    else (CHECK, 0)
  else
    if bool_decide (category ∈ [MONSTER; STRONG_MADE; MEDIUM_MADE])
    then pot_bet round_state 1 2
    else (CHECK, 0).

(** *** Before the flop *)

(** The last action of some player is a raise. *)
Definition has_raise (round_state : RoundStateClient) : bool :=
  bool_decide (map_Exists (λ _ action, action = "Raise") (player_actions round_state)).

(** The decision before the flop, by the range lists of the position
    that hold the hand.  Facing a raise, a hand of the 3-bet list raises
    to three times the current bet, a hand of the call list calls, and
    any other hand folds.  Without a raise, a hand of the opening list
    raises to 2.5 times the minimum raise in whole chips, and any other
    hand checks when nothing is owed and folds otherwise. *)
Definition preflop_decision (round_state : RoundStateClient) (amount_to_call : Z)
    (in_3bet in_call in_rfi : bool) : PokerAction * Z :=
  if has_raise round_state then
    if in_3bet then (RAISE, Spec.clamp round_state (3 * current_bet round_state))
    else if in_call then (CALL, amount_to_call)
    else (FOLD, 0)
  else
    if in_rfi
    then (RAISE, Spec.clamp round_state ((5 * min_raise round_state) `quot` 2))
    else if decide (amount_to_call = 0) then (CHECK, 0)
    else (FOLD, 0).

(** *** The protocol of actions *)

(** What an action and its amount have to be, for the amount that is
    owed: a fold is for 0 chips; a check is for 0 chips and owes
    nothing; a call is for the amount owed; a raise is for a target
    brought into the raise bounds. *)
Definition follows_protocol (round_state : RoundStateClient) (amount_to_call : Z)
    (action : PokerAction) (amount : Z) : Prop :=
  match action with
  | FOLD => amount = 0
  | CHECK => amount = 0 ∧ amount_to_call = 0
  | CALL => amount = amount_to_call
  | RAISE => ∃ target, amount = Spec.clamp round_state target
  end.

(** *** Dealing *)

(** The text of two cards as the host deals them. *)
Definition deal_text (c1 c2 : Card) : string :=
  Card_repr c1 +:+ " " +:+ Card_repr c2.

(** A card of the deck in text: a rank that is not 0 and a suit of one
    character that is no space. *)
Definition printable (c : Card) : Prop :=
  rank c ≠ 0 ∧ ∃ ch, suit c = String ch "" ∧ ch ≠ " "%char.

End More.

(** * Properties *)

(** ** The runtime model *)

Lemma Sorted_weaken {A} (R1 R2 : relation A) l :
  (∀ x y, R1 x y → R2 x y) → Sorted R1 l → Sorted R2 l.
Proof.
  intros HR. induction 1 as [|x l Hl IH Hhd]; constructor; [done|].
  destruct Hhd; constructor. by apply HR.
Qed.

Section sorted_by.
Context {A : Type} (before : A → A → bool).

Lemma insert_by_Permutation x l : insert_by before x l ≡ₚ x :: l.
Proof.
  induction l as [|y l IH]; simpl; [done|].
  destruct (before y x); [|done].
  rewrite IH. apply Permutation_swap.
Qed.

Lemma sorted_by_Permutation l : sorted_by before l ≡ₚ l.
Proof.
  induction l as [|x l IH]; simpl; [done|].
  unfold sorted_by in *. simpl. by rewrite insert_by_Permutation, IH.
Qed.

Lemma length_sorted_by l : length (sorted_by before l) = length l.
Proof. by rewrite sorted_by_Permutation. Qed.

Hypothesis before_asym : ∀ x y, before x y = true → before y x = false.

Lemma insert_by_Sorted x l :
  Sorted (may_precede before) l → Sorted (may_precede before) (insert_by before x l).
Proof.
  induction 1 as [|y l Hl IH Hhd]; simpl; [by repeat constructor|].
  destruct (before y x) eqn:Hyx.
  - constructor; [done|].
    destruct Hhd as [|z l Hz]; simpl.
    + constructor. by apply before_asym.
    + destruct (before z x); constructor; [done|]. by apply before_asym.
  - by repeat constructor.
Qed.

Lemma sorted_by_Sorted l : Sorted (may_precede before) (sorted_by before l).
Proof.
  induction l as [|x l IH]; [constructor|]. by apply insert_by_Sorted.
Qed.

(** Sorting a sorted list changes nothing. *)
Lemma sorted_by_id l : Sorted (may_precede before) l → sorted_by before l = l.
Proof.
  induction 1 as [|x l Hl IH Hhd]; [done|].
  unfold sorted_by in *. simpl. rewrite IH.
  destruct Hhd as [|y l Hy]; simpl; [done|]. by rewrite Hy.
Qed.
End sorted_by.

Lemma Sorted_desc_sorted l : Sorted (flip Z.le) (sorted_desc l).
Proof.
  eapply Sorted_weaken; [|apply sorted_by_Sorted].
  - intros x y. unfold may_precede, flip. lia.
  - intros x y. lia.
Qed.

Lemma Sorted_asc_sorted l : Sorted Z.le (sorted_asc l).
Proof.
  eapply Sorted_weaken; [|apply sorted_by_Sorted].
  - intros x y. unfold may_precede. lia.
  - intros x y. lia.
Qed.

Lemma sorted_desc_Permutation l : sorted_desc l ≡ₚ l.
Proof. apply sorted_by_Permutation. Qed.

Lemma sorted_asc_Permutation l : sorted_asc l ≡ₚ l.
Proof. apply sorted_by_Permutation. Qed.

#[local] Instance flip_Zle_antisymm : AntiSymm (=) (flip Z.le).
Proof. intros x y. unfold flip. lia. Qed.

(** [sorted] depends on the multiset of its argument only. *)
Lemma sorted_desc_perm l1 l2 : l1 ≡ₚ l2 → sorted_desc l1 = sorted_desc l2.
Proof.
  intros Hp. apply (Sorted_unique (flip Z.le)); [apply _ ..| | |].
  - apply Sorted_desc_sorted.
  - apply Sorted_desc_sorted.
  - by rewrite !sorted_desc_Permutation.
Qed.

Lemma sorted_asc_perm l1 l2 : l1 ≡ₚ l2 → sorted_asc l1 = sorted_asc l2.
Proof.
  intros Hp. apply (Sorted_unique Z.le); [apply _ ..| | |].
  - apply Sorted_asc_sorted.
  - apply Sorted_asc_sorted.
  - by rewrite !sorted_asc_Permutation.
Qed.

Lemma sorted_desc_id l : Sorted (flip Z.le) l → sorted_desc l = l.
Proof.
  intros Hs. apply sorted_by_id. eapply Sorted_weaken; [|done].
  intros x y. unfold may_precede, flip. lia.
Qed.

(** *** Counter *)

Section Counter.
Context {K : Type} `{EqDecision K}.
Implicit Types (c : list (K * Z)) (l : list K).

Lemma occurrences_nil (k : K) : occurrences [] k = 0.
Proof. done. Qed.

Lemma occurrences_snoc l x k :
  occurrences (l ++ [x]) k = occurrences l k + (if decide (x = k) then 1 else 0).
Proof.
  unfold occurrences, list_count. rewrite filter_app, length_app.
  rewrite filter_cons, filter_nil. destruct (decide (x = k)); simpl; lia.
Qed.

Lemma occurrences_cons l x k :
  occurrences (x :: l) k = (if decide (x = k) then 1 else 0) + occurrences l k.
Proof.
  unfold occurrences, list_count. rewrite filter_cons.
  destruct (decide (x = k)); simpl; lia.
Qed.

Lemma occurrences_nonneg l k : 0 ≤ occurrences l k.
Proof. unfold occurrences. lia. Qed.

Lemma occurrences_pos l k : 0 < occurrences l k ↔ k ∈ l.
Proof.
  induction l as [|x l IH]; [rewrite occurrences_nil; split; [lia|by intros ?%elem_of_nil]|].
  rewrite occurrences_cons, elem_of_cons. pose proof (occurrences_nonneg l k).
  destruct (decide (x = k)); subst; split; try lia; auto.
  - intros ?. right. apply IH. lia.
  - intros [?|?%IH]; [congruence|lia].
Qed.

Lemma occurrences_perm l1 l2 k : l1 ≡ₚ l2 → occurrences l1 k = occurrences l2 k.
Proof. intros Hp. unfold occurrences, list_count. by rewrite Hp. Qed.

Lemma Counter_snoc l x : Counter (l ++ [x]) = counter_add x (Counter l).
Proof. unfold Counter. by rewrite foldl_app. Qed.

Lemma keys_counter_add k c :
  keys (counter_add k c) = if decide (k ∈ keys c) then keys c else keys c ++ [k].
Proof.
  unfold keys. induction c as [|[k' n] c IH].
  { destruct (decide (k ∈ [].*1)) as [Hin|]; [|done]. by apply elem_of_nil in Hin. }
  cbn [counter_add]. destruct (decide (k = k')) as [->|Hne].
  - rewrite decide_True; [done|]. rewrite fmap_cons. apply list_elem_of_here.
  - rewrite !fmap_cons, IH. cbn [fst]. destruct (decide (k ∈ c.*1)) as [Hin|Hin].
    + by rewrite decide_True by by apply list_elem_of_further.
    + rewrite decide_False; [done|]. by intros [?|?]%elem_of_cons.
Qed.

Lemma counter_get_add k c k' :
  counter_get (counter_add k c) k' =
  counter_get c k' + (if decide (k = k') then 1 else 0).
Proof.
  induction c as [|[k0 n] c IH]; simpl.
  { destruct (decide (k' = k)), (decide (k = k')); congruence || done. }
  destruct (decide (k = k0)) as [->|Hne]; simpl.
  - destruct (decide (k' = k0)), (decide (k0 = k')); try congruence; lia.
  - destruct (decide (k' = k0)) as [->|]; [|done].
    rewrite decide_False by done. lia.
Qed.

Lemma counter_get_Counter l k : counter_get (Counter l) k = occurrences l k.
Proof.
  induction l as [|x l IH] using rev_ind; [done|].
  by rewrite Counter_snoc, counter_get_add, occurrences_snoc, IH.
Qed.

Lemma counter_get_elem c k n :
  NoDup (keys c) → (k, n) ∈ c → counter_get c k = n.
Proof.
  unfold keys. induction c as [|[k0 n0] c IH]; simpl; [by intros _ ?%elem_of_nil|].
  intros [Hk0 Hnd]%NoDup_cons [[= -> ->]|Hin]%elem_of_cons.
  - by rewrite decide_True.
  - rewrite decide_False; [by apply IH|].
    intros ->. apply Hk0. apply list_elem_of_fmap. by exists (k0, n).
Qed.

Lemma counter_get_keys c k : k ∈ keys c → (k, counter_get c k) ∈ c.
Proof.
  unfold keys. induction c as [|[k0 n0] c IH]; simpl; [by intros ?%elem_of_nil|].
  intros Hin. destruct (decide (k = k0)) as [->|Hne]; [left|].
  right. apply IH. by apply elem_of_cons in Hin as [?|?].
Qed.

Lemma NoDup_keys_Counter l : NoDup (keys (Counter l)).
Proof.
  induction l as [|x l IH] using rev_ind; [constructor|].
  rewrite Counter_snoc, keys_counter_add. case_decide; [done|].
  apply NoDup_app. split_and!; [done| |apply NoDup_singleton].
  intros y Hy Hy'%list_elem_of_singleton. by subst.
Qed.

Lemma elem_of_keys_Counter l k : k ∈ keys (Counter l) ↔ k ∈ l.
Proof.
  induction l as [|x l IH] using rev_ind; [done|].
  rewrite Counter_snoc, keys_counter_add, elem_of_app, list_elem_of_singleton.
  case_decide as Hx; [|rewrite elem_of_app, list_elem_of_singleton; tauto].
  rewrite IH. split; [tauto|]. intros [?|Heq]; [done|]. subst. by apply IH.
Qed.

(** The items of [Counter l] are exactly the elements of [l] with their
    numbers of occurrences. *)
Lemma elem_of_Counter l k n :
  (k, n) ∈ Counter l ↔ k ∈ l ∧ n = occurrences l k.
Proof.
  split.
  - intros Hin. split.
    + apply elem_of_keys_Counter. apply list_elem_of_fmap. by exists (k, n).
    + rewrite <-counter_get_Counter. symmetry.
      by apply counter_get_elem; [apply NoDup_keys_Counter|].
  - intros [Hin ->]. rewrite <-counter_get_Counter.
    by apply counter_get_keys, elem_of_keys_Counter.
Qed.

Lemma elem_of_values_Counter l n :
  n ∈ values (Counter l) ↔ ∃ k, k ∈ l ∧ n = occurrences l k.
Proof.
  unfold values. rewrite list_elem_of_fmap. split.
  - intros [[k n'] [-> Hin]]. exists k. by apply elem_of_Counter.
  - intros (k & Hin). exists (k, n). split; [done|]. by apply elem_of_Counter.
Qed.

Lemma length_keys_values c : length (keys c) = length (values c).
Proof. unfold keys, values. by rewrite !length_fmap. Qed.

Lemma values_counter_add_sum k c :
  foldr Z.add 0 (values (counter_add k c)) = foldr Z.add 0 (values c) + 1.
Proof.
  unfold values. induction c as [|[k0 n] c IH]; [done|].
  cbn [counter_add]. destruct (decide (k = k0)); rewrite !fmap_cons; cbn [foldr snd].
  - lia.
  - rewrite IH. lia.
Qed.

Lemma values_Counter_sum l :
  foldr Z.add 0 (values (Counter l)) = Z.of_nat (length l).
Proof.
  induction l as [|x l IH] using rev_ind; [done|].
  rewrite Counter_snoc, values_counter_add_sum, IH, length_app. simpl. lia.
Qed.

Lemma values_Counter_pos l : Forall (λ n, 1 ≤ n) (values (Counter l)).
Proof.
  apply Forall_forall. intros n (k & Hin & ->)%elem_of_values_Counter.
  apply occurrences_pos in Hin. lia.
Qed.
End Counter.

(** *** The [result] monad *)

Lemma bind_Ok {A B} (m : result A) (f : A → result B) b :
  m ≫= f = Ok b ↔ ∃ a, m = Ok a ∧ f a = Ok b.
Proof.
  destruct m as [a|e]; cbn.
  - split; [by exists a|]. by intros (a' & [= <-] & ?).
  - split; [done|]. by intros (a' & ? & ?).
Qed.

Lemma fmap_Ok {A B} (m : result A) (f : A → B) b :
  f <$> m = Ok b ↔ ∃ a, m = Ok a ∧ b = f a.
Proof.
  destruct m as [a|e]; cbn.
  - split; [intros [= <-]; by exists a|]. by intros (a' & [= <-] & ->).
  - split; [done|]. by intros (a' & ? & ?).
Qed.

(** Splits a hypothesis that says a monadic computation returned. *)
Ltac inv_Ok H :=
  repeat match type of H with
  | (_ ≫= _) = Ok _ =>
      let a := fresh "a" in let Ha := fresh "Ha" in
      apply bind_Ok in H as (a & Ha & H)
  | (let '(_, _) := ?p in _) = Ok _ => destruct p
  | Ok _ = Ok _ => injection H as H
  | Raise _ = Ok _ => discriminate H
  | (if ?b then _ else _) = Ok _ => destruct b eqn:?
  end.

(** ** Cards and sentinels *)

Section sentinel.
Import HandEvaluator Spec.

Lemma StronglySorted_lookup_lt {A} (R : relation A) l i j x y :
  StronglySorted R l → l !! i = Some x → l !! j = Some y → (i < j)%nat → R x y.
Proof.
  intros Hs. revert i j. induction Hs as [|z l Hs IH Hall]; intros i j; [done|].
  destruct i as [|i], j as [|j]; cbn; try lia.
  - intros [= ->] Hy _. rewrite Forall_forall in Hall.
    by eapply Hall, list_elem_of_lookup_2.
  - intros Hx Hy Hlt. apply (IH i j); [done..|lia].
Qed.

Lemma sort_cards_StronglySorted cards :
  StronglySorted (λ c d, rank d ≤ rank c) (sort_cards cards).
Proof.
  apply Sorted_StronglySorted; [intros c d e; lia|].
  eapply Sorted_weaken; [|apply sorted_by_Sorted].
  - intros c d. unfold may_precede. lia.
  - intros c d. lia.
Qed.

Lemma sort_cards_Permutation cards : sort_cards cards ≡ₚ cards.
Proof. apply sorted_by_Permutation. Qed.

Lemma Card_init_total card_str : ∃ c, Card_init card_str = Ok c.
Proof.
  unfold Card_init. case_decide; [eexists; reflexivity|].
  destruct (rank_map _); [eexists; reflexivity|].
  unfold int_str. by destruct (match strip _ with [] => _ | _ => _ end); eexists.
Qed.

Lemma list_count_ge_1 {A} `{EqDecision A} (l : list A) x :
  (1 <=? list_count l x)%nat = bool_decide (x ∈ l).
Proof.
  pose proof (occurrences_pos l x) as Hpos. unfold occurrences in Hpos.
  destruct (Nat.leb_spec 1 (list_count l x)).
  - symmetry. apply bool_decide_eq_true_2, Hpos. lia.
  - symmetry. apply bool_decide_eq_false_2. intros ?%Hpos. lia.
Qed.











End sentinel.

(** ** The categorizer *)

Section categorize.
Import GTOPlayer.

(** WEAK_DRAW is never assigned. *)
Lemma categorize_not_weak_draw rank_ hand community :
  _categorize_hand rank_ hand community ≠ Ok WEAK_DRAW.
Proof. unfold _categorize_hand. intros H. inv_Ok H; discriminate. Qed.

(** STRONG_DRAW comes from the draw detection only, which runs on fewer
    than five cards and after their suits have been counted. *)
Lemma categorize_strong_draw rank_ hand community :
  _categorize_hand rank_ hand community = Ok STRONG_DRAW →
  (length (hand ++ community) < 5)%nat ∧
  ∃ n, top_suit_count (hand ++ community) = Ok n.
Proof.
  unfold _categorize_hand. intros H.
  destruct (_ <=? _); [discriminate H|].
  apply bind_Ok in H as (is_set & _ & H).
  destruct is_set; [discriminate H|]. destruct (_ <=? _); [discriminate H|].
  apply bind_Ok in H as (is_draw & Hdraw & H).
  destruct is_draw; [|inv_Ok H; discriminate].
  destruct (Nat.ltb_spec (length (hand ++ community)) 5); [|discriminate Hdraw].
  split; [done|]. apply bind_Ok in Hdraw as (n & Hn & _). by exists n.
Qed.

(** C3: with five or more cards between hole and board the categorizer
    returns neither STRONG_DRAW nor WEAK_DRAW, and a hand the evaluator
    ranks HIGH_CARD (no made hand, whatever it draws to) is AIR. *)
Theorem categorize_full_board rank_ hand community :
  (5 ≤ length (hand ++ community))%nat →
  _categorize_hand rank_ hand community ≠ Ok STRONG_DRAW ∧
  _categorize_hand rank_ hand community ≠ Ok WEAK_DRAW ∧
  (rank_ = HIGH_CARD → _categorize_hand rank_ hand community = Ok AIR).
Proof.
  intros Hlen. split_and!.
  - intros [? _]%categorize_strong_draw. lia.
  - apply categorize_not_weak_draw.
  - intros ->. unfold _categorize_hand.
    destruct (Nat.ltb_spec (length (hand ++ community)) 5); [lia|done].
Qed.
End categorize.

(** ** The equity estimator *)

Section equity.
Import GTOPlayer Spec.

Lemma max_by_count_spec {K} (best : K * Z) (c : list (K * Z)) :
  let m := max_by_count best c in
  m ∈ best :: c ∧ ∀ x, x ∈ best :: c → x.2 ≤ m.2.
Proof.
  revert best. induction c as [|y c IH]; intros best; cbn.
  { split; [apply list_elem_of_here|]. by intros x ->%list_elem_of_singleton. }
  destruct (IH (if best.2 <? y.2 then y else best)) as [Hin Hmax]. split.
  - apply elem_of_cons in Hin as [->|Hin].
    + destruct (_ <? _); rewrite !elem_of_cons; auto.
    + rewrite !elem_of_cons; auto.
  - intros x [->|[->|Hx]%elem_of_cons]%elem_of_cons.
    + etrans; [|apply Hmax, list_elem_of_here]. destruct (Z.ltb_spec best.2 y.2); lia.
    + etrans; [|apply Hmax, list_elem_of_here]. destruct (Z.ltb_spec best.2 y.2); lia.
    + by apply Hmax, list_elem_of_further.
Qed.

(** [Counter(suits).most_common(1)[0][1]] is the largest number of cards
    of one suit; it fails on no cards only. *)
Lemma top_suit_count_spec cards :
  cards ≠ [] →
  ∃ n s, top_suit_count cards = Ok n ∧ s ∈ map suit cards ∧
         n = occurrences (map suit cards) s ∧
         ∀ s', occurrences (map suit cards) s' ≤ n.
Proof.
  intros Hne. unfold top_suit_count, most_common1.
  destruct (Counter (map suit cards)) as [|x c] eqn:Hc.
  { destruct cards as [|c0 cards]; [done|].
    assert (suit c0 ∈ keys (Counter (map suit (c0 :: cards)))) as Hin
      by apply elem_of_keys_Counter, list_elem_of_here.
    rewrite Hc in Hin. by apply elem_of_nil in Hin. }
  destruct (max_by_count_spec x c) as [Hin Hmax]. rewrite <-Hc in Hin, Hmax.
  destruct (max_by_count x c) as [s n]. apply elem_of_Counter in Hin as [Hs ->].
  eexists _, s. split_and!; [done..|].
  intros s'. destruct (decide (s' ∈ map suit cards)) as [Hs'|Hs'].
  - apply (Hmax (s', occurrences (map suit cards) s')). by apply elem_of_Counter.
  - pose proof (occurrences_pos (map suit cards) s').
    pose proof (occurrences_nonneg (map suit cards) s').
    assert (occurrences (map suit cards) s' = 0) as ->
      by (cut (¬ 0 < occurrences (map suit cards) s'); [lia|tauto]).
    apply occurrences_nonneg.
Qed.

Lemma occurrences_two {K} `{EqDecision K} (l : list K) k1 k2 :
  k1 ≠ k2 → occurrences l k1 + occurrences l k2 ≤ Z.of_nat (length l).
Proof.
  intros Hne. induction l as [|x l IH]; [done|].
  rewrite !occurrences_cons. cbn [length].
  destruct (decide (x = k1)), (decide (x = k2)); subst; try done; lia.
Qed.

(** On at most eight cards, the largest suit count is four exactly when
    some suit has exactly four cards. *)
Lemma top_suit_count_four cards n :
  (length cards ≤ 8)%nat →
  top_suit_count cards = Ok n →
  (n =? 4) = four_of_one_suit cards.
Proof.
  intros Hlen Hn. destruct (decide (cards = [])) as [->|Hne]; [done|].
  destruct (top_suit_count_spec cards Hne) as (n' & s & Hn' & Hs & -> & Hmax).
  rewrite Hn in Hn'. injection Hn' as ->. unfold four_of_one_suit.
  destruct (Z.eqb_spec (occurrences (map suit cards) s) 4) as [H4|H4].
  - symmetry. apply bool_decide_eq_true_2, Exists_exists. exists s. split; [done|].
    unfold occurrences in H4. lia.
  - symmetry. apply bool_decide_eq_false_2. intros (s0 & Hs0 & Hc0)%Exists_exists.
    assert (occurrences (map suit cards) s0 = 4) as H0 by (unfold occurrences; lia).
    destruct (decide (s = s0)) as [->|Hss]; [done|].
    pose proof (occurrences_two (map suit cards) s s0 Hss) as Hsum.
    pose proof (Hmax s0). rewrite length_map in Hsum. lia.
Qed.

Lemma distinct_ranks_unique_ranks cards : unique_ranks_of cards = distinct_ranks cards.
Proof.
  unfold unique_ranks_of, distinct_ranks.
  apply (Sorted_unique Z.le); [apply _ ..| | |].
  - apply Sorted_asc_sorted.
  - apply Sorted_merge_sort, _.
  - rewrite sorted_asc_Permutation, merge_sort_Permutation.
    apply NoDup_Permutation; [apply NoDup_elements|apply NoDup_remove_dups|].
    intros r. rewrite elem_of_elements, elem_of_list_to_set, elem_of_remove_dups. done.
Qed.

Lemma lookup_window_spans k u i :
  window_spans k u !! i =
  match u !! i, u !! (i + k)%nat with
  | Some lo, Some hi => Some (hi - lo)
  | _, _ => None
  end.
Proof.
  unfold window_spans. rewrite lookup_zip_with, lookup_drop.
  rewrite (Nat.add_comm k i). destruct (u !! i); [|done]. cbn.
  by destruct (u !! (i + k)%nat).
Qed.

Lemma window_spans_has_window span u :
  existsb (λ d, d =? span) (window_spans 3 u) = has_window span u.
Proof.
  unfold has_window. apply eq_true_iff_eq. rewrite !existsb_exists. split.
  - intros (d & Hd & Heq). apply list_elem_of_In, list_elem_of_lookup in Hd as [i Hi].
    rewrite lookup_window_spans in Hi.
    destruct (u !! i) as [lo|] eqn:Hlo; [|done].
    destruct (u !! (i + 3)%nat) as [hi|] eqn:Hhi; [|done]. injection Hi as <-.
    exists i. rewrite Hlo, Hhi. split; [|done].
    apply in_seq. apply lookup_lt_Some in Hlo. lia.
  - intros (i & _ & Hi).
    destruct (u !! i) as [lo|] eqn:Hlo; [|done].
    destruct (u !! (i + 3)%nat) as [hi|] eqn:Hhi; [|done].
    exists (hi - lo). split; [|done].
    apply list_elem_of_In, list_elem_of_lookup. exists i.
    by rewrite lookup_window_spans, Hlo, Hhi.
Qed.

Lemma has_window_short span u : (length u < 4)%nat → has_window span u = false.
Proof.
  intros Hlen. rewrite <-window_spans_has_window. unfold window_spans.
  rewrite drop_ge by lia. by destruct u.
Qed.

Lemma estimate_draw_equity_outs self community :
  hand self ++ community ≠ [] →
  (length (hand self ++ community) ≤ 8)%nat →
  _estimate_draw_equity self community =
  Ok (inject_Z (draw_outs (hand self ++ community)
                * (if decide (length community = 3%nat) then 4 else 2)) / 100)%Q.
Proof.
  intros Hne Hlen. unfold _estimate_draw_equity, draw_outs.
  destruct (top_suit_count_spec _ Hne) as (n & s & Hn & _).
  rewrite Hn. cbn [mbind result_bind].
  rewrite (top_suit_count_four _ n Hlen Hn).
  rewrite distinct_ranks_unique_ranks, !window_spans_has_window.
  change (0 + 9) with 9.
  destruct (Nat.leb_spec 4 (length (distinct_ranks (hand self ++ community)))); [done|].
  by rewrite !has_window_short by done.
Qed.

(** C7: with two hole cards and three or four community cards the
    estimate is outs x multiplier / 100, the outs being 9 for a
    four-flush, raised to at least 8 by a four-rank window of span 3 and
    otherwise to at least 4 by one of span 4, and the multiplier 4 on
    the flop and 2 on the turn; it is 0.36 for 7h 6h on 5h 2h 9c. *)
Theorem estimate_draw_equity_rule self community :
  length (hand self) = 2%nat →
  length community = 3%nat ∨ length community = 4%nat →
  ∃ equity,
    _estimate_draw_equity self community = Ok equity ∧
    (equity == rule_of_thumb_equity (hand self) community)%Q ∧
    (hand self = [card "7h"; card "6h"] →
     community = [card "5h"; card "2h"; card "9c"] →
     (equity == 36 # 100)%Q).
Proof.
  intros Hhand Hcomm. eexists. split_and!.
  - apply estimate_draw_equity_outs.
    + destruct (hand self); [done|done].
    + rewrite length_app. lia.
  - unfold rule_of_thumb_equity, outs_multiplier.
    destruct Hcomm as [-> | ->]; [rewrite decide_True by done|rewrite decide_False by done];
      reflexivity.
  - intros -> ->. vm_compute. reflexivity.
Qed.
End equity.

(** ** The outs of a strong draw *)

Section strong_draws.
Import HandEvaluator GTOPlayer Spec More.

Lemma StronglySorted_le_lt (l : list Z) :
  StronglySorted Z.le l → NoDup l → StronglySorted Z.lt l.
Proof.
  induction 1 as [|x l Hs IH Hall]; intros Hnd; constructor.
  - apply IH. by apply NoDup_cons in Hnd as [_ ?].
  - apply NoDup_cons in Hnd as [Hx _]. rewrite Forall_forall in Hall |- *.
    intros y Hy. specialize (Hall y Hy).
    assert (x ≠ y) by (by intros ->). lia.
Qed.

(** The distinct ranks are in strictly increasing order. *)
Lemma unique_ranks_increasing combined : StronglySorted Z.lt (unique_ranks_of combined).
Proof.
  unfold unique_ranks_of. apply StronglySorted_le_lt.
  - apply Sorted_StronglySorted; [intros x y z; lia|apply Sorted_asc_sorted].
  - rewrite sorted_asc_Permutation. apply NoDup_elements.
Qed.

(** A window of four distinct ranks spans three at least. *)
Lemma window_spans_ge u d :
  StronglySorted Z.lt u → d ∈ window_spans 3 u → 3 ≤ d.
Proof.
  intros Hs [i Hi]%list_elem_of_lookup. rewrite lookup_window_spans in Hi.
  destruct (u !! i) as [lo|] eqn:Hlo; [|done].
  destruct (u !! (i + 3)%nat) as [hi|] eqn:Hhi; [|done]. injection Hi as <-.
  destruct (lookup_lt_is_Some_2 u (i + 1)) as [x Hx];
    [apply lookup_lt_Some in Hhi; lia|].
  destruct (lookup_lt_is_Some_2 u (i + 2)) as [y Hy];
    [apply lookup_lt_Some in Hhi; lia|].
  pose proof (StronglySorted_lookup_lt _ _ i (i + 1) _ _ Hs Hlo Hx ltac:(lia)).
  pose proof (StronglySorted_lookup_lt _ _ (i + 1) (i + 2) _ _ Hs Hx Hy ltac:(lia)).
  pose proof (StronglySorted_lookup_lt _ _ (i + 2) (i + 3) _ _ Hs Hy Hhi ltac:(lia)).
  lia.
Qed.

(** A window of span four at most is one of span three or of span
    four. *)
Lemma window_spans_three_or_four combined :
  existsb (λ d, d <=? 4) (window_spans 3 (unique_ranks_of combined)) = true →
  existsb (λ d, d =? 3) (window_spans 3 (unique_ranks_of combined)) = true
  ∨ existsb (λ d, d =? 4) (window_spans 3 (unique_ranks_of combined)) = true.
Proof.
  rewrite !existsb_exists. intros (d & Hd & Hle%Z.leb_le).
  apply list_elem_of_In in Hd.
  pose proof (window_spans_ge _ d (unique_ranks_increasing combined) Hd) as Hge.
  apply list_elem_of_In in Hd.
  destruct (decide (d = 3)) as [Heq|Hne]; [left|right]; exists d;
    (split; [done|apply Z.eqb_eq; lia]).
Qed.

(** The estimator counts four outs at least for a strong draw. *)
Lemma draw_equity_of_strong_draw self community r :
  _categorize_hand r (hand self) community = Ok STRONG_DRAW →
  ∃ equity,
    _estimate_draw_equity self community = Ok equity ∧ (8 # 100 <= equity)%Q.
Proof.
  unfold _categorize_hand. intros H.
  destruct (_ <=? _); [discriminate H|].
  apply bind_Ok in H as (is_set & _ & H).
  destruct is_set; [discriminate H|]. destruct (_ <=? _); [discriminate H|].
  apply bind_Ok in H as (is_draw & Hdraw & H).
  destruct is_draw; [|inv_Ok H; discriminate]. clear H.
  destruct (_ <? _)%nat; [|discriminate Hdraw].
  apply bind_Ok in Hdraw as (n & Hn & Hdraw).
  unfold _estimate_draw_equity. rewrite Hn. cbn [mbind result_bind].
  eexists. split; [done|].
  set (multiplier := if decide (length community = 3%nat) then 4 else 2).
  assert (2 ≤ multiplier ≤ 4) as Hmult by (unfold multiplier; case_decide; lia).
  clearbody multiplier.
  set (outs := if (4 <=? length (unique_ranks_of (hand self ++ community)))%nat
               then _ else _).
  assert (4 ≤ outs) as Houts.
  { unfold outs. destruct (n =? 4).
    { repeat (destruct (_ <=? _)%nat || destruct (existsb _ _)); cbn; lia. }
    destruct (4 <=? _)%nat; [|discriminate Hdraw]. injection Hdraw as Hdraw.
    destruct (window_spans_three_or_four _ Hdraw) as [-> | ->]; [cbn; lia|].
    clear Hdraw. destruct (existsb _ _); lia. }
  clearbody outs. unfold Qle, Qdiv, Qmult, Qinv, inject_Z. cbn. nia.
Qed.
End strong_draws.

(** ** The order on scores *)

Section score_order.
Import Spec.

Lemma kickers_compare_refl k : kickers_compare k k = Eq.
Proof. induction k as [|a k IH]; [done|]. cbn. by rewrite Z.compare_refl. Qed.

Lemma kickers_compare_eq k1 k2 : kickers_compare k1 k2 = Eq → k1 = k2.
Proof.
  revert k2. induction k1 as [|a k1 IH]; intros [|b k2]; cbn; try done.
  destruct (Z.compare_spec a b); try done. intros ?%IH. by subst.
Qed.

Lemma kickers_compare_antisym k1 k2 :
  kickers_compare k2 k1 = CompOpp (kickers_compare k1 k2).
Proof.
  revert k2. induction k1 as [|a k1 IH]; intros [|b k2]; cbn; try done.
  rewrite (Z.compare_antisym a b). destruct (a ?= b); cbn; auto.
Qed.

Lemma kickers_compare_trans k1 k2 k3 :
  kickers_compare k1 k2 ≠ Gt → kickers_compare k2 k3 ≠ Gt →
  kickers_compare k1 k3 ≠ Gt.
Proof.
  revert k2 k3. induction k1 as [|a k1 IH]; intros [|b k2] [|c k3]; cbn; try done.
  destruct (Z.compare_spec a b), (Z.compare_spec b c), (Z.compare_spec a c);
    try done; try lia.
  apply IH.
Qed.

Lemma HandRank_value_inj r1 r2 : HandRank_value r1 = HandRank_value r2 → r1 = r2.
Proof. by destruct r1, r2. Qed.

Lemma score_compare_refl s : score_compare s s = Eq.
Proof. unfold score_compare. by rewrite Z.compare_refl, kickers_compare_refl. Qed.

Lemma score_le_refl s : score_le s s.
Proof. unfold score_le. by rewrite score_compare_refl. Qed.

Lemma score_le_trans s1 s2 s3 : score_le s1 s2 → score_le s2 s3 → score_le s1 s3.
Proof.
  unfold score_le, score_compare.
  destruct (Z.compare_spec (HandRank_value s1.1) (HandRank_value s2.1)) as [E12|L12|G12],
    (Z.compare_spec (HandRank_value s2.1) (HandRank_value s3.1)) as [E23|L23|G23],
    (Z.compare_spec (HandRank_value s1.1) (HandRank_value s3.1)) as [E13|L13|G13];
    try done; try lia.
  apply kickers_compare_trans.
Qed.

Lemma score_le_antisym s1 s2 : score_le s1 s2 → score_le s2 s1 → s1 = s2.
Proof.
  unfold score_le, score_compare. destruct s1 as [r1 k1], s2 as [r2 k2]. cbn.
  destruct (Z.compare_spec (HandRank_value r1) (HandRank_value r2)) as [E|L|G],
    (Z.compare_spec (HandRank_value r2) (HandRank_value r1)) as [E'|L'|G'];
    try done; try lia.
  apply HandRank_value_inj in E as ->.
  rewrite (kickers_compare_antisym k1 k2).
  destruct (kickers_compare k1 k2) eqn:Hk; try done.
  by apply kickers_compare_eq in Hk as ->.
Qed.

Lemma score_max_l best s : score_le best (score_max best s).
Proof.
  unfold score_max, score_le. destruct (score_compare s best) eqn:Hc;
    rewrite ?score_compare_refl; try done.
  unfold score_compare in *.
  rewrite (Z.compare_antisym (HandRank_value s.1)), (kickers_compare_antisym s.2).
  destruct (_ ?= _); cbn in *; try done.
  by destruct (kickers_compare _ _).
Qed.

Lemma score_max_r best s : score_le s (score_max best s).
Proof.
  unfold score_max, score_le. destruct (score_compare s best) eqn:Hc;
    rewrite ?score_compare_refl; congruence.
Qed.

Lemma score_max_cases best s : score_max best s = best ∨ score_max best s = s.
Proof. unfold score_max. destruct (score_compare s best); auto. Qed.
End score_order.

(** ** The five-card scorer *)

Section five_cards.
Import HandEvaluator Spec.

Lemma list_to_set_perm_eq `{Countable A} (l1 l2 : list A) :
  l1 ≡ₚ l2 → (list_to_set l1 : gset A) = list_to_set l2.
Proof.
  intros Hp. apply set_eq. intros x. by rewrite !elem_of_list_to_set, Hp.
Qed.

(** The scorer depends on the multiset of the cards only. *)
Lemma evaluate_five_card_hand_perm hand1 hand2 :
  hand1 ≡ₚ hand2 →
  _evaluate_five_card_hand hand1 = _evaluate_five_card_hand hand2.
Proof.
  intros Hp. unfold _evaluate_five_card_hand.
  rewrite (sorted_desc_perm (map rank hand1) (map rank hand2)) by by apply fmap_Permutation.
  rewrite (list_to_set_perm_eq (map suit hand1) (map suit hand2)) by by apply fmap_Permutation.
  done.
Qed.

(** Five ranks making up a given set of five are these, in some order. *)
Lemma ranks_of_five (l expected : list Z) :
  length l = 5%nat → length expected = 5%nat → NoDup expected →
  (list_to_set l : gset Z) = list_to_set expected →
  l ≡ₚ expected.
Proof.
  intros Hl He Hnd Hset. symmetry. apply submseteq_length_Permutation; [|lia].
  apply NoDup_submseteq; [done|]. intros x Hx.
  apply (elem_of_list_to_set (C := gset Z)). rewrite Hset.
  by apply elem_of_list_to_set.
Qed.

(** [len(set(suits)) == 1] on a hand that is not empty. *)
Lemma is_flush_same_suit hand :
  hand ≠ [] →
  size (list_to_set (map suit hand) : gset string) = 1%nat ↔ same_suit hand.
Proof.
  intros Hne. split.
  - intros Hsize. destruct hand as [|c0 hand]; [done|]. exists (suit c0).
    apply Forall_forall. intros c Hc.
    apply (size_singleton_inv _ _ _ Hsize); apply elem_of_list_to_set, list_elem_of_fmap.
    + by exists c.
    + exists c0. split; [done|apply list_elem_of_here].
  - intros [s Hs]. rewrite Forall_forall in Hs.
    assert ((list_to_set (map suit hand) : gset string) = {[s]}) as ->;
      [|apply size_singleton].
    apply set_eq. intros x. rewrite elem_of_list_to_set, elem_of_singleton, list_elem_of_fmap.
    split.
    + intros (c & -> & Hc). by apply Hs.
    + intros ->. destruct hand as [|c0 hand]; [done|]. exists c0.
      split; [symmetry; apply Hs|]; apply list_elem_of_here.
Qed.

(** The score of a hand whose sorted ranks are those of the wheel. *)
Lemma evaluate_wheel hand :
  length hand = 5%nat →
  (list_to_set (map rank hand) : gset Z) = {[14; 2; 3; 4; 5]} →
  _evaluate_five_card_hand hand =
  Ok (if bool_decide (size (list_to_set (map suit hand) : gset string) = 1%nat)
      then STRAIGHT_FLUSH else STRAIGHT, [5; 4; 3; 2; 1]).
Proof.
  intros Hlen Hset.
  assert (map rank hand ≡ₚ [14; 2; 3; 4; 5]) as Hp.
  { apply ranks_of_five; [by rewrite length_map|done| |].
    - apply (bool_decide_unpack _). by vm_compute.
    - rewrite Hset. apply (bool_decide_unpack _). by vm_compute. }
  unfold _evaluate_five_card_hand. rewrite (sorted_desc_perm _ _ Hp).
  destruct (bool_decide (size _ = 1%nat)); by vm_compute.
Qed.

(** The score of a hand whose sorted ranks are those of the six-high
    straight. *)
Lemma evaluate_six_high hand :
  length hand = 5%nat →
  (list_to_set (map rank hand) : gset Z) = {[2; 3; 4; 5; 6]} →
  _evaluate_five_card_hand hand =
  Ok (if bool_decide (size (list_to_set (map suit hand) : gset string) = 1%nat)
      then STRAIGHT_FLUSH else STRAIGHT, [6; 5; 4; 3; 2]).
Proof.
  intros Hlen Hset.
  assert (map rank hand ≡ₚ [2; 3; 4; 5; 6]) as Hp.
  { apply ranks_of_five; [by rewrite length_map|done| |].
    - apply (bool_decide_unpack _). by vm_compute.
    - rewrite Hset. apply (bool_decide_unpack _). by vm_compute. }
  unfold _evaluate_five_card_hand. rewrite (sorted_desc_perm _ _ Hp).
  destruct (bool_decide (size _ = 1%nat)); by vm_compute.
Qed.

(** C2: five cards whose ranks are ace, two, three, four and five score
    STRAIGHT with kickers 5 4 3 2 1 when they are not of one suit and
    STRAIGHT_FLUSH with the same kickers when they are, and the score is
    strictly below the one of any six-high straight of the same rank
    class. *)
Theorem wheel_score hand :
  length hand = 5%nat →
  (list_to_set (map rank hand) : gset Z) = {[14; 2; 3; 4; 5]} →
  (¬ same_suit hand → _evaluate_five_card_hand hand = Ok (STRAIGHT, [5; 4; 3; 2; 1])) ∧
  (same_suit hand → _evaluate_five_card_hand hand = Ok (STRAIGHT_FLUSH, [5; 4; 3; 2; 1])) ∧
  (∀ six_high,
     length six_high = 5%nat →
     (list_to_set (map rank six_high) : gset Z) = {[2; 3; 4; 5; 6]} →
     ∃ s1 s2,
       _evaluate_five_card_hand hand = Ok s1 ∧
       _evaluate_five_card_hand six_high = Ok s2 ∧
       s2.2 = [6; 5; 4; 3; 2] ∧
       (s1.1 = s2.1 → score_lt s1 s2)).
Proof.
  intros Hlen Hset. rewrite (evaluate_wheel hand Hlen Hset).
  assert (hand ≠ []) as Hne by by destruct hand.
  pose proof (is_flush_same_suit hand Hne) as Hflush.
  split_and!.
  - intros Hns. by rewrite bool_decide_eq_false_2 by by rewrite Hflush.
  - intros Hs. by rewrite bool_decide_eq_true_2 by by rewrite Hflush.
  - intros six_high Hlen6 Hset6. rewrite (evaluate_six_high six_high Hlen6 Hset6).
    eexists _, _. split_and!; [done..|]. cbn [fst snd]. intros Heq.
    unfold score_lt, score_compare. cbn [fst snd]. rewrite Heq, Z.compare_refl. done.
Qed.
End five_cards.

(** ** The best five cards *)

Section evaluate.
Import HandEvaluator Spec.

(** *** Combinations *)

Lemma combinations_0 {A} (l : list A) : combinations l 0 = [[]].
Proof. by destruct l. Qed.

Lemma elem_of_combinations {A} (l : list A) k c :
  c ∈ combinations l k ↔ c `sublist_of` l ∧ length c = k.
Proof.
  revert k c. induction l as [|x l IH]; intros k c.
  - destruct k as [|k]; cbn.
    + rewrite list_elem_of_singleton, sublist_nil_r. split; [by intros ->|by intros [-> _]].
    + rewrite elem_of_nil, sublist_nil_r. split; [done|]. by intros [-> ?].
  - destruct k as [|k].
    + rewrite combinations_0, list_elem_of_singleton. split.
      * intros ->. split; [apply sublist_nil_l|done].
      * intros [_ Hlen]. by destruct c.
    + cbn [combinations]. rewrite elem_of_app, list_elem_of_fmap, sublist_cons_r. split.
      * intros [(c' & -> & [Hs Hl]%IH)|[Hs Hl]%IH].
        -- split; [right; by exists c'|cbn; by rewrite Hl].
        -- split; [by left|done].
      * intros [[Hs|(c' & -> & Hs)] Hl].
        -- right. by apply IH.
        -- left. exists c'. split; [done|]. apply IH. split; [done|]. cbn in Hl. lia.
Qed.

(** *** The kicker comparison loop *)

Lemma kicker_scan_spec kickers best_kickers i n :
  length kickers = (i + n)%nat → length best_kickers = (i + n)%nat →
  kicker_scan kickers best_kickers (seq i n) =
  Ok (match kickers_compare (drop i kickers) (drop i best_kickers) with
      | Gt => kickers
      | _ => best_kickers
      end).
Proof.
  revert i. induction n as [|n IH]; intros i Hk Hb.
  - cbn. by rewrite !drop_ge by lia.
  - cbn [seq kicker_scan]. unfold getitem.
    destruct (lookup_lt_is_Some_2 kickers i) as [k Hki]; [lia|].
    destruct (lookup_lt_is_Some_2 best_kickers i) as [b Hbi]; [lia|].
    rewrite Hki, Hbi. cbn [mbind result_bind].
    rewrite (drop_S _ _ _ Hki), (drop_S _ _ _ Hbi). cbn [kickers_compare].
    destruct (Z.compare_spec k b) as [->|Hlt|Hgt].
    + rewrite !Z.ltb_irrefl. apply IH; lia.
    + destruct (Z.ltb_spec b k); [lia|]. by destruct (Z.ltb_spec k b); [|lia].
    + by destruct (Z.ltb_spec b k); [|lia].
Qed.

(** *** Scores of five cards *)

Lemma Zsum_perm (l1 l2 : list Z) :
  l1 ≡ₚ l2 → foldr Z.add 0 l1 = foldr Z.add 0 l2.
Proof. induction 1; cbn; lia. Qed.

Lemma Zsum_nonneg (l : list Z) : Forall (λ n, 1 ≤ n) l → 0 ≤ foldr Z.add 0 l.
Proof. induction 1; cbn; lia. Qed.

(** The multiplicities of five cards, in decreasing order. *)
Lemma counts_shape c0 rest :
  Forall (λ n, 1 ≤ n) (c0 :: rest) →
  foldr Z.add 0 (c0 :: rest) = 5 →
  Sorted (flip Z.le) (c0 :: rest) →
  (c0 = 4 → length rest = 1%nat) ∧
  (c0 = 3 → c0 :: rest ≠ [3; 2] → length rest = 2%nat) ∧
  (c0 = 2 → c0 :: rest ≠ [2; 2; 1] → length rest = 3%nat).
Proof.
  intros Hpos Hsum Hsorted.
  apply Forall_cons in Hpos as [Hc0 Hpos].
  apply Sorted_inv in Hsorted as [Hsorted Hhd].
  destruct rest as [|c1 rest]; cbn in Hsum; [split_and!; intros; cbn [length]; lia|].
  apply Forall_cons in Hpos as [Hc1 Hpos].
  apply HdRel_inv in Hhd. unfold flip in Hhd.
  apply Sorted_inv in Hsorted as [Hsorted Hhd1].
  destruct rest as [|c2 rest]; cbn in Hsum.
  { split_and!; intros; cbn [length]; try lia.
    assert (c1 = 2) as -> by lia. by subst. }
  apply Forall_cons in Hpos as [Hc2 Hpos].
  apply HdRel_inv in Hhd1. unfold flip in Hhd1.
  apply Sorted_inv in Hsorted as [Hsorted Hhd2].
  destruct rest as [|c3 rest]; cbn in Hsum.
  { split_and!; intros; cbn [length]; try lia.
    assert (c1 = 2) as -> by lia. assert (c2 = 1) as -> by lia. by subst. }
  apply Forall_cons in Hpos as [Hc3 Hpos].
  pose proof (Zsum_nonneg rest Hpos) as Hrest.
  destruct rest as [|c4 rest]; cbn in Hsum, Hrest.
  { split_and!; intros; cbn [length]; lia. }
  apply Forall_cons in Hpos as [Hc4 Hpos].
  pose proof (Zsum_nonneg rest Hpos).
  split_and!; intros; cbn [length]; lia.
Qed.

(** Five cards always have a score, with as many kickers as its rank
    takes; a HIGH_CARD score has the ranks of the cards, in decreasing
    order, as kickers. *)
Lemma evaluate_five_card_hand_well_formed hand :
  length hand = 5%nat →
  ∃ s, _evaluate_five_card_hand hand = Ok s ∧ well_formed s ∧
       (s.1 = HIGH_CARD → s.2 = sorted_desc (map rank hand)).
Proof.
  intros Hlen. unfold _evaluate_five_card_hand, well_formed.
  set (ranks := sorted_desc (map rank hand)).
  assert (length ranks = 5%nat) as Hranks
    by (unfold ranks; by rewrite sorted_desc_Permutation, length_map).
  set (rank_counts := Counter ranks).
  set (is_flush := bool_decide (size _ = 1%nat)). clearbody is_flush.
  set (counts := sorted_desc (values rank_counts)).
  set (main_ranks := sorted_by _ (keys rank_counts)).
  assert (length main_ranks = length counts) as Hmain.
  { unfold main_ranks, counts. rewrite length_sorted_by, length_keys_values.
    by rewrite sorted_desc_Permutation. }
  assert (Forall (λ n, 1 ≤ n) counts) as Hpos.
  { unfold counts. rewrite sorted_desc_Permutation. apply values_Counter_pos. }
  assert (foldr Z.add 0 counts = 5) as Hsum.
  { unfold counts. rewrite (Zsum_perm _ _ (sorted_desc_Permutation _)).
    unfold rank_counts. rewrite values_Counter_sum, Hranks. done. }
  pose proof (Sorted_desc_sorted (values rank_counts)) as Hsorted. fold counts in Hsorted.
  match goal with
  | |- context [let '(_, _) := ?e in _] =>
      assert (∃ is_straight ranks',
                e = (is_straight, ranks') ∧ length ranks' = 5%nat ∧
                (is_straight = false → ranks' = ranks))
        as (is_straight & ranks' & -> & Hlen' & Hsame)
  end.
  { repeat case_match; eexists _, _; (split; [reflexivity|]); split; try done.
    all: by intros _. }
  clearbody main_ranks counts. destruct counts as [|c0 rest]; [done|].
  destruct (counts_shape c0 rest Hpos Hsum Hsorted) as (H4 & H3 & H2).
  cbn [length] in Hmain.
  destruct (is_straight && is_flush) eqn:Hsf.
  { eexists. split; [reflexivity|]. cbn. split; [done|discriminate]. }
  cbn [getitem lookup list_lookup mbind result_bind].
  destruct (Z.eqb_spec c0 4) as [E4|_].
  { eexists. split; [reflexivity|]. cbn. split; [rewrite Hmain, H4; done|discriminate]. }
  case_bool_decide as E32.
  { eexists. split; [reflexivity|]. cbn. split; [|discriminate].
    rewrite Hmain. by injection E32 as -> ->. }
  destruct is_flush.
  { eexists. split; [reflexivity|]. cbn. split; [done|discriminate]. }
  destruct is_straight.
  { eexists. split; [reflexivity|]. cbn. split; [done|discriminate]. }
  destruct (Z.eqb_spec c0 3) as [E3|_].
  { eexists. split; [reflexivity|]. cbn. split; [rewrite Hmain, H3; done|discriminate]. }
  case_bool_decide as E221.
  { eexists. split; [reflexivity|]. cbn. split; [|discriminate].
    rewrite Hmain. by injection E221 as -> ->. }
  destruct (Z.eqb_spec c0 2) as [E2|_].
  { eexists. split; [reflexivity|]. cbn. split; [rewrite Hmain, H2; done|discriminate]. }
  eexists. split; [reflexivity|]. cbn. split; [done|]. intros _. by apply Hsame.
Qed.
(** *** The loop over the combinations *)

Lemma evaluate_step_spec best combo s :
  well_formed best → well_formed s →
  _evaluate_five_card_hand combo = Ok s →
  evaluate_step best combo = Ok (score_max best s).
Proof.
  unfold well_formed, evaluate_step, score_max, score_compare.
  destruct best as [best_rank best_kickers], s as [rank_ kickers]. cbn [fst snd].
  intros Hbest Hs ->. cbn [mbind result_bind].
  destruct (Z.compare_spec (HandRank_value rank_) (HandRank_value best_rank))
    as [Heq|Hlt|Hgt].
  - destruct (Z.ltb_spec (HandRank_value best_rank) (HandRank_value rank_)); [lia|].
    destruct (Z.eqb_spec (HandRank_value rank_) (HandRank_value best_rank)); [|lia].
    apply HandRank_value_inj in Heq as ->.
    rewrite (kicker_scan_spec kickers best_kickers 0 (length kickers)) by (done || lia).
    cbn [mbind result_bind drop]. by destruct (kickers_compare _ _).
  - destruct (Z.ltb_spec (HandRank_value best_rank) (HandRank_value rank_)); [lia|].
    by destruct (Z.eqb_spec (HandRank_value rank_) (HandRank_value best_rank)); [lia|].
  - by destruct (Z.ltb_spec (HandRank_value best_rank) (HandRank_value rank_)); [|lia].
Qed.

Lemma score_max_well_formed best s :
  well_formed best → well_formed s → well_formed (score_max best s).
Proof. intros. by destruct (score_max_cases best s) as [-> | ->]. Qed.

(** The loop keeps a maximum: it ends with a score that is at least the
    initial one and the one of every combination, and that is the
    initial one or the one of some combination. *)
Lemma evaluate_loop_spec combos best :
  well_formed best →
  Forall (λ combo, length combo = 5%nat) combos →
  ∃ final,
    foldlM evaluate_step best combos = Ok final ∧
    well_formed final ∧
    score_le best final ∧
    (∀ combo, combo ∈ combos →
       ∃ s, _evaluate_five_card_hand combo = Ok s ∧ score_le s final) ∧
    (final = best ∨
     ∃ combo, combo ∈ combos ∧ _evaluate_five_card_hand combo = Ok final).
Proof.
  intros Hbest Hall. revert best Hbest.
  induction Hall as [|combo combos Hlen Hall IH]; intros best Hbest.
  { exists best. split_and!; [done|done|apply score_le_refl| |by left].
    by intros combo ?%elem_of_nil. }
  destruct (evaluate_five_card_hand_well_formed combo Hlen) as (s & Hs & Hwf & _).
  cbn [foldlM]. rewrite (evaluate_step_spec best combo s Hbest Hwf Hs).
  cbn [mbind result_bind].
  destruct (IH (score_max best s) (score_max_well_formed _ _ Hbest Hwf))
    as (final & Hfinal & Hwff & Hle & Hge & Hach).
  exists final. split_and!; [done|done| | |].
  - eapply score_le_trans; [apply score_max_l|done].
  - intros c [->|Hc]%elem_of_cons; [|by apply Hge].
    exists s. split; [done|]. eapply score_le_trans; [apply score_max_r|done].
  - destruct Hach as [->|(c & Hc & Hcs)].
    + destruct (score_max_cases best s) as [-> | ->]; [by left|].
      right. exists combo. split; [apply list_elem_of_here|done].
    + right. exists c. split; [by apply list_elem_of_further|done].
Qed.

(** *** The first combination *)

Lemma Sorted_take {A} (R : relation A) l n : Sorted R l → Sorted R (take n l).
Proof.
  intros Hs. revert n. induction Hs as [|x l Hs IH Hhd]; intros [|n]; cbn;
    try constructor; [apply IH|].
  destruct Hhd as [|y l Hy]; [destruct n; constructor|]. destruct n; by constructor.
Qed.

Lemma sort_cards_ranks_sorted cards :
  Sorted (flip Z.le) (map rank (sort_cards cards)).
Proof.
  apply (Sorted_fmap _ (λ c d, rank d ≤ rank c)); [done|].
  apply StronglySorted_Sorted, sort_cards_StronglySorted.
Qed.

(** The initial best score is at most the score of the five highest
    cards, which the loop visits. *)
Lemma initial_score_le all_cards s :
  Sorted (flip Z.le) (map rank all_cards) →
  _evaluate_five_card_hand (take 5 all_cards) = Ok s →
  (s.1 = HIGH_CARD → s.2 = sorted_desc (map rank (take 5 all_cards))) →
  score_le (HIGH_CARD, take 5 (map rank all_cards)) s.
Proof.
  intros Hsorted Hs Hhigh. unfold score_le, score_compare. cbn [fst snd].
  destruct (decide (s.1 = HIGH_CARD)) as [Heq|Hne].
  - rewrite Heq, Z.compare_refl, (Hhigh Heq).
    rewrite sorted_desc_id by (rewrite fmap_take; by apply Sorted_take).
    by rewrite fmap_take, kickers_compare_refl.
  - destruct (s.1); try done.
Qed.

(** C1: with five or more cards between hole and board, [evaluate]
    returns a score that is at least the score of every five of the
    cards and is the score of some five of them. *)
Theorem evaluate_best hand community :
  length hand = 2%nat →
  (5 ≤ length (hand ++ community))%nat →
  ∃ best,
    evaluate hand community = Ok best ∧
    (∀ five, five ⊆+ hand ++ community → length five = 5%nat →
       ∃ s, _evaluate_five_card_hand five = Ok s ∧ score_le s best) ∧
    (∃ five, five ⊆+ hand ++ community ∧ length five = 5%nat ∧
       _evaluate_five_card_hand five = Ok best).
Proof.
  intros _ Hlen. unfold evaluate.
  set (all_cards := sort_cards (hand ++ community)).
  assert (all_cards ≡ₚ hand ++ community) as Hperm by apply sort_cards_Permutation.
  assert (5 ≤ length all_cards)%nat as Hlen' by by rewrite Hperm.
  destruct (Nat.ltb_spec (length all_cards) 5) as [|_]; [lia|].
  set (init := (HIGH_CARD, take 5 (map rank all_cards))).
  assert (well_formed init) as Hinit.
  { unfold well_formed, init. cbn. rewrite length_take, length_map. lia. }
  assert (Forall (λ combo, length combo = 5%nat) (combinations all_cards 5)) as Hall.
  { apply Forall_forall. by intros c [_ ?]%elem_of_combinations. }
  destruct (evaluate_loop_spec _ init Hinit Hall)
    as (final & Hfinal & _ & Hle & Hge & Hach).
  exists final. split_and!; [done| |].
  - intros five Hsub Hfive. rewrite <-Hperm in Hsub.
    apply submseteq_sublist_r in Hsub as (combo & Hp & Hcombo).
    destruct (Hge combo) as (s & Hs & Hsle).
    { apply elem_of_combinations. split; [done|]. by rewrite <-Hp. }
    exists s. split; [|done]. by rewrite (evaluate_five_card_hand_perm _ _ Hp).
  - assert (take 5 all_cards ∈ combinations all_cards 5) as Hfirst.
    { apply elem_of_combinations. split; [apply sublist_take|].
      rewrite length_take. lia. }
    assert (∃ combo, combo ∈ combinations all_cards 5 ∧
                     _evaluate_five_card_hand combo = Ok final)
      as (combo & [Hsub Hc5]%elem_of_combinations & Hcombo).
    { destruct Hach as [->|?]; [|done]. exists (take 5 all_cards). split; [done|].
      destruct (Hge _ Hfirst) as (s & Hs & Hsle). rewrite Hs. f_equal.
      apply score_le_antisym; [done|].
      destruct (evaluate_five_card_hand_well_formed (take 5 all_cards))
        as (s' & Hs' & _ & Hhigh); [rewrite length_take; lia|].
      rewrite Hs in Hs'. injection Hs' as <-.
      apply initial_score_le; [apply sort_cards_ranks_sorted|done..]. }
    exists combo. split_and!; [|done..].
    rewrite <-Hperm. by apply sublist_submseteq.
Qed.
End evaluate.

(** ** The decision facing a bet *)

Section facing_bet.
Import GTOPlayer Spec.

Lemma estimate_draw_equity_Ok self community n :
  top_suit_count (hand self ++ community) = Ok n →
  ∃ equity, _estimate_draw_equity self community = Ok equity.
Proof. intros Hn. unfold _estimate_draw_equity. rewrite Hn. cbn. by eexists. Qed.

Lemma half_pot_le pot amount_to_call :
  Qle_bool (inject_Z amount_to_call) (inject_Z pot * (1 # 2)) =
  bool_decide (2 * amount_to_call ≤ pot).
Proof.
  unfold Qle_bool. cbn. change (Z.pos (1 * 2)) with 2.
  destruct (Z.leb_spec (amount_to_call * 2) (pot * 1 * 1)).
  - rewrite bool_decide_eq_true_2; [done|lia].
  - rewrite bool_decide_eq_false_2; [done|lia].
Qed.

Lemma raise_target pot amount_to_call :
  int_float (inject_Z (int_float (inject_Z pot * (3 # 2) + inject_Z amount_to_call))) =
  (3 * pot + 2 * amount_to_call) `quot` 2.
Proof.
  unfold int_float. cbn. rewrite Z.quot_1_r. f_equal. lia.
Qed.

(** The pot odds of the code, 0 unless the pot after the call is
    positive, and those of the text, 0 when that pot is 0, part only
    where that pot is negative; there the text's are negative and the
    code's are 0, below every positive equity both. *)
Lemma pot_odds_code pot amount_to_call equity :
  0 < amount_to_call → (0 < equity)%Q →
  negb (Qle_bool equity
          (if 0 <? pot + amount_to_call
           then inject_Z amount_to_call / inject_Z (pot + amount_to_call) else 0)) =
  Qlt_bool (pot_odds pot amount_to_call) equity.
Proof.
  intros Hatc Hequity. unfold Qlt_bool, pot_odds.
  destruct (Z.ltb_spec 0 (pot + amount_to_call)); case_decide; try lia; try done.
  assert (∀ x, (x <= 0)%Q → Qle_bool equity x = false) as Hneg.
  { intros x Hx. destruct (Qle_bool equity x) eqn:Hle; [|done].
    apply Qle_bool_iff in Hle. exfalso.
    apply (Qlt_irrefl 0). eapply Qlt_le_trans; [exact Hequity|].
    eapply Qle_trans; [exact Hle|exact Hx]. }
  rewrite !Hneg; [done|..].
  - unfold Qle, Qdiv, Qmult, Qinv, inject_Z.
    destruct (pot + amount_to_call) as [|p|p] eqn:Hsum; cbn; lia.
  - done.
Qed.

(** Evaluates the comparisons of two constants of the category scale. *)
Ltac eval_const_Q :=
  repeat match goal with
  | |- context [Qeq_bool ?a ?b] =>
      let v := eval vm_compute in (Qeq_bool a b) in
      match v with
      | true => change (Qeq_bool a b) with true
      | false => change (Qeq_bool a b) with false
      end
  | |- context [Qle_bool ?a ?b] =>
      let v := eval vm_compute in (Qle_bool a b) in
      match v with
      | true => change (Qle_bool a b) with true
      | false => change (Qle_bool a b) with false
      end
  end.

(** C4: after the flop, with a positive amount to call and chip counts
    of machine size, [get_action] returns the decision of the cascade
    monster / strong-made / strong draw against pot odds / weak-made
    against half the pot / fold, for the category the categorizer
    assigns, and leaves the instance as it is.  The pot odds are those
    of the text, 0 when the pot after the call is 0; the pot may be
    negative. *)
Theorem get_action_facing_bet self round_state random community hand_rank kickers category :
  let amount_to_call :=
    current_bet round_state
    - default 0 (player_bets round_state !! str_id (id self)) in
  round round_state ≠ "Preflop" →
  0 < amount_to_call →
  machine_sized (pot round_state) →
  machine_sized amount_to_call →
  small_id (id self) →
  community_cards_of round_state = Ok community →
  HandEvaluator.evaluate (hand self) community = Ok (hand_rank, kickers) →
  _categorize_hand hand_rank (hand self) community = Ok category →
  ∃ equity,
    (category = STRONG_DRAW → _estimate_draw_equity self community = Ok equity) ∧
    get_action self round_state random =
      Ok (facing_bet_decision round_state category equity amount_to_call, self).
Proof.
  intros atc Hround Hatc _ _ _ Hcc Heval Hcat.
  assert (∃ equity,
    category = STRONG_DRAW →
    _estimate_draw_equity self community = Ok equity ∧ (0 < equity)%Q)
    as [equity Hequity].
  { destruct (decide (category = STRONG_DRAW)) as [->|]; [|by exists 0%Q].
    apply draw_equity_of_strong_draw in Hcat as (q & Hq & Hge). exists q.
    intros _. split; [done|]. by eapply Qlt_le_trans; [|exact Hge]. }
  exists equity. split; [by intros [? _]%Hequity|].
  unfold get_action. fold atc. rewrite decide_False by done.
  rewrite Hcc. cbn [mbind result_bind]. rewrite Heval. cbn [mbind result_bind].
  rewrite Hcat. cbn [mbind result_bind].
  destruct (Z.eqb_spec atc 0) as [|_]; [lia|].
  rewrite half_pot_le.
  unfold facing_bet_decision, at_least.
  destruct category; cbn [HandCategory_value]; eval_const_Q;
    cbn -[pot_odds Z.mul Z.quot int_float Qle_bool Qlt_bool _estimate_draw_equity
          Z.ltb Qdiv];
    try reflexivity.
  - rewrite decide_True by done.
    unfold _make_raise, clamp. by rewrite raise_target.
  - rewrite decide_False, (bool_decide_eq_false_2 (_ = STRONG_DRAW)) by done.
    cbn [andb]. by destruct (bool_decide _).
  - rewrite decide_False, (bool_decide_eq_false_2 (_ = STRONG_DRAW)) by done.
    cbn [andb]. by destruct (bool_decide _).
  - rewrite decide_False, bool_decide_eq_true_2 by done.
    destruct (Hequity eq_refl) as [-> Hpos]. cbn [mbind result_bind andb].
    rewrite (pot_odds_code _ _ _ Hatc Hpos).
    by destruct (Qlt_bool _ _).
Qed.
End facing_bet.

(** ** Position *)

Section position.
Import GTOPlayer Spec.

Lemma index_seat_of ids x :
  index ids x = match seat_of ids x with Some i => Ok i | None => Raise ValueError end.
Proof.
  unfold seat_of. induction ids as [|y ids IH]; [done|].
  cbn [index list_find]. destruct (decide (Some y = x)); [done|].
  rewrite IH. by destruct (list_find _ ids) as [[i z]|].
Qed.

(** The seat found is the first one that holds the player. *)
Lemma seat_of_first ids x i :
  seat_of ids x = Some i ↔
  Some <$> ids !! i = Some x ∧ ∀ j, (j < i)%nat → Some <$> ids !! j ≠ Some x.
Proof.
  unfold seat_of. split.
  - destruct (list_find _ ids) as [[i' y]|] eqn:Hf; [|done].
    intros [= <-]. apply list_find_Some in Hf as (Hi & Hy & Hlt).
    split; [rewrite Hi; simpl; by f_equal|].
    intros j Hj. destruct (ids !! j) as [z|] eqn:Hz; [|done].
    simpl. intros [= Heq]. eapply Hlt; [done..|]. by f_equal.
  - intros [Hi Hlt]. destruct (ids !! i) as [y|] eqn:Hy; [|done].
    simpl in Hi. injection Hi as Hi.
    assert (list_find (λ y, Some y = x) ids = Some (i, y)) as ->; [|done].
    apply list_find_Some. split_and!; [done|by f_equal|].
    intros j z Hz Hj Hzx. apply (Hlt j Hj). by rewrite Hz, <-Hzx.
Qed.

Lemma seat_of_None ids x : seat_of ids x = None ↔ ∀ y, y ∈ ids → Some y ≠ x.
Proof.
  unfold seat_of. destruct (list_find _ ids) as [[i y]|] eqn:Hf.
  - apply list_find_Some in Hf as (Hi & Hy & _). split; [done|].
    intros Hall. exfalso. eapply Hall; [|done]. by eapply list_elem_of_lookup_2.
  - split; [|done]. intros _ y Hy. rewrite list_find_None, Forall_forall in Hf.
    by apply Hf.
Qed.

(** C6, as amended: at a table of more than three players the position
    is the one of the relative-offset table, with LATE when the agent or
    the big blind is not seated; at a table of three players or fewer
    the position is LATE whatever the seats are. *)
Theorem get_position_table self round_state :
  _get_position self round_state =
  Ok (if decide (length (all_player_ids self) ≤ 3)%nat then LATE
      else table_position (all_player_ids self) (id self)
             (big_blind_player_id round_state)).
Proof.
  unfold _get_position, table_position.
  set (ids := all_player_ids self). set (n := Z.of_nat (length ids)).
  destruct (Z.leb_spec n 3) as [Hn|Hn].
  { rewrite decide_True; [done|lia]. }
  rewrite decide_False by lia.
  rewrite !index_seat_of.
  destruct (seat_of ids (id self)) as [i|]; [|done]. cbn.
  destruct (seat_of ids (Some _)) as [j|]; [|done]. cbn.
  replace ((Z.of_nat i - Z.of_nat j + n) `mod` n)
    with ((Z.of_nat i - Z.of_nat j) `mod` n)
    by (rewrite <-(Z.mod_add _ 1 n) by lia; f_equal; lia).
  set (r := (Z.of_nat i - Z.of_nat j) `mod` n). unfold position_by_offset.
  assert (r ∈ [n - 1; n - 2] ↔ r = n - 1 ∨ r = n - 2) as Hmem.
  { rewrite !elem_of_cons, elem_of_nil. tauto. }
  rewrite bool_decide_decide.
  destruct (decide (r ∈ _)) as [Hr|Hr].
  - rewrite decide_True; [done|]. by apply Hmem.
  - rewrite decide_False by by rewrite <-Hmem.
    destruct (Z.eqb_spec r (n - 3)); [by rewrite decide_True by auto|].
    destruct (Z.eqb_spec r (n - 4)); [by rewrite decide_True by auto|].
    rewrite decide_False by lia.
    destruct (Z.eqb_spec r (n - 5)); [by rewrite decide_True|by rewrite decide_False].
Qed.

(** C6, as stated, fails at a table of three: the agent in seat 0 with
    the big blind in seat 1 is at relative offset 2 = player_count - 1,
    which the table maps to BLINDS, and the position is LATE. *)
Lemma get_position_table_counterexample :
  let self := mk (Some 0) [] false [0; 1; 2] in
  let round_state := mkRoundState "Preflop" 0 ∅ 0 0 0 [] ∅ 1 in
  0 ∈ all_player_ids self ∧ big_blind_player_id round_state ∈ all_player_ids self ∧
  table_position (all_player_ids self) (id self) (big_blind_player_id round_state) = BLINDS ∧
  _get_position self round_state = Ok LATE.
Proof.
  cbn. split_and!; [|  |done|done]; rewrite !elem_of_cons; auto.
Qed.
End position.

(** ** Bet and raise amounts *)

Section raise.
Import GTOPlayer Spec.

Lemma make_bet_clamped round_state x :
  ∃ amount, _make_bet round_state x = (RAISE, amount) ∧
    (min_raise round_state ≤ max_raise round_state →
     min_raise round_state ≤ amount ≤ max_raise round_state).
Proof. eexists. split; [reflexivity|]. lia. Qed.

Lemma make_raise_clamped round_state x :
  ∃ amount, _make_raise round_state x = (RAISE, amount) ∧
    (min_raise round_state ≤ max_raise round_state →
     min_raise round_state ≤ amount ≤ max_raise round_state).
Proof. eexists. split; [reflexivity|]. lia. Qed.

Lemma within_bounds_bet round_state x self :
  within_bounds round_state (_make_bet round_state x, self).
Proof. destruct (make_bet_clamped round_state x) as (a & -> & Ha). by intros _. Qed.

Lemma within_bounds_raise round_state x self :
  within_bounds round_state (_make_raise round_state x, self).
Proof. destruct (make_raise_clamped round_state x) as (a & -> & Ha). by intros _. Qed.

Lemma within_bounds_other round_state a n self :
  a ≠ RAISE → within_bounds round_state (a, n, self).
Proof. by intros Ha ?. Qed.

Lemma preflop_action_within_bounds self round_state amount_to_call r :
  _get_preflop_action self round_state amount_to_call = Ok r →
  within_bounds round_state r.
Proof.
  unfold _get_preflop_action. intros H. inv_Ok H; subst r;
    first [apply within_bounds_raise | by apply within_bounds_other].
Qed.

Lemma get_action_within_bounds self round_state random r :
  get_action self round_state random = Ok r → within_bounds round_state r.
Proof.
  unfold get_action. intros H.
  destruct (decide (round round_state = "Preflop")).
  { by eapply preflop_action_within_bounds. }
  inv_Ok H; subst r;
    first [apply within_bounds_raise | apply within_bounds_bet
          | by apply within_bounds_other].
Qed.

(** C8: a raise returned by [get_action] is for an amount within
    [[min_raise, max_raise]], when these bounds are ordered. *)
Theorem raise_amount_within_bounds self round_state random amount self' :
  get_action self round_state random = Ok (RAISE, amount, self') →
  min_raise round_state ≤ max_raise round_state →
  min_raise round_state ≤ amount ≤ max_raise round_state.
Proof.
  intros H Hle. by apply (get_action_within_bounds _ _ _ _ H).
Qed.
End raise.

(** ** The range matcher *)

Section range_matcher.
Import GTOPlayer.

(** The hand string of two cards of given ranks, in either storage
    order, for suited and offsuit cards. *)
Lemma in_range_hand_string self r1 s1 r2 s2 range_list :
  hand self = [mkCard r1 s1; mkCard r2 s2] →
  _is_in_range self range_list =
  in_range_loop
    (let '(hi, lo) := if r1 <? r2 then (r2, r1) else (r1, r2) in
     if decide (rank_str hi = rank_str lo) then rank_str hi +:+ rank_str lo
     else rank_str hi +:+ rank_str lo +:+ (if decide (s1 = s2) then "s" else "o"))
    (mkCard r1 s1) (mkCard r2 s2) range_list.
Proof.
  intros Hhand. unfold _is_in_range, _get_hand_string. rewrite Hhand.
  unfold HandEvaluator.sort_cards, sorted_by. cbn.
  destruct (r1 <? r2); cbn; [|done].
  destruct (decide (s2 = s1)), (decide (s1 = s2)); congruence || done.
Qed.

(** The parts of C5 that hold: "99+" matches pocket nines and pocket
    kings and not pocket eights; "ATs+" matches suited A-T and suited
    A-K in either storage order, no offsuit A-T in either order, and
    not suited A-9 when the ace is stored first. *)
Lemma range_matcher_examples i a ids s1 s2 :
  let holding c1 c2 := mk i [c1; c2] a ids in
  _is_in_range (holding (mkCard 9 s1) (mkCard 9 s2)) ["99+"] = Ok true ∧
  _is_in_range (holding (mkCard 13 s1) (mkCard 13 s2)) ["99+"] = Ok true ∧
  _is_in_range (holding (mkCard 8 s1) (mkCard 8 s2)) ["99+"] = Ok false ∧
  _is_in_range (holding (mkCard 14 s1) (mkCard 10 s1)) ["ATs+"] = Ok true ∧
  _is_in_range (holding (mkCard 10 s1) (mkCard 14 s1)) ["ATs+"] = Ok true ∧
  _is_in_range (holding (mkCard 14 s1) (mkCard 13 s1)) ["ATs+"] = Ok true ∧
  _is_in_range (holding (mkCard 13 s1) (mkCard 14 s1)) ["ATs+"] = Ok true ∧
  (s1 ≠ s2 →
   _is_in_range (holding (mkCard 14 s1) (mkCard 10 s2)) ["ATs+"] = Ok false ∧
   _is_in_range (holding (mkCard 10 s1) (mkCard 14 s2)) ["ATs+"] = Ok false) ∧
  _is_in_range (holding (mkCard 14 s1) (mkCard 9 s1)) ["ATs+"] = Ok false.
Proof.
  intros holding. unfold holding.
  split_and!; try intros Hne; try split;
    (erewrite in_range_hand_string by reflexivity);
    cbn -[in_range_loop];
    rewrite ?(decide_True (P := s1 = s1)) by done;
    rewrite ?(decide_False (P := s1 = s2)) by done;
    reflexivity.
Qed.

(** C5, at the input where the code departs from it: suited A-9 held
    with the nine stored first is matched by "ATs+" (the second stored
    card, the ace, is compared with the ten), while the same hand with
    the ace stored first is not. *)
Theorem in_range_ATs_plus_suited_A9 s :
  _is_in_range (mk None [mkCard 9 s; mkCard 14 s] false []) ["ATs+"] = Ok true ∧
  _is_in_range (mk None [mkCard 14 s; mkCard 9 s] false []) ["ATs+"] = Ok false ∧
  _is_in_range (mk None [card "9h"; card "Ah"] false []) ["ATs+"] = Ok true.
Proof.
  split_and!; [| |vm_compute; reflexivity];
    (erewrite in_range_hand_string by reflexivity);
    cbn -[in_range_loop]; rewrite ?(decide_True (P := s = s)) by done; reflexivity.
Qed.
End range_matcher.

(** *** Dash tokens *)

Section dash_tokens.
Import GTOPlayer Spec.

Lemma chars_app s1 s2 : chars (s1 +:+ s2) = chars s1 ++ chars s2.
Proof.
  unfold chars. induction s1 as [|c s1 IH]; [done|].
  cbn [list_ascii_of_string app]. rewrite <-IH. reflexivity.
Qed.

Lemma length_chars s : length (chars s) = String.length s.
Proof.
  unfold chars. induction s as [|c s IH]; [done|].
  cbn [String.length list_ascii_of_string length]. by rewrite IH.
Qed.

Lemma string_of_uint_chars d :
  Forall (λ c, rank_char c = true) (chars (NilEmpty.string_of_uint d)).
Proof. induction d; cbn; constructor; done. Qed.

Lemma str_int_chars n : Forall (λ c, rank_char c = true) (chars (str_int n)).
Proof.
  unfold str_int, NilZero.string_of_int, NilZero.string_of_uint.
  destruct (Z.to_int n) as [d|d].
  - destruct d; try apply (string_of_uint_chars (_ _)). by repeat constructor.
  - cbn. constructor; [done|].
    destruct d; try apply (string_of_uint_chars (_ _)). by repeat constructor.
Qed.

Lemma rank_str_chars r : Forall (λ c, rank_char c = true) (chars (rank_str r)).
Proof.
  unfold rank_str, rank_map_rev.
  repeat (case_decide; [by repeat constructor|]). apply str_int_chars.
Qed.

Lemma get_hand_string_shape self hand_str :
  _get_hand_string self = Ok hand_str → hand_string_shape hand_str = true.
Proof.
  unfold _get_hand_string. intros H.
  apply bind_Ok in H as ([c1 c2] & _ & H). injection H as <-.
  unfold hand_string_shape. case_decide as Heq.
  - apply orb_true_intro. left.
    rewrite <-length_chars, chars_app, length_app, Heq.
    replace (_ + _)%nat with (2 * length (chars (rank_str (rank c2))))%nat by lia.
    apply Nat.even_spec. by eexists.
  - apply orb_true_intro. right.
    rewrite !chars_app, !app_assoc.
    set (body := chars _ ++ chars _).
    assert (Forall (λ c, rank_char c = true) body) as Hbody
      by (apply Forall_app; split; apply rank_str_chars).
    assert (∃ x, chars (if decide (suit c1 = suit c2) then "s" else "o") = [x]
                 ∧ (x = "s"%char ∨ x = "o"%char)) as (x & -> & Hx)
      by (case_decide; eexists; (split; [reflexivity|]); auto).
    rewrite last_snoc, removelast_last.
    rewrite bool_decide_eq_true_2 by done. cbn [andb].
    apply forallb_forall. intros c Hc. rewrite Forall_forall in Hbody.
    by apply Hbody, list_elem_of_In.
Qed.

Lemma never_matches_spec hand_str c1 c2 r :
  hand_string_shape hand_str = true → never_matches r = true →
  range_token_matches hand_str c1 c2 r = Ok false.
Proof.
  unfold never_matches, range_token_matches.
  intros Hshape [[Hlen Hplus]%andb_prop Hr]%andb_prop.
  apply negb_true_iff, bool_decide_eq_false in Hlen.
  apply negb_true_iff in Hplus, Hr.
  rewrite decide_False, Hplus by done. f_equal.
  apply bool_decide_eq_false_2. intros ->. congruence.
Qed.

Lemma in_range_loop_drop hand_str c1 c2 (skip : string → bool) range_list :
  (∀ r, r ∈ range_list → skip r = true →
        range_token_matches hand_str c1 c2 r = Ok false) →
  in_range_loop hand_str c1 c2 range_list =
  in_range_loop hand_str c1 c2 (filter (λ r, skip r = false) range_list).
Proof.
  induction range_list as [|r l IH]; intros Hskip; [done|].
  rewrite filter_cons. destruct (skip r) eqn:Hr.
  - rewrite decide_False by done. cbn [in_range_loop].
    rewrite (Hskip r) by (done || apply list_elem_of_here). cbn.
    apply IH. intros r' Hr'. by apply Hskip, list_elem_of_further.
  - rewrite decide_True by done. cbn [in_range_loop].
    destruct (range_token_matches hand_str c1 c2 r) as [[]|]; cbn; [done| |done].
    apply IH. intros r' Hr'. by apply Hskip, list_elem_of_further.
Qed.

Lemma in_range_loop_true hand_str c1 c2 range_list :
  in_range_loop hand_str c1 c2 range_list = Ok true →
  ∃ r, r ∈ range_list ∧ range_token_matches hand_str c1 c2 r = Ok true.
Proof.
  induction range_list as [|r l IH]; [done|]. cbn [in_range_loop].
  intros H. apply bind_Ok in H as ([] & Hr & H).
  - exists r. split; [apply list_elem_of_here|done].
  - destruct (IH H) as (r' & Hin & Hr'). exists r'. split; [|done].
    by apply list_elem_of_further.
Qed.

(** Every dash token of the configured table is of the never-matching
    form. *)
Lemma table_dash_tokens_never_match range_list r :
  range_list ∈ table_lists → r ∈ range_list → has_dash r = true →
  never_matches r = true.
Proof.
  intros HL Hr Hdash.
  assert (forallb (forallb (λ r, implb (has_dash r) (never_matches r))) table_lists
          = true) as Hall by (vm_compute; reflexivity).
  rewrite forallb_forall in Hall. apply list_elem_of_In, Hall in HL.
  rewrite forallb_forall in HL. apply list_elem_of_In, HL in Hr.
  by rewrite Hdash in Hr.
Qed.

(** C10: for a hand of two cards and a range list of the configured
    table, a dash token alone matches nothing, the list matches exactly
    as it does without its dash tokens, and a match is always due to a
    token without a dash. *)
Theorem dash_tokens_inert self range_list :
  length (hand self) = 2%nat →
  range_list ∈ table_lists →
  (∀ r, r ∈ range_list → has_dash r = true → _is_in_range self [r] = Ok false) ∧
  _is_in_range self range_list =
    _is_in_range self (filter (λ r, has_dash r = false) range_list) ∧
  (_is_in_range self range_list = Ok true →
   ∃ r, r ∈ range_list ∧ has_dash r = false ∧ _is_in_range self [r] = Ok true).
Proof.
  intros Hlen HL.
  destruct (hand self) as [|c1 [|c2 [|]]] eqn:Hhand; try done.
  assert (∃ hand_str, _get_hand_string self = Ok hand_str) as [hand_str Hstr].
  { unfold _get_hand_string. rewrite Hhand.
    unfold HandEvaluator.sort_cards, sorted_by. cbn.
    destruct (_ <? _); cbn; by eexists. }
  pose proof (get_hand_string_shape _ _ Hstr) as Hshape.
  assert (∀ r, r ∈ range_list → has_dash r = true →
               range_token_matches hand_str c1 c2 r = Ok false) as Hdash.
  { intros r Hr Hd. apply never_matches_spec; [done|].
    by eapply table_dash_tokens_never_match. }
  unfold _is_in_range. rewrite Hstr, Hhand. cbn [mbind result_bind unpack2].
  split_and!.
  - intros r Hr Hd. cbn. by rewrite Hdash.
  - by apply in_range_loop_drop.
  - intros (r & Hr & Hm)%in_range_loop_true. exists r. split_and!; [done| |].
    + destruct (has_dash r) eqn:Hd; [|done]. rewrite Hdash in Hm by done. discriminate.
    + cbn. by rewrite Hm.
Qed.
(** *** Span tokens in general

    The inertness is one of the span form, not of the dash as such:
    a token that holds a dash and ends in [+] goes through the range
    branches and can match. *)

Lemma string_of_uint_no_dash d : "-"%char ∉ chars (NilEmpty.string_of_uint d).
Proof.
  induction d; cbn; [apply not_elem_of_nil|..];
    (apply not_elem_of_cons; split; [discriminate|done]).
Qed.

Lemma rank_str_no_dash r : 0 ≤ r → "-"%char ∉ chars (rank_str r).
Proof.
  intros Hr. unfold rank_str, rank_map_rev.
  repeat (case_decide;
          [cbn; apply not_elem_of_cons; split; [discriminate|apply not_elem_of_nil]|]).
  unfold default, str_int, NilZero.string_of_int, NilZero.string_of_uint.
  destruct r as [|p|p]; [| |lia]; cbn.
  - apply not_elem_of_cons; split; [discriminate|apply not_elem_of_nil].
  - destruct (Pos.to_uint p) eqn:Hp; rewrite <-?Hp;
      try apply string_of_uint_no_dash.
    cbn. apply not_elem_of_cons; split; [discriminate|apply not_elem_of_nil].
Qed.

(** For two cards of non-negative ranks, a token that holds a dash, is
    not two characters long and does not end in [+] matches nothing. *)
Lemma span_tokens_never_match self c1 c2 r :
  hand self = [c1; c2] → 0 ≤ rank c1 → 0 ≤ rank c2 →
  has_dash r = true → String.length r ≠ 2%nat → endswith r "+" = false →
  _is_in_range self [r] = Ok false.
Proof.
  intros Hhand H1 H2 Hdash Hlen Hplus. destruct c1 as [r1 s1], c2 as [r2 s2].
  rewrite (in_range_hand_string self r1 s1 r2 s2) by done.
  cbn [in_range_loop]. unfold range_token_matches.
  rewrite decide_False, Hplus by done. cbn [mbind result_bind].
  rewrite bool_decide_eq_false_2; [done|]. intros ->.
  apply bool_decide_eq_true_1 in Hdash. cbn [rank] in H1, H2.
  assert (∀ hi lo, 0 ≤ hi → 0 ≤ lo →
    "-"%char ∉ chars
      (if decide (rank_str hi = rank_str lo) then rank_str hi +:+ rank_str lo
       else rank_str hi +:+ rank_str lo +:+ (if decide (s1 = s2) then "s" else "o")))
    as Hno.
  { intros hi lo Hhi Hlo.
    destruct (decide (rank_str hi = rank_str lo)); rewrite !chars_app, !not_elem_of_app.
    - split; by apply rank_str_no_dash.
    - split_and!; [by apply rank_str_no_dash..|].
      destruct (decide (s1 = s2)); cbn;
        (apply not_elem_of_cons; split; [discriminate|apply not_elem_of_nil]). }
  destruct (r1 <? r2); cbn beta iota in Hdash;
    [by apply (Hno r2 r1)|by apply (Hno r1 r2)].
Qed.

(** A dash token of another form that matches: ["A-s+"] is a suited
    range whose base rank, read from ["-"], is the sentinel 0. *)
Lemma dash_range_token_matches :
  _is_in_range (Examples.agent ["Ah"; "Kh"]) ["A-s+"] = Ok true.
Proof. by vm_compute. Qed.
End dash_tokens.

(** ** Instances on example deals *)

Section examples.
Import HandEvaluator GTOPlayer Spec Examples.

(** Card text: rank symbols, integers as [int] reads them, and text that
    gives the sentinel. *)
Example card_parsing :
  map card ["Ah"; "Td"; "10d"; " 7 s"; "1_0c"; "-5h"; "Xh"; "h"; ""] =
  [mkCard 14 "h"; mkCard 10 "d"; mkCard 10 "d"; mkCard 7 "s"; mkCard 10 "c";
   mkCard (-5) "h"; mkCard 0 "h"; mkCard 0 "h"; mkCard 0 ""].
Proof. by vm_compute. Qed.

(** The whitespace [int] strips: a tab and a no-break space are, the
    file separator (code point 28) is not. *)
Example card_whitespace :
  card (String (ascii_of_nat 9) "5h") = mkCard 5 "h" ∧
  card (String (ascii_of_nat 160) "5h") = mkCard 5 "h" ∧
  card (String (ascii_of_nat 28) "5h") = mkCard 0 "h".
Proof. by vm_compute. Qed.

(** Pocket aces on A K 2: trips with the ace first, a set, a monster. *)
Example set_of_aces :
  evaluate (map card ["Ah"; "Ad"]) (map card ["Ac"; "Kd"; "2s"])
  = Ok (THREE_OF_A_KIND, [14; 13; 2]) ∧
  _categorize_hand THREE_OF_A_KIND (map card ["Ah"; "Ad"]) (map card ["Ac"; "Kd"; "2s"])
  = Ok MONSTER.
Proof. split; by vm_compute. Qed.

(** 7h 6h on 5h 2h 9c: five cards are known, so the hand is scored as a
    high card and categorized as air, four hearts or not. *)
Example four_flush_on_the_flop :
  evaluate (map card ["7h"; "6h"]) (map card ["5h"; "2h"; "9c"])
  = Ok (HIGH_CARD, [9; 7; 6; 5; 2]) ∧
  _categorize_hand HIGH_CARD (map card ["7h"; "6h"]) (map card ["5h"; "2h"; "9c"])
  = Ok AIR.
Proof. split; by vm_compute. Qed.

(** Six seats, the agent three seats after the big blind. *)
Example three_seats_after_big_blind :
  _get_position (mk (Some 4) [] false [1; 2; 3; 4; 5; 6])
    (mkRoundState "Preflop" 0 ∅ 0 0 0 [] ∅ 1) = Ok LATE.
Proof. by vm_compute. Qed.

(** Pocket aces on A K 2: the best five cards exist and are found. *)
Lemma evaluate_best_witness :
  ∃ best,
    evaluate (map card ["Ah"; "Ad"]) (map card ["Ac"; "Kd"; "2s"]) = Ok best ∧
    (∀ five,
       five ⊆+ map card ["Ah"; "Ad"] ++ map card ["Ac"; "Kd"; "2s"] →
       length five = 5%nat →
       ∃ s, _evaluate_five_card_hand five = Ok s ∧ score_le s best) ∧
    (∃ five,
       five ⊆+ map card ["Ah"; "Ad"] ++ map card ["Ac"; "Kd"; "2s"] ∧
       length five = 5%nat ∧ _evaluate_five_card_hand five = Ok best).
Proof.
  apply (evaluate_best (map card ["Ah"; "Ad"]) (map card ["Ac"; "Kd"; "2s"])).
  - reflexivity.
  - vm_compute. lia.
Defined.

(** The wheel in four suits. *)
Lemma wheel_score_witness :
  _evaluate_five_card_hand (map card ["Ah"; "2d"; "3c"; "4d"; "5s"])
  = Ok (STRAIGHT, [5; 4; 3; 2; 1]).
Proof.
  refine (proj1 (wheel_score (map card ["Ah"; "2d"; "3c"; "4d"; "5s"]) _ _) _).
  - reflexivity.
  - apply (bool_decide_unpack _). vm_compute. exact I.
  - intros [s Hs]. apply Forall_cons in Hs as [<- Hs].
    apply Forall_cons in Hs as [Hd _]. vm_compute in Hd. discriminate.
Defined.

(** A four-flush with no made hand on the turn. *)
Lemma categorize_full_board_witness :
  _categorize_hand HIGH_CARD (map card ["7h"; "6h"]) (map card ["5h"; "2h"; "9c"; "Kd"])
  = Ok AIR.
Proof.
  refine (proj2 (proj2 (categorize_full_board HIGH_CARD (map card ["7h"; "6h"])
                          (map card ["5h"; "2h"; "9c"; "Kd"]) _)) _).
  - vm_compute. lia.
  - reflexivity.
Defined.

(** A set of aces facing a bet of 50 into 100 raises to 200. *)
Lemma get_action_facing_bet_witness :
  ∃ equity,
    (MONSTER = STRONG_DRAW →
     _estimate_draw_equity (agent ["Ah"; "Ad"]) (map card ["Ac"; "Kd"; "2s"]) = Ok equity) ∧
    get_action (agent ["Ah"; "Ad"]) flop_bet 0 =
    Ok (facing_bet_decision flop_bet MONSTER equity 50, agent ["Ah"; "Ad"]).
Proof.
  apply (get_action_facing_bet (agent ["Ah"; "Ad"]) flop_bet 0
           (map card ["Ac"; "Kd"; "2s"]) THREE_OF_A_KIND [14; 13; 2] MONSTER).
  - discriminate.
  - reflexivity.
  - split; vm_compute; intros H; discriminate H.
  - split; vm_compute; intros H; discriminate H.
  - split; vm_compute; intros H; discriminate H.
  - reflexivity.
  - vm_compute. reflexivity.
  - vm_compute. reflexivity.
Defined.

(** A four-flush on the flop: nine outs, two cards to come. *)
Lemma estimate_draw_equity_rule_witness :
  ∃ equity,
    _estimate_draw_equity (agent ["7h"; "6h"]) (map card ["5h"; "2h"; "9c"]) = Ok equity ∧
    (equity == rule_of_thumb_equity (hand (agent ["7h"; "6h"])) (map card ["5h"; "2h"; "9c"]))%Q ∧
    (hand (agent ["7h"; "6h"]) = [card "7h"; card "6h"] →
     map card ["5h"; "2h"; "9c"] = [card "5h"; card "2h"; card "9c"] →
     (equity == 36 # 100)%Q).
Proof.
  apply (estimate_draw_equity_rule (agent ["7h"; "6h"]) (map card ["5h"; "2h"; "9c"])).
  - reflexivity.
  - left. reflexivity.
Defined.

(** Pocket aces open for 2.5 times the minimum raise. *)
Lemma raise_amount_within_bounds_witness :
  min_raise preflop_unraised ≤ 50 ≤ max_raise preflop_unraised.
Proof.
  apply (raise_amount_within_bounds (agent ["Ah"; "Ad"]) preflop_unraised 0 50
           (set_aggressor (agent ["Ah"; "Ad"]))).
  - vm_compute. reflexivity.
  - discriminate.
Defined.

(** The call range of late position against a raise, for A K suited. *)
Lemma dash_tokens_inert_witness :
  (∀ r, r ∈ vs_raise_call (preflop_ranges LATE) → has_dash r = true →
        _is_in_range (agent ["Ah"; "Kh"]) [r] = Ok false) ∧
  _is_in_range (agent ["Ah"; "Kh"]) (vs_raise_call (preflop_ranges LATE)) =
    _is_in_range (agent ["Ah"; "Kh"])
      (filter (λ r, has_dash r = false) (vs_raise_call (preflop_ranges LATE))) ∧
  (_is_in_range (agent ["Ah"; "Kh"]) (vs_raise_call (preflop_ranges LATE)) = Ok true →
   ∃ r, r ∈ vs_raise_call (preflop_ranges LATE) ∧ has_dash r = false ∧
        _is_in_range (agent ["Ah"; "Kh"]) [r] = Ok true).
Proof.
  apply (dash_tokens_inert (agent ["Ah"; "Kh"]) (vs_raise_call (preflop_ranges LATE))).
  - reflexivity.
  - apply (bool_decide_unpack _). vm_compute. exact I.
Defined.
End examples.

(** * Further properties *)

(** ** Card text *)

Section card_text.

Lemma str_chars s : str (chars s) = s.
Proof. apply string_of_list_ascii_of_string. Qed.

Lemma str_init_snoc s c : str_init (s +:+ String c "") = s.
Proof.
  unfold str_init. rewrite chars_app. cbn [chars list_ascii_of_string].
  by rewrite removelast_last, str_chars.
Qed.

Lemma str_last_snoc s c : str_last (s +:+ String c "") = String c "".
Proof.
  unfold str_last. rewrite chars_app. cbn [chars list_ascii_of_string].
  by rewrite last_snoc.
Qed.

(** Whitespace is stripped from text that has none at its ends. *)
Lemma lstrip_id l : Forall (λ c, is_space c = false) l → lstrip l = l.
Proof. destruct 1 as [|c l Hc]; [done|]. cbn. by rewrite Hc. Qed.

Lemma strip_id l : Forall (λ c, is_space c = false) l → strip l = l.
Proof.
  intros Hl. unfold strip. rewrite (lstrip_id l Hl).
  rewrite lstrip_id by by apply Forall_reverse. apply reverse_involutive.
Qed.

(** The value of a string of decimal digits read after [acc]. *)
Lemma parse_digits_of_uint_acc d acc b :
  parse_digits (Z.pos acc) b (chars (NilEmpty.string_of_uint d)) =
  match d with
  | Decimal.Nil => if b then Some (Z.pos acc) else None
  | _ => Some (Z.pos (Pos.of_uint_acc d acc))
  end.
Proof.
  revert acc b. induction d; intros acc b; [done|..];
    cbn [NilEmpty.string_of_uint chars list_ascii_of_string parse_digits];
    (rewrite decide_False by done);
    match goal with
    | |- context [digit_val ?c] =>
        let v := eval vm_compute in (digit_val c) in change (digit_val c) with v
    end;
    cbv beta iota; cbn [Pos.of_uint_acc];
    match goal with
    | |- parse_digits ?z true _ = Some (Z.pos (Pos.of_uint_acc _ ?p)) =>
        replace z with (Z.pos p) by lia
    end;
    fold (chars (NilEmpty.string_of_uint d)); rewrite IHd; by destruct d.
Qed.

Lemma parse_digits_of_uint d b :
  parse_digits 0 b (chars (NilEmpty.string_of_uint d)) =
  match d with
  | Decimal.Nil => if b then Some 0 else None
  | _ => Some (Z.of_N (Pos.of_uint d))
  end.
Proof.
  revert b. induction d; intros b; [done|..];
    cbn [NilEmpty.string_of_uint chars list_ascii_of_string parse_digits];
    (rewrite decide_False by done);
    match goal with
    | |- context [digit_val ?c] =>
        let v := eval vm_compute in (digit_val c) in change (digit_val c) with v
    end;
    cbv beta iota; cbn [Pos.of_uint];
    fold (chars (NilEmpty.string_of_uint d)).
  - change (10 * 0 + 0) with 0. rewrite IHd. by destruct d.
  - change (10 * 0 + 1) with (Z.pos 1). rewrite parse_digits_of_uint_acc. by destruct d.
  - change (10 * 0 + 2) with (Z.pos 2). rewrite parse_digits_of_uint_acc. by destruct d.
  - change (10 * 0 + 3) with (Z.pos 3). rewrite parse_digits_of_uint_acc. by destruct d.
  - change (10 * 0 + 4) with (Z.pos 4). rewrite parse_digits_of_uint_acc. by destruct d.
  - change (10 * 0 + 5) with (Z.pos 5). rewrite parse_digits_of_uint_acc. by destruct d.
  - change (10 * 0 + 6) with (Z.pos 6). rewrite parse_digits_of_uint_acc. by destruct d.
  - change (10 * 0 + 7) with (Z.pos 7). rewrite parse_digits_of_uint_acc. by destruct d.
  - change (10 * 0 + 8) with (Z.pos 8). rewrite parse_digits_of_uint_acc. by destruct d.
  - change (10 * 0 + 9) with (Z.pos 9). rewrite parse_digits_of_uint_acc. by destruct d.
Qed.

Lemma string_of_uint_no_space d :
  Forall (λ c, is_space c = false) (chars (NilEmpty.string_of_uint d)).
Proof. induction d; cbn; by constructor. Qed.

Lemma to_uint_not_Nil p : Pos.to_uint p ≠ Decimal.Nil.
Proof.
  intros Hnil. pose proof (DecimalPos.Unsigned.of_to p) as Hp.
  rewrite Hnil in Hp. discriminate.
Qed.

Lemma parse_unsigned d :
  d ≠ Decimal.Nil →
  match chars (NilEmpty.string_of_uint d) with
  | c :: l' =>
      if decide (c = "-"%char) then Z.opp <$> parse_digits 0 false l'
      else if decide (c = "+"%char) then parse_digits 0 false l'
      else parse_digits 0 false (chars (NilEmpty.string_of_uint d))
  | [] => None
  end = Some (Z.of_N (Pos.of_uint d)).
Proof.
  intros Hnil. pose proof (parse_digits_of_uint d false) as Hparse.
  destruct d; [done|..];
    cbn [NilEmpty.string_of_uint chars list_ascii_of_string] in *;
    by rewrite !decide_False by done.
Qed.

(** [int(str(n))] is [n]. *)
Lemma int_str_str_int n : int_str (str_int n) = Ok n.
Proof.
  unfold int_str, str_int, NilZero.string_of_int, NilZero.string_of_uint.
  destruct n as [|p|p]; [done|..]; cbn [Z.to_int];
    pose proof (to_uint_not_Nil p) as Hnil;
    pose proof (DecimalPos.Unsigned.of_to p) as Hp.
  - replace (match Pos.to_uint p with
             | Decimal.Nil => "0"
             | _ => NilEmpty.string_of_uint (Pos.to_uint p)
             end) with (NilEmpty.string_of_uint (Pos.to_uint p))
      by by destruct (Pos.to_uint p).
    rewrite strip_id by apply string_of_uint_no_space.
    by rewrite parse_unsigned, Hp.
  - assert (chars (String "-" (match Pos.to_uint p with
                               | Decimal.Nil => "0"
                               | _ => NilEmpty.string_of_uint (Pos.to_uint p)
                               end))
            = "-"%char :: chars (NilEmpty.string_of_uint (Pos.to_uint p))) as ->.
    { by destruct (Pos.to_uint p). }
    rewrite strip_id by (constructor; [done|apply string_of_uint_no_space]).
    rewrite decide_True by done. rewrite parse_digits_of_uint.
    destruct (Pos.to_uint p); [done|..]; by rewrite Hp.
Qed.

(** The rank symbols are no integers. *)
Lemma rank_map_str_int n : rank_map (str_int n) = None.
Proof.
  pose proof (int_str_str_int n) as Hn. unfold rank_map.
  repeat (case_decide as Heq;
          [rewrite Heq in Hn; vm_compute in Hn; discriminate Hn|clear Heq]).
  done.
Qed.

Lemma rank_map_rank_str r : 
  match rank_map (GTOPlayer.rank_str r) with
  | Some n => Ok n
  | None => int_str (GTOPlayer.rank_str r)
  end = Ok r.
Proof.
  unfold GTOPlayer.rank_str, rank_map_rev.
  repeat (case_decide as Heq; [by rewrite Heq|clear Heq]).
  cbn [default]. by rewrite rank_map_str_int, int_str_str_int.
Qed.

(** The text of a sentinel is empty, and reads as the sentinel with the
    empty suit. *)
Lemma Card_repr_sentinel c :
  rank c = 0 → Card_repr c = "" ∧ Card_init (Card_repr c) = Ok (mkCard 0 "").
Proof. intros Hr. unfold Card_repr. by rewrite decide_True. Qed.

(** X1: a card that is no sentinel and has a one-character suit is read
    back from its text. *)
Theorem Card_repr_round_trip c :
  rank c ≠ 0 → String.length (suit c) = 1%nat →
  Card_init (Card_repr c) = Ok c.
Proof.
  destruct c as [r s]. cbn [rank suit].
  intros Hr Hs. destruct s as [|ch [|??]]; try done.
  unfold Card_repr, Card_init. cbn [rank suit].
  rewrite (decide_False (P := r = 0)) by done.
  fold (GTOPlayer.rank_str r).
  rewrite decide_False by (destruct (GTOPlayer.rank_str r); discriminate).
  rewrite str_init_snoc, str_last_snoc.
  by rewrite rank_map_rank_str.
Qed.
End card_text.

(** ** The evaluator on any number of cards *)

Section evaluate_more.
Import HandEvaluator Spec.

(** The ranks of the sorted cards are the sorted ranks. *)
Lemma map_rank_sort_cards cards :
  map rank (sort_cards cards) = sorted_desc (map rank cards).
Proof.
  assert (AntiSymm eq (flip Z.le)) as Hanti by (intros x y; unfold flip; lia).
  apply (Sorted_unique (flip Z.le)).
  - apply sort_cards_ranks_sorted.
  - apply Sorted_desc_sorted.
  - rewrite sorted_desc_Permutation. apply fmap_Permutation, sort_cards_Permutation.
Qed.

(** With five cards or more, the result is the greatest score of five of
    the cards. *)
Lemma evaluate_five_or_more hand community :
  (5 ≤ length (hand ++ community))%nat →
  ∃ best,
    evaluate hand community = Ok best ∧
    well_formed best ∧
    (∀ five, five ⊆+ hand ++ community → length five = 5%nat →
       ∃ s, _evaluate_five_card_hand five = Ok s ∧ score_le s best) ∧
    (∃ five, five ⊆+ hand ++ community ∧ length five = 5%nat ∧
       _evaluate_five_card_hand five = Ok best).
Proof.
  intros Hlen. unfold evaluate.
  set (all_cards := sort_cards (hand ++ community)).
  assert (all_cards ≡ₚ hand ++ community) as Hperm by apply sort_cards_Permutation.
  assert (5 ≤ length all_cards)%nat as Hlen' by by rewrite Hperm.
  destruct (Nat.ltb_spec (length all_cards) 5) as [|_]; [lia|].
  set (init := (HIGH_CARD, take 5 (map rank all_cards))).
  assert (well_formed init) as Hinit.
  { unfold well_formed, init. cbn. rewrite length_take, length_map. lia. }
  assert (Forall (λ combo, length combo = 5%nat) (combinations all_cards 5)) as Hall.
  { apply Forall_forall. by intros c [_ ?]%elem_of_combinations. }
  destruct (evaluate_loop_spec _ init Hinit Hall)
    as (final & Hfinal & Hwf & Hle & Hge & Hach).
  exists final. split_and!; [done|done| |].
  - intros five Hsub Hfive. rewrite <-Hperm in Hsub.
    apply submseteq_sublist_r in Hsub as (combo & Hp & Hcombo).
    destruct (Hge combo) as (s & Hs & Hsle).
    { apply elem_of_combinations. split; [done|]. by rewrite <-Hp. }
    exists s. split; [|done]. by rewrite (evaluate_five_card_hand_perm _ _ Hp).
  - assert (take 5 all_cards ∈ combinations all_cards 5) as Hfirst.
    { apply elem_of_combinations. split; [apply sublist_take|].
      rewrite length_take. lia. }
    assert (∃ combo, combo ∈ combinations all_cards 5 ∧
                     _evaluate_five_card_hand combo = Ok final)
      as (combo & [Hsub Hc5]%elem_of_combinations & Hcombo).
    { destruct Hach as [->|?]; [|done]. exists (take 5 all_cards). split; [done|].
      destruct (Hge _ Hfirst) as (s & Hs & Hsle). rewrite Hs. f_equal.
      apply score_le_antisym; [done|].
      destruct (evaluate_five_card_hand_well_formed (take 5 all_cards))
        as (s' & Hs' & _ & Hhigh); [rewrite length_take; lia|].
      rewrite Hs in Hs'. injection Hs' as <-.
      apply initial_score_le; [apply sort_cards_ranks_sorted|done..]. }
    exists combo. split_and!; [|done..].
    rewrite <-Hperm. by apply sublist_submseteq.
Qed.

(** With fewer than five cards, the result is the one of the preliminary
    evaluator, which looks at the ranks only. *)
Lemma evaluate_preliminary_ranks cards :
  _evaluate_preliminary cards =
  let ranks := map rank cards in
  (if bool_decide (4 ∈ values (Counter ranks)) then FOUR_OF_A_KIND
   else if bool_decide (3 ∈ values (Counter ranks)) then THREE_OF_A_KIND
   else if bool_decide (2 ∈ values (Counter ranks)) then PAIR
   else HIGH_CARD, sorted_desc ranks).
Proof.
  unfold _evaluate_preliminary. rewrite list_count_ge_1. cbv zeta.
  by repeat case_bool_decide.
Qed.

Lemma elem_of_values_Counter_perm (l1 l2 : list Z) n :
  l1 ≡ₚ l2 → n ∈ values (Counter l1) ↔ n ∈ values (Counter l2).
Proof.
  intros Hp. rewrite !elem_of_values_Counter.
  split; intros (k & Hk & ->); exists k;
    rewrite (occurrences_perm _ _ k Hp); (split; [|done]).
  - by rewrite <-Hp.
  - by rewrite Hp.
Qed.

Lemma evaluate_fewer_than_five hand community :
  (length (hand ++ community) < 5)%nat →
  evaluate hand community = Ok (_evaluate_preliminary (hand ++ community)).
Proof.
  intros Hlen. unfold evaluate.
  pose proof (sort_cards_Permutation (hand ++ community)) as Hperm.
  destruct (Nat.ltb_spec (length (sort_cards (hand ++ community))) 5) as [_|Hge];
    [|rewrite Hperm in Hge; lia].
  f_equal. rewrite !evaluate_preliminary_ranks. cbv zeta.
  assert (map rank (sort_cards (hand ++ community)) ≡ₚ map rank (hand ++ community))
    as Hranks by by apply fmap_Permutation.
  rewrite (sorted_desc_perm _ _ Hranks).
  by rewrite !(bool_decide_ext _ _ (elem_of_values_Counter_perm _ _ _ Hranks)).
Qed.

Lemma evaluate_preliminary_perm cards1 cards2 :
  cards1 ≡ₚ cards2 → _evaluate_preliminary cards1 = _evaluate_preliminary cards2.
Proof.
  intros Hp. rewrite !evaluate_preliminary_ranks. cbv zeta.
  assert (map rank cards1 ≡ₚ map rank cards2) as Hranks by by apply fmap_Permutation.
  rewrite (sorted_desc_perm _ _ Hranks).
  by rewrite !(bool_decide_ext _ _ (elem_of_values_Counter_perm _ _ _ Hranks)).
Qed.

(** X2: [evaluate] never raises, and its result depends on the cards
    only, not on their order nor on which of them are hole cards. *)
Theorem evaluate_cards_only hand1 community1 hand2 community2 :
  hand1 ++ community1 ≡ₚ hand2 ++ community2 →
  ∃ s, evaluate hand1 community1 = Ok s ∧ evaluate hand2 community2 = Ok s.
Proof.
  intros Hperm. pose proof (Permutation_length Hperm) as Hlen.
  destruct (decide (length (hand1 ++ community1) < 5)%nat) as [Hlt|Hge].
  - rewrite !evaluate_fewer_than_five by lia. eexists. split; [done|].
    f_equal. symmetry. by apply evaluate_preliminary_perm.
  - destruct (evaluate_five_or_more hand1 community1) as (s1 & Hs1 & _ & Hge1 & Hach1);
      [lia|].
    destruct (evaluate_five_or_more hand2 community2) as (s2 & Hs2 & _ & Hge2 & Hach2);
      [lia|].
    exists s1. split; [done|]. rewrite Hs2. f_equal.
    destruct Hach1 as (five1 & Hsub1 & Hl1 & Hf1).
    destruct Hach2 as (five2 & Hsub2 & Hl2 & Hf2).
    apply score_le_antisym.
    + destruct (Hge1 five2) as (s & Hs & Hle); [by rewrite Hperm|done|].
      rewrite Hf2 in Hs. by injection Hs as <-.
    + destruct (Hge2 five1) as (s & Hs & Hle); [by rewrite <-Hperm|done|].
      rewrite Hf1 in Hs. by injection Hs as <-.
Qed.

(** X3: on exactly five cards the result is the score of these five. *)
Theorem evaluate_exactly_five hand community :
  length (hand ++ community) = 5%nat →
  evaluate hand community = _evaluate_five_card_hand (hand ++ community).
Proof.
  intros Hlen.
  destruct (evaluate_five_or_more hand community) as (s & Hs & _ & _ & Hach); [lia|].
  destruct Hach as (five & Hsub & Hl & Hf). rewrite Hs, <-Hf.
  apply evaluate_five_card_hand_perm.
  apply submseteq_length_Permutation; [done|lia].
Qed.

(** X4: once five cards are known, further cards never lower the
    score. *)
Theorem evaluate_more_cards hand community more s :
  (5 ≤ length (hand ++ community))%nat →
  evaluate hand community = Ok s →
  ∃ s', evaluate hand (community ++ more) = Ok s' ∧ score_le s s'.
Proof.
  intros Hlen Hs.
  destruct (evaluate_five_or_more hand community) as (s0 & Hs0 & _ & _ & Hach); [done|].
  rewrite Hs in Hs0. injection Hs0 as <-.
  destruct (evaluate_five_or_more hand (community ++ more))
    as (s' & Hs' & _ & Hge & _); [rewrite !length_app in *; lia|].
  exists s'. split; [done|].
  destruct Hach as (five & Hsub & Hl & Hf).
  destruct (Hge five) as (s1 & Hs1 & Hle); [|done|].
  - etrans; [done|]. rewrite (app_assoc hand community more).
    apply submseteq_inserts_r. done.
  - rewrite Hf in Hs1. by injection Hs1 as <-.
Qed.
End evaluate_more.

(** ** Fewer than five cards *)

Section preliminary.
Import HandEvaluator Spec.

Lemma occurrences_le_length {K} `{EqDecision K} (l : list K) k :
  occurrences l k ≤ Z.of_nat (length l).
Proof.
  induction l as [|x l IH]; [done|]. rewrite occurrences_cons. cbn [length].
  destruct (decide (x = k)); lia.
Qed.

Lemma NoDup_occurrences {K} `{EqDecision K} (l : list K) :
  NoDup l ↔ ∀ k, occurrences l k ≤ 1.
Proof.
  induction l as [|x l IH].
  - split; [by intros _ k|constructor].
  - rewrite NoDup_cons, IH. split.
    + intros [Hx Hl] k. rewrite occurrences_cons. specialize (Hl k).
      destruct (decide (x = k)) as [->|]; [|lia].
      pose proof (occurrences_pos l k). pose proof (occurrences_nonneg l k).
      assert (¬ 0 < occurrences l k) by tauto. lia.
    + intros Hall. split.
      * intros Hx%occurrences_pos. specialize (Hall x).
        rewrite occurrences_cons, decide_True in Hall by done. lia.
      * intros k. specialize (Hall k). rewrite occurrences_cons in Hall.
        destruct (decide (x = k)); lia.
Qed.

Lemma multiplicity_in_Counter (l : list Z) n :
  0 < n → n ∈ values (Counter l) ↔ ∃ k, occurrences l k = n.
Proof.
  intros Hn. rewrite elem_of_values_Counter. split.
  - intros (k & _ & ->). by exists k.
  - intros (k & <-). exists k. split; [|done]. by apply occurrences_pos.
Qed.

(** X5: on fewer than five cards the kickers are all the ranks in
    decreasing order, and the hand rank is FOUR_OF_A_KIND, THREE_OF_A_KIND
    or PAIR when some rank is held four times, three times or twice, and
    HIGH_CARD when all ranks differ; two pairs are a PAIR. *)
Theorem evaluate_fewer_than_five_cards hand community :
  (length (hand ++ community) < 5)%nat →
  let ranks := map rank (hand ++ community) in
  ∃ r,
    evaluate hand community = Ok (r, sorted_desc ranks) ∧
    (r = FOUR_OF_A_KIND ↔ ∃ k, occurrences ranks k = 4) ∧
    (r = THREE_OF_A_KIND ↔ ∃ k, occurrences ranks k = 3) ∧
    (r = PAIR ↔ ∃ k, occurrences ranks k = 2) ∧
    (r = HIGH_CARD ↔ NoDup ranks).
Proof.
  intros Hlen ranks. rewrite evaluate_fewer_than_five by done.
  rewrite evaluate_preliminary_ranks. cbv zeta. fold ranks.
  assert (Z.of_nat (length ranks) < 5) as Hlen'
    by (unfold ranks; rewrite length_map; lia).
  assert (∀ m n k1 k2, occurrences ranks k1 = m → occurrences ranks k2 = n →
                       m ≠ n → 5 ≤ m + n → False) as Htwo.
  { intros m n k1 k2 H1 H2 Hne Hsum.
    destruct (decide (k1 = k2)) as [->|Hk]; [congruence|].
    pose proof (occurrences_two ranks k1 k2 Hk). lia. }
  assert (∀ k, occurrences ranks k ≤ 4) as Hmax
    by (intros k; pose proof (occurrences_le_length ranks k); lia).
  pose proof (multiplicity_in_Counter ranks 4 eq_refl) as M4.
  pose proof (multiplicity_in_Counter ranks 3 eq_refl) as M3.
  pose proof (multiplicity_in_Counter ranks 2 eq_refl) as M2.
  case_bool_decide as H4; [|case_bool_decide as H3; [|case_bool_decide as H2]];
    try rewrite M4 in H4; try rewrite M3 in H3; try rewrite M2 in H2;
    eexists; (split; [reflexivity|]); rewrite NoDup_occurrences.
  - destruct H4 as [k4 H4]. split_and!; split; try done; try by eauto.
    + intros [k H3]. destruct (Htwo 4 3 k4 k H4 H3); lia.
    + intros [k H2]. destruct (Htwo 4 2 k4 k H4 H2); lia.
    + intros Hall. specialize (Hall k4). lia.
  - destruct H3 as [k3 H3]. split_and!; split; try done; try by eauto.
    + intros [k H2]. destruct (Htwo 3 2 k3 k H3 H2); lia.
    + intros Hall. specialize (Hall k3). lia.
  - destruct H2 as [k2 H2]. split_and!; split; try done; try by eauto.
    intros Hall. specialize (Hall k2). lia.
  - split_and!; split; try done.
    intros _ k. pose proof (Hmax k). pose proof (occurrences_nonneg ranks k).
    destruct (decide (occurrences ranks k ≤ 1)) as [|Hgt]; [done|].
    assert (occurrences ranks k = 2 ∨ occurrences ranks k = 3 ∨ occurrences ranks k = 4)
      as [?|[?|?]] by lia; exfalso; eauto.
Qed.
End preliminary.

(** ** The five-card scorer, rank by rank *)

Section scorer.
Import HandEvaluator Spec More.

Lemma sorted_five (l : list Z) :
  length l = 5%nat → Sorted (flip Z.le) l →
  ∃ a b c d e, l = [a; b; c; d; e] ∧ b ≤ a ∧ c ≤ b ∧ d ≤ c ∧ e ≤ d.
Proof.
  intros Hlen Hs. destruct l as [|a [|b [|c [|d [|e [|??]]]]]]; try done.
  exists a, b, c, d, e.
  repeat match goal with
  | H : Sorted _ (_ :: _) |- _ => apply Sorted_inv in H as [? ?]
  | H : HdRel _ _ (_ :: _) |- _ => apply HdRel_inv in H; unfold flip in H
  end.
  done.
Qed.

Lemma NoDup_five (a b c d e : Z) :
  b ≤ a → c ≤ b → d ≤ c → e ≤ d →
  NoDup [a; b; c; d; e] ↔ b < a ∧ c < b ∧ d < c ∧ e < d.
Proof.
  intros. rewrite !NoDup_cons, !not_elem_of_cons, !elem_of_nil. split.
  - intros. split_and!; lia.
  - intros. split_and!; try lia; constructor.
Qed.

(** Five cards have five distinct ranks when their set of ranks has five
    elements. *)
Lemma unique_ranks_five (l : list Z) :
  length l = 5%nat →
  (5 ≤ length (sorted_asc (elements (list_to_set l : gset Z))))%nat ↔ NoDup l.
Proof.
  intros Hlen. rewrite sorted_asc_Permutation. split.
  - intros Hu.
    assert (elements (list_to_set l : gset Z) ⊆+ l) as Hsub.
    { apply NoDup_submseteq; [apply NoDup_elements|].
      intros x. by rewrite elem_of_elements, elem_of_list_to_set. }
    apply submseteq_length_Permutation in Hsub; [|lia].
    rewrite <-Hsub. apply NoDup_elements.
  - intros Hnd. by rewrite (elements_list_to_set l Hnd), Hlen.
Qed.

(** What the straight detection finds on five sorted ranks. *)
Lemma straight_detection a b c d e :
  b ≤ a → c ≤ b → d ≤ c → e ≤ d →
  let ranks := [a; b; c; d; e] in
  let unique_ranks := sorted_asc (elements (list_to_set ranks : gset Z)) in
  ∃ is_straight : bool,
    (if bool_decide ((list_to_set ranks : gset Z) = {[14; 2; 3; 4; 5]})
     then (true, [5; 4; 3; 2; 1])
     else if (5 <=? length unique_ranks)%nat
     then (existsb (λ d, - d =? -4) (window_spans 4 unique_ranks), ranks)
     else (false, ranks))
    = (is_straight, if bool_decide (ranks = wheel) then [5; 4; 3; 2; 1] else ranks) ∧
    (is_straight = true ↔ ranks = wheel ∨ consecutive ranks).
Proof.
  intros Hab Hbc Hcd Hde ranks unique_ranks.
  assert (Sorted (flip Z.le) ranks) as Hsorted by (repeat constructor; done).
  assert ((list_to_set ranks : gset Z) = {[14; 2; 3; 4; 5]} ↔ ranks = wheel) as Hwheel.
  { split.
    - intros Hset. rewrite <-(sorted_desc_id ranks Hsorted).
      rewrite (sorted_desc_perm ranks [14; 2; 3; 4; 5]); [done|].
      apply ranks_of_five; [done|done| |].
      + apply (bool_decide_unpack _). by vm_compute.
      + rewrite Hset. apply (bool_decide_unpack _). by vm_compute.
    - intros ->. apply (bool_decide_unpack _). by vm_compute. }
  rewrite (bool_decide_ext _ _ Hwheel).
  case_bool_decide as Hw.
  { exists true. split; [done|]. split; [by left|done]. }
  assert (consecutive ranks ↔ b = a - 1 ∧ c = a - 2 ∧ d = a - 3 ∧ e = a - 4) as Hcons.
  { unfold consecutive, ranks. split.
    - intros (h & [= -> -> -> -> ->]). lia.
    - intros (-> & -> & -> & ->). by exists a. }
  destruct (Nat.leb_spec 5 (length unique_ranks)) as [Hfive|Hfew].
  - apply (unique_ranks_five ranks eq_refl) in Hfive as Hnd.
    assert (unique_ranks = [e; d; c; b; a]) as ->.
    { assert (AntiSymm eq Z.le) as Hanti by (intros x y; lia).
      apply (Sorted_unique Z.le).
      - apply Sorted_asc_sorted.
      - repeat constructor; done.
      - unfold unique_ranks. rewrite sorted_asc_Permutation, (elements_list_to_set _ Hnd).
        symmetry. apply (reverse_Permutation [a; b; c; d; e]). }
    apply (NoDup_five a b c d e) in Hnd; [|done..].
    eexists. split; [reflexivity|].
    cbn [window_spans drop zip_with existsb]. rewrite orb_false_r.
    destruct (Z.eqb_spec (- (a - e)) (-4)) as [Heq|Hne].
    + split; [|done]. intros _. right. apply Hcons. lia.
    + split; [done|]. intros [?|?%Hcons]; [done|lia].
  - exists false. split; [done|]. split; [done|]. intros [?|Hc%Hcons]; [done|].
    assert (NoDup ranks) as Hnd by (apply NoDup_five; lia).
    apply (unique_ranks_five ranks eq_refl) in Hnd. unfold unique_ranks in Hfew. lia.
Qed.
(** *** A view of the scorer on five cards *)

Lemma counter_add_fresh {K} `{EqDecision K} (k : K) (c : list (K * Z)) :
  k ∉ keys c → counter_add k c = c ++ [(k, 1)].
Proof.
  unfold keys. induction c as [|[k' n] c IH]; [done|].
  rewrite fmap_cons, not_elem_of_cons. cbn [fst counter_add]. intros [Hne Hk].
  rewrite decide_False by done. by rewrite IH.
Qed.

Lemma values_Counter_NoDup {K} `{EqDecision K} (l : list K) :
  NoDup l → values (Counter l) = (λ _, 1) <$> l.
Proof.
  induction l as [|x l IH] using rev_ind; [done|].
  intros [Hl [Hx _]]%NoDup_app. rewrite Counter_snoc, counter_add_fresh.
  - unfold values in *. rewrite !fmap_app, IH by done. done.
  - rewrite elem_of_keys_Counter. intros Hin. apply (Hx x Hin), list_elem_of_here.
Qed.

(** The score of five cards in terms of what the scorer finds: whether
    the ranks are a straight, whether the suits are one, and the
    multiplicities [c0 :: rest] of the ranks in decreasing order. *)
Lemma scorer_view hand :
  length hand = 5%nat →
  let ranks := sorted_desc (map rank hand) in
  let rank_counts := Counter ranks in
  let main_ranks :=
    sorted_by (λ y x, main_rank_lt rank_counts x y) (keys rank_counts) in
  let straight_kickers := if bool_decide (ranks = wheel) then [5; 4; 3; 2; 1] else ranks in
  ∃ (is_straight is_flush : bool) (c0 : Z) (rest : list Z),
    (is_straight = true ↔ ranks = wheel ∨ consecutive ranks) ∧
    (is_flush = true ↔ same_suit hand) ∧
    sorted_desc (values rank_counts) = c0 :: rest ∧
    Forall (λ n, 1 ≤ n) (c0 :: rest) ∧
    foldr Z.add 0 (c0 :: rest) = 5 ∧
    Sorted (flip Z.le) (c0 :: rest) ∧
    _evaluate_five_card_hand hand =
    Ok (if is_straight && is_flush then (STRAIGHT_FLUSH, straight_kickers)
        else if c0 =? 4 then (FOUR_OF_A_KIND, main_ranks)
        else if bool_decide (c0 :: rest = [3; 2]) then (FULL_HOUSE, main_ranks)
        else if is_flush then (FLUSH, straight_kickers)
        else if is_straight then (STRAIGHT, straight_kickers)
        else if c0 =? 3 then (THREE_OF_A_KIND, main_ranks)
        else if bool_decide (c0 :: rest = [2; 2; 1]) then (TWO_PAIR, main_ranks)
        else if c0 =? 2 then (PAIR, main_ranks)
        else (HIGH_CARD, straight_kickers)).
Proof.
  intros Hlen ranks rank_counts main_ranks straight_kickers.
  unfold _evaluate_five_card_hand. fold ranks. fold rank_counts. fold main_ranks.
  assert (length ranks = 5%nat) as Hranks
    by (unfold ranks; by rewrite sorted_desc_Permutation, length_map).
  destruct (sorted_five ranks Hranks (Sorted_desc_sorted _))
    as (a & b & c & d & e & Heq & Hab & Hbc & Hcd & Hde).
  destruct (straight_detection a b c d e Hab Hbc Hcd Hde)
    as (is_straight & Hdetect & Hstraight).
  cbv zeta in Hdetect. rewrite <-Heq in Hdetect, Hstraight. rewrite Hdetect.
  set (counts := sorted_desc (values rank_counts)).
  assert (Forall (λ n, 1 ≤ n) counts) as Hpos.
  { unfold counts. rewrite sorted_desc_Permutation. apply values_Counter_pos. }
  assert (foldr Z.add 0 counts = 5) as Hsum.
  { unfold counts. rewrite (Zsum_perm _ _ (sorted_desc_Permutation _)).
    unfold rank_counts. by rewrite values_Counter_sum, Hranks. }
  pose proof (Sorted_desc_sorted (values rank_counts)) as Hsorted. fold counts in Hsorted.
  destruct counts as [|c0 rest] eqn:Hcounts; [done|].
  exists is_straight,
    (bool_decide (size (list_to_set (map suit hand) : gset string) = 1%nat)), c0, rest.
  split_and!; [done| |done..|].
  - rewrite bool_decide_eq_true. apply is_flush_same_suit. by destruct hand.
  - fold straight_kickers.
    cbn [getitem lookup list_lookup mbind result_bind].
    by repeat (destruct (_ && _) || destruct (_ =? _) || case_bool_decide
               || destruct is_straight || destruct (bool_decide _)).
Qed.
(** A straight has five distinct ranks, each held once. *)
Lemma straight_counts ranks c0 rest :
  ranks = wheel ∨ consecutive ranks →
  sorted_desc (values (Counter ranks)) = c0 :: rest →
  c0 = 1 ∧ rest = [1; 1; 1; 1].
Proof.
  intros Hs Hcounts.
  assert (NoDup ranks ∧ length ranks = 5%nat) as [Hnd Hlen].
  { destruct Hs as [->|[h ->]].
    - split; [|done]. apply (bool_decide_unpack _). by vm_compute.
    - split; [|done]. apply NoDup_five; lia. }
  rewrite (values_Counter_NoDup ranks Hnd) in Hcounts.
  destruct ranks as [|? [|? [|? [|? [|? [|??]]]]]]; try done.
  vm_compute in Hcounts. by injection Hcounts as <- <-.
Qed.

(** X6: five cards score STRAIGHT or STRAIGHT_FLUSH exactly when their
    ranks follow each other or are those of the wheel; the kickers are
    then the ranks in decreasing order, 5 4 3 2 1 for the wheel. *)
Theorem straight_exactly hand r kickers :
  length hand = 5%nat →
  _evaluate_five_card_hand hand = Ok (r, kickers) →
  let ranks := sorted_desc (map rank hand) in
  (r = STRAIGHT ∨ r = STRAIGHT_FLUSH ↔ ranks = wheel ∨ consecutive ranks) ∧
  (r = STRAIGHT ∨ r = STRAIGHT_FLUSH →
   kickers = if bool_decide (ranks = wheel) then [5; 4; 3; 2; 1] else ranks).
Proof.
  intros Hlen Hscore ranks.
  destruct (scorer_view hand Hlen)
    as (is_straight & is_flush & c0 & rest & Hstraight & _ & Hcounts & _ & _ & _ & Hview).
  fold ranks in Hstraight, Hcounts, Hview.
  rewrite Hscore in Hview. injection Hview as Hview. rewrite <-Hstraight.
  destruct is_straight.
  - destruct (straight_counts ranks c0 rest) as [-> ->]; [by apply Hstraight|done|].
    destruct is_flush; cbn in Hview; injection Hview as -> ->; (split; [|done]);
      split; auto.
  - cbn [andb] in Hview.
    repeat (destruct (_ =? _) || destruct is_flush || case_bool_decide);
      injection Hview as -> ->; split; (split || idtac); intros; try done;
      match goal with H : _ ∨ _ |- _ => by destruct H end.
Qed.

(** X8: FLUSH and STRAIGHT_FLUSH are scored on cards of one suit only,
    cards of one suit never score below FLUSH, and the kickers of a FLUSH
    and of a HIGH_CARD are the ranks in decreasing order. *)
Theorem flush_exactly hand r kickers :
  length hand = 5%nat →
  _evaluate_five_card_hand hand = Ok (r, kickers) →
  (r = FLUSH ∨ r = STRAIGHT_FLUSH → same_suit hand) ∧
  (same_suit hand → HandRank_value FLUSH ≤ HandRank_value r) ∧
  (r = FLUSH ∨ r = HIGH_CARD → kickers = sorted_desc (map rank hand)).
Proof.
  intros Hlen Hscore.
  destruct (scorer_view hand Hlen)
    as (is_straight & is_flush & c0 & rest & Hstraight & Hflush & Hcounts & _ & _ & _ & Hview).
  rewrite Hscore in Hview. injection Hview as Hview. rewrite <-Hflush.
  assert (is_straight = false →
          (if bool_decide (sorted_desc (map rank hand) = wheel)
           then [5; 4; 3; 2; 1] else sorted_desc (map rank hand))
          = sorted_desc (map rank hand)) as Hkick.
  { intros ->. case_bool_decide as Hw; [|done].
    assert (false = true) by (apply Hstraight; by left). done. }
  destruct is_straight, is_flush; cbn [andb] in Hview;
    repeat (destruct (_ =? _) || case_bool_decide);
    injection Hview as -> ->; split_and!; intros; try done;
    try (by apply Hkick);
    match goal with H : _ ∨ _ |- _ => by destruct H end.
Qed.
(** *** Grouped kickers *)

Lemma map_counter_get_keys {K} `{EqDecision K} (c : list (K * Z)) :
  NoDup (keys c) → map (counter_get c) (keys c) = values c.
Proof.
  unfold keys, values. induction c as [|[k n] c IH]; [done|].
  rewrite !fmap_cons. cbn [fst snd map]. intros [Hk Hnd]%NoDup_cons.
  cbn [counter_get]. rewrite decide_True by done. f_equal.
  rewrite <-IH by done. apply map_ext_in. intros k' Hk'%list_elem_of_In.
  cbn [counter_get]. rewrite decide_False; [done|]. by intros ->.
Qed.

Lemma StronglySorted_NoDup {A} (R : relation A) l :
  StronglySorted R l → NoDup l → StronglySorted (λ x y, R x y ∧ x ≠ y) l.
Proof.
  induction 1 as [|x l Hs IH Hall]; [constructor|].
  intros [Hx Hnd]%NoDup_cons. constructor; [by apply IH|].
  rewrite Forall_forall in *. intros y Hy. split; [by apply Hall|]. by intros ->.
Qed.

Lemma StronglySorted_weaken {A} (R1 R2 : relation A) l :
  (∀ x y, R1 x y → R2 x y) → StronglySorted R1 l → StronglySorted R2 l.
Proof.
  intros HR. induction 1 as [|x l Hs IH Hall]; constructor; [done|].
  eapply Forall_impl; [done|]. intros y. apply HR.
Qed.

(** The grouped kickers list each distinct rank once, by decreasing
    multiplicity and then by decreasing rank; their multiplicities are the
    sorted multiplicities. *)
Lemma main_ranks_spec (ranks : list Z) :
  let rank_counts := Counter ranks in
  let main_ranks :=
    sorted_by (λ y x, main_rank_lt rank_counts x y) (keys rank_counts) in
  NoDup main_ranks ∧
  (∀ k, k ∈ main_ranks ↔ k ∈ ranks) ∧
  StronglySorted (before_in_kickers ranks) main_ranks ∧
  map (occurrences ranks) main_ranks = sorted_desc (values rank_counts).
Proof.
  intros rank_counts main_ranks.
  assert (main_ranks ≡ₚ keys rank_counts) as Hperm by apply sorted_by_Permutation.
  assert (NoDup main_ranks) as Hnd by (rewrite Hperm; apply NoDup_keys_Counter).
  set (R := λ x y : Z,
         occurrences ranks y < occurrences ranks x
         ∨ (occurrences ranks y = occurrences ranks x ∧ y ≤ x)).
  assert (Sorted R main_ranks) as Hsorted.
  { eapply Sorted_weaken; [|apply sorted_by_Sorted].
    - intros x y. unfold may_precede, main_rank_lt, R.
      unfold rank_counts. rewrite !counter_get_Counter. lia.
    - intros x y. unfold main_rank_lt. lia. }
  assert (StronglySorted R main_ranks) as Hstrong.
  { apply Sorted_StronglySorted; [|done]. intros x y z. unfold R. lia. }
  split_and!; [done| | |].
  - intros k. rewrite Hperm. apply elem_of_keys_Counter.
  - eapply StronglySorted_weaken; [|by apply StronglySorted_NoDup].
    intros x y [HR Hne]. unfold before_in_kickers, R in *. cbv beta in HR. lia.
  - assert (AntiSymm eq (flip Z.le)) as Hanti by (intros x y; unfold flip; lia).
    apply (Sorted_unique (flip Z.le)).
    + apply (Sorted_fmap _ R); [|done]. intros x y. unfold R, flip. lia.
    + apply Sorted_desc_sorted.
    + rewrite sorted_desc_Permutation, Hperm.
      assert (map (occurrences ranks) (keys rank_counts)
              = map (counter_get rank_counts) (keys rank_counts)) as ->.
      { apply map_ext. intros k. unfold rank_counts. by rewrite counter_get_Counter. }
      rewrite map_counter_get_keys; [done|]. apply NoDup_keys_Counter.
Qed.

(** The multiplicities that go with a count of four, three or two. *)
Lemma counts_values c0 rest :
  Forall (λ n, 1 ≤ n) (c0 :: rest) →
  foldr Z.add 0 (c0 :: rest) = 5 →
  Sorted (flip Z.le) (c0 :: rest) →
  (c0 = 4 → rest = [1]) ∧
  (c0 = 3 → c0 :: rest ≠ [3; 2] → rest = [1; 1]) ∧
  (c0 = 2 → c0 :: rest ≠ [2; 2; 1] → rest = [1; 1; 1]).
Proof.
  intros Hpos Hsum Hsorted.
  destruct (counts_shape c0 rest Hpos Hsum Hsorted) as (H4 & H3 & H2).
  apply Forall_cons in Hpos as [_ Hpos]. cbn [foldr] in Hsum.
  split_and!.
  - intros E. specialize (H4 E). destruct rest as [|x [|??]]; try done.
    apply Forall_cons in Hpos as [? _]. cbn in Hsum. f_equal. lia.
  - intros E Hne. specialize (H3 E Hne). destruct rest as [|x [|y [|??]]]; try done.
    apply Forall_cons in Hpos as [? Hpos]. apply Forall_cons in Hpos as [? _].
    cbn in Hsum. assert (x = 1) as -> by lia. assert (y = 1) as -> by lia. done.
  - intros E Hne. specialize (H2 E Hne).
    destruct rest as [|x [|y [|z [|??]]]]; try done.
    apply Forall_cons in Hpos as [? Hpos]. apply Forall_cons in Hpos as [? Hpos].
    apply Forall_cons in Hpos as [? _]. cbn in Hsum.
    assert (x = 1) as -> by lia. assert (y = 1) as -> by lia.
    assert (z = 1) as -> by lia. done.
Qed.

(** X7: the kickers of FOUR_OF_A_KIND, FULL_HOUSE, THREE_OF_A_KIND,
    TWO_PAIR and PAIR are the distinct ranks of the five cards, each once,
    held 4-1, 3-2, 3-1-1, 2-2-1 and 2-1-1-1 times in this order, ranks
    held equally often being in decreasing order. *)
Theorem grouped_kickers hand r kickers :
  length hand = 5%nat →
  _evaluate_five_card_hand hand = Ok (r, kickers) →
  grouped r →
  let ranks := map rank hand in
  map (occurrences ranks) kickers = multiplicities r ∧
  StronglySorted (before_in_kickers ranks) kickers ∧
  NoDup kickers ∧
  (∀ k, k ∈ kickers ↔ k ∈ ranks).
Proof.
  intros Hlen Hscore Hgrouped ranks.
  destruct (scorer_view hand Hlen)
    as (is_straight & is_flush & c0 & rest & _ & _ & Hcounts & Hpos & Hsum & Hsorted & Hview).
  destruct (main_ranks_spec (sorted_desc ranks)) as (Hnd & Hin & Hstrong & Hmap).
  fold ranks in Hview, Hcounts. cbv zeta in Hview.
  set (main_ranks := sorted_by _ _) in *. rewrite Hcounts in Hmap.
  destruct (counts_values c0 rest Hpos Hsum Hsorted) as (H4 & H3 & H2).
  assert (∀ k, occurrences (sorted_desc ranks) k = occurrences ranks k) as Hocc
    by (intros k; apply occurrences_perm, sorted_desc_Permutation).
  assert (kickers = main_ranks ∧ c0 :: rest = multiplicities r) as [-> Hmult].
  { rewrite Hscore in Hview. injection Hview as Hview.
    unfold grouped in Hgrouped. rewrite !elem_of_cons, elem_of_nil in Hgrouped.
    destruct (is_straight && is_flush); [injection Hview as -> _; by destruct Hgrouped as [?|[?|[?|[?|[?|[]]]]]]|].
    destruct (Z.eqb_spec c0 4) as [E4|_].
    { injection Hview as -> ->. by rewrite (H4 E4), E4. }
    case_bool_decide as E32; [by injection Hview as -> ->|].
    destruct is_flush; [injection Hview as -> _; by destruct Hgrouped as [?|[?|[?|[?|[?|[]]]]]]|].
    destruct is_straight; [injection Hview as -> _; by destruct Hgrouped as [?|[?|[?|[?|[?|[]]]]]]|].
    destruct (Z.eqb_spec c0 3) as [E3|_].
    { injection Hview as -> ->. by rewrite (H3 E3 E32), E3. }
    case_bool_decide as E221; [by injection Hview as -> ->|].
    destruct (Z.eqb_spec c0 2) as [E2|_].
    { injection Hview as -> ->. by rewrite (H2 E2 E221), E2. }
    injection Hview as -> _; by destruct Hgrouped as [?|[?|[?|[?|[?|[]]]]]]. }
  split_and!.
  - rewrite <-Hmult, <-Hmap. apply map_ext. intros k. by rewrite Hocc.
  - eapply StronglySorted_weaken; [|done].
    intros x y. unfold before_in_kickers. by rewrite !Hocc.
  - done.
  - intros k. rewrite Hin. by rewrite sorted_desc_Permutation.
Qed.
End scorer.

(** ** The categorizer after the evaluator *)

Section categorize_more.
Import HandEvaluator GTOPlayer Spec More.

Lemma occurrences_app {K} `{EqDecision K} (l1 l2 : list K) k :
  occurrences (l1 ++ l2) k = occurrences l1 k + occurrences l2 k.
Proof.
  unfold occurrences, list_count. rewrite filter_app, length_app. lia.
Qed.

Lemma occurrences_lt_length {K} `{EqDecision K} (l : list K) k :
  occurrences l k < Z.of_nat (length l) → ∃ x, x ∈ l ∧ x ≠ k.
Proof.
  induction l as [|x l IH]; [cbn; unfold occurrences; cbn; lia|].
  rewrite occurrences_cons. cbn [length]. intros Hlt.
  destruct (decide (x = k)) as [->|Hne].
  - destruct IH as (y & Hy & Hyk); [lia|]. exists y. split; [by right|done].
  - exists x. split; [by left|done].
Qed.

(** A score of PAIR is one of five cards with a rank held twice. *)
Lemma pair_score_has_pair five kickers :
  length five = 5%nat →
  _evaluate_five_card_hand five = Ok (PAIR, kickers) →
  ∃ k, occurrences (map rank five) k = 2.
Proof.
  intros Hlen Hscore.
  destruct (scorer_view five Hlen)
    as (is_straight & is_flush & c0 & rest & _ & _ & Hcounts & _ & _ & _ & Hview).
  rewrite Hscore in Hview. injection Hview as Hview.
  assert (c0 = 2) as ->.
  { destruct (is_straight && is_flush); [discriminate Hview|].
    destruct (Z.eqb_spec c0 4); [discriminate Hview|].
    case_bool_decide; [discriminate Hview|].
    destruct is_flush; [discriminate Hview|].
    destruct is_straight; [discriminate Hview|].
    destruct (Z.eqb_spec c0 3); [discriminate Hview|].
    case_bool_decide; [discriminate Hview|].
    destruct (Z.eqb_spec c0 2); [done|discriminate Hview]. }
  assert (2 ∈ values (Counter (sorted_desc (map rank five)))) as Hin.
  { rewrite <-(sorted_desc_Permutation (values _)), Hcounts. by left. }
  apply elem_of_values_Counter in Hin as (k & _ & Hk). exists k.
  by rewrite Hk, (occurrences_perm _ _ k (sorted_desc_Permutation _)).
Qed.

(** Five cards with a rank held three times score THREE_OF_A_KIND or
    more. *)
Lemma trips_score_at_least five k :
  length five = 5%nat →
  occurrences (map rank five) k = 3 →
  ∃ s, _evaluate_five_card_hand five = Ok s ∧
       HandRank_value THREE_OF_A_KIND ≤ HandRank_value s.1.
Proof.
  intros Hlen Hk.
  destruct (scorer_view five Hlen)
    as (is_straight & is_flush & c0 & rest & _ & _ & Hcounts & Hpos & Hsum & Hsorted & Hview).
  assert (3 ∈ c0 :: rest) as Hin.
  { rewrite <-Hcounts, sorted_desc_Permutation. apply elem_of_values_Counter.
    exists k. rewrite (occurrences_perm _ _ k (sorted_desc_Permutation _)).
    split; [|done]. rewrite sorted_desc_Permutation. apply occurrences_pos. lia. }
  assert (c0 = 3) as ->.
  { apply elem_of_cons in Hin as [?|Hin]; [done|].
    apply Sorted_extends in Hsorted; [|intros x y z; unfold flip; lia].
    rewrite Forall_forall in Hsorted. specialize (Hsorted 3 Hin). unfold flip in Hsorted.
    apply Forall_cons in Hpos as [_ Hpos]. cbn [foldr] in Hsum.
    apply list_elem_of_split in Hin as (l1 & l2 & ->).
    rewrite Forall_app, Forall_cons in Hpos. destruct Hpos as (H1 & _ & H2).
    apply Zsum_nonneg in H1, H2.
    rewrite (Zsum_perm _ (3 :: l1 ++ l2)) in Hsum
      by (symmetry; apply Permutation_middle).
    cbn [foldr] in Hsum.
    assert (foldr Z.add 0 (l1 ++ l2) = foldr Z.add 0 l1 + foldr Z.add 0 l2) as Happ
      by (clear; induction l1; cbn; lia).
    lia. }
  eexists. split; [done|].
  repeat (destruct (_ && _) || destruct is_flush || destruct is_straight
          || case_bool_decide); cbn; lia.
Qed.

(** When the evaluator returns PAIR, some rank is held exactly twice
    among all the cards. *)
Lemma evaluate_pair_has_pair hand community kickers :
  evaluate hand community = Ok (PAIR, kickers) →
  ∃ k, occurrences (map rank (hand ++ community)) k = 2.
Proof.
  intros Heval.
  destruct (decide (length (hand ++ community) < 5)%nat) as [Hlt|Hge].
  - rewrite evaluate_fewer_than_five, evaluate_preliminary_ranks in Heval by done.
    cbv zeta in Heval. injection Heval as Hr _.
    repeat case_bool_decide; try done.
    match goal with H : 2 ∈ _ |- _ => apply elem_of_values_Counter in H as (k & _ & Hk) end.
    by exists k.
  - destruct (evaluate_five_or_more hand community) as (s & Hs & _ & Hmax & Hach); [lia|].
    rewrite Heval in Hs. injection Hs as <-.
    destruct Hach as (five & Hsub & Hlen & Hscore).
    destruct (pair_score_has_pair five kickers Hlen Hscore) as [k Hk].
    exists k.
    apply submseteq_Permutation in Hsub as [others Hperm].
    assert (occurrences (map rank (hand ++ community)) k
            = 2 + occurrences (map rank others) k) as Hocc.
    { rewrite (occurrences_perm _ (map rank (five ++ others)))
        by by apply fmap_Permutation.
      by rewrite map_app, occurrences_app, Hk. }
    pose proof (occurrences_nonneg (map rank others) k) as Hnn.
    destruct (decide (occurrences (map rank others) k = 0)) as [Hzero|Hmore]; [lia|].
    exfalso.
    (* a third card of rank [k], outside the five *)
    assert (k ∈ map rank others) as Hin by (apply occurrences_pos; lia).
    apply list_elem_of_fmap in Hin as (c & -> & Hc).
    apply elem_of_Permutation in Hc as [others' Hothers].
    (* a card of another rank among the five *)
    destruct (occurrences_lt_length (map rank five) (rank c)) as (x & Hx & Hxc).
    { rewrite length_map, Hlen, Hk. lia. }
    apply list_elem_of_fmap in Hx as (z & -> & Hz).
    apply elem_of_Permutation in Hz as [five' Hfive].
    (* the five cards with the third card in place of that one *)
    destruct (trips_score_at_least (c :: five') (rank c)) as (s & Hs & Hvalue).
    { cbn [length]. rewrite Hfive in Hlen. cbn [length] in Hlen. lia. }
    { assert (occurrences (map rank five') (rank c) = 2) as Hk'.
      { assert (occurrences (map rank (z :: five')) (rank c) = 2) as Hz'.
        { rewrite <-Hk. symmetry. by apply occurrences_perm, fmap_Permutation. }
        cbn [map] in Hz'. rewrite occurrences_cons, decide_False in Hz' by done. lia. }
      cbn [map]. rewrite occurrences_cons, decide_True by done. lia. }
    destruct (Hmax (c :: five')) as (s' & Hs' & Hle).
    { rewrite Hperm, Hfive, Hothers.
      apply submseteq_cons_middle, submseteq_inserts_r, submseteq_cons. done. }
    { cbn [length]. rewrite Hfive in Hlen. cbn [length] in Hlen. lia. }
    rewrite Hs in Hs'. injection Hs' as <-.
    unfold score_le, score_compare in Hle. cbn [fst snd] in Hle.
    destruct (Z.compare_spec (HandRank_value s.1) (HandRank_value PAIR)) as [E|L|G];
      cbn in *; try lia. done.
Qed.
End categorize_more.

(** ** Pairs, from the evaluator to the categorizer *)

Section pairs.
Import HandEvaluator GTOPlayer Spec More.

(** A card of a rank that is held, taken out of the cards. *)
Lemma occurrences_take_card (l : list Card) k :
  0 < occurrences (map rank l) k →
  ∃ c l', l ≡ₚ c :: l' ∧ rank c = k ∧
          occurrences (map rank l') k = occurrences (map rank l) k - 1.
Proof.
  intros Hpos. pose proof Hpos as Hin. apply occurrences_pos in Hin.
  apply list_elem_of_fmap in Hin as (c & -> & Hc).
  apply elem_of_Permutation in Hc as [l' Hl']. exists c, l'. split_and!; [done..|].
  rewrite (occurrences_perm (map rank l) (map rank (c :: l')) (rank c))
    by by apply fmap_Permutation.
  cbn [map]. rewrite occurrences_cons, decide_True by done. lia.
Qed.

Lemma occurrences_two_cards (l : list Card) k :
  occurrences (map rank l) k = 2 →
  ∃ c1 c2 l', l ≡ₚ c1 :: c2 :: l' ∧ rank c1 = k ∧ rank c2 = k ∧
              occurrences (map rank l') k = 0.
Proof.
  intros Hk. destruct (occurrences_take_card l k) as (c1 & l1 & Hl1 & Hc1 & Hk1); [lia|].
  destruct (occurrences_take_card l1 k) as (c2 & l2 & Hl2 & Hc2 & Hk2); [lia|].
  exists c1, c2, l2. split_and!; [by rewrite Hl1, Hl2|done..|lia].
Qed.

(** Five cards with two ranks held twice each score TWO_PAIR or more. *)
Lemma two_pair_score_at_least five k k' :
  length five = 5%nat → k ≠ k' →
  occurrences (map rank five) k = 2 → occurrences (map rank five) k' = 2 →
  ∃ s, _evaluate_five_card_hand five = Ok s ∧
       HandRank_value TWO_PAIR ≤ HandRank_value s.1.
Proof.
  intros Hlen Hne Hk Hk'.
  destruct (scorer_view five Hlen)
    as (is_straight & is_flush & c0 & rest & _ & _ & Hcounts & _ & Hsum & Hsorted & Hview).
  set (ranks := sorted_desc (map rank five)) in *.
  assert (∀ x, occurrences (map rank five) x = 2 → (x, 2) ∈ Counter ranks) as Hin.
  { intros x Hx. apply elem_of_Counter. unfold ranks.
    rewrite (occurrences_perm _ _ x (sorted_desc_Permutation _)), Hx. split; [|done].
    rewrite sorted_desc_Permutation. apply occurrences_pos. lia. }
  pose proof (Hin k Hk) as Hink. pose proof (Hin k' Hk') as Hink'.
  apply elem_of_Permutation in Hink as [c1 Hc1].
  rewrite Hc1 in Hink'. apply elem_of_cons in Hink' as [[=]|Hink']; [done|].
  apply elem_of_Permutation in Hink' as [c2 Hc2].
  assert (c0 :: rest ≡ₚ 2 :: 2 :: values c2) as Hperm.
  { rewrite <-Hcounts, sorted_desc_Permutation. unfold values.
    by rewrite Hc1, Hc2. }
  assert (Forall (λ n, 1 ≤ n) (values c2)) as Hpos.
  { pose proof (values_Counter_pos ranks) as Hall. unfold values in *.
    rewrite Hc1, Hc2, !fmap_cons, !Forall_cons in Hall. tauto. }
  rewrite (Zsum_perm _ _ Hperm) in Hsum. cbn [foldr] in Hsum.
  assert (values c2 = [1]) as Hone.
  { destruct (values c2) as [|x [|y l]]; cbn [foldr] in Hsum; [lia| |].
    - f_equal. lia.
    - apply Forall_cons in Hpos as [Hx [Hy Hl%Zsum_nonneg]%Forall_cons]. lia. }
  rewrite Hone in Hperm.
  assert (c0 :: rest = [2; 2; 1]) as Heq.
  { rewrite <-(sorted_desc_id (c0 :: rest)) by done.
    by rewrite (sorted_desc_perm _ _ Hperm). }
  injection Heq as -> ->.
  eexists. split; [done|].
  repeat (destruct (_ && _) || destruct is_flush || destruct is_straight
          || case_bool_decide); cbn; try lia; done.
Qed.

(** When the evaluator returns PAIR for five cards or more, one rank
    only is held twice. *)
Lemma evaluate_pair_unique hand community kickers k k' :
  (5 ≤ length (hand ++ community))%nat →
  evaluate hand community = Ok (PAIR, kickers) →
  occurrences (map rank (hand ++ community)) k = 2 →
  occurrences (map rank (hand ++ community)) k' = 2 →
  k = k'.
Proof.
  intros Hlen Heval Hk Hk'. destruct (decide (k = k')) as [|Hne]; [done|exfalso].
  destruct (evaluate_five_or_more hand community Hlen) as (s & Hs & _ & Hmax & _).
  rewrite Heval in Hs. injection Hs as <-.
  destruct (occurrences_two_cards _ k Hk) as (c1 & c2 & l2 & Hl2 & Hc1 & Hc2 & Hk2).
  assert (occurrences (map rank l2) k' = 2) as Hk2'.
  { rewrite (occurrences_perm _ (map rank (c1 :: c2 :: l2)) k') in Hk'
      by by apply fmap_Permutation.
    cbn [map] in Hk'. rewrite !occurrences_cons, !decide_False in Hk' by congruence.
    lia. }
  destruct (occurrences_two_cards _ k' Hk2') as (c3 & c4 & l4 & Hl4 & Hc3 & Hc4 & Hk4').
  assert (occurrences (map rank l4) k = 0) as Hk4.
  { rewrite (occurrences_perm _ (map rank (c3 :: c4 :: l4)) k) in Hk2
      by by apply fmap_Permutation.
    cbn [map] in Hk2. rewrite !occurrences_cons, !decide_False in Hk2 by congruence.
    lia. }
  destruct l4 as [|c5 l5].
  { rewrite Hl2, Hl4 in Hlen. cbn [length] in Hlen. lia. }
  cbn [map] in Hk4, Hk4'. rewrite occurrences_cons in Hk4, Hk4'.
  pose proof (occurrences_nonneg (map rank l5) k).
  pose proof (occurrences_nonneg (map rank l5) k').
  destruct (decide (rank c5 = k)) as [|Hc5]; [lia|].
  destruct (decide (rank c5 = k')) as [|Hc5']; [lia|].
  destruct (two_pair_score_at_least [c1; c2; c3; c4; c5] k k') as (s & Hs & Hvalue);
    [done..| | |].
  { cbn [map]. rewrite !occurrences_cons, occurrences_nil.
    rewrite !(decide_True (P := rank c1 = k)), !(decide_True (P := rank c2 = k)) by done.
    rewrite !decide_False by congruence. lia. }
  { cbn [map]. rewrite !occurrences_cons, occurrences_nil.
    rewrite !(decide_True (P := rank c3 = k')), !(decide_True (P := rank c4 = k')) by done.
    rewrite !decide_False by congruence. lia. }
  destruct (Hmax [c1; c2; c3; c4; c5]) as (s' & Hs' & Hle); [|done|].
  { rewrite Hl2, Hl4. change (c1 :: c2 :: c3 :: c4 :: c5 :: l5) with ([c1; c2; c3; c4; c5] ++ l5).
    by apply submseteq_inserts_r. }
  rewrite Hs in Hs'. injection Hs' as <-.
  unfold score_le, score_compare in Hle. cbn [fst snd] in Hle.
  destruct (Z.compare_spec (HandRank_value s.1) (HandRank_value PAIR)) as [E|L|G];
    cbn in *; try lia. done.
Qed.

Lemma foldl_max_le (l : list Z) x k :
  foldl Z.max x l ≤ k ↔ x ≤ k ∧ Forall (λ y, y ≤ k) l.
Proof.
  revert x. induction l as [|y l IH]; intros x; cbn [foldl].
  - rewrite Forall_nil. tauto.
  - rewrite IH, Forall_cons. cbn beta. intuition lia.
Qed.

(** [max(l, default=0) <= k] on a list that is not empty. *)
Lemma max_default0_le (community : list Card) k :
  community ≠ [] →
  (max_default0 (map rank community) <=? k) = forallb (λ c, rank c <=? k) community.
Proof.
  intros Hne. destruct community as [|c community]; [done|].
  apply eq_true_iff_eq. rewrite Z.leb_le. cbn [map max_default0 forallb].
  rewrite foldl_max_le, andb_true_iff, Z.leb_le, forallb_forall, Forall_forall.
  split; intros [Hc Hall]; (split; [done|]).
  - intros x Hx%list_elem_of_In. apply Z.leb_le, Hall. by apply list_elem_of_fmap_2.
  - intros y (x & -> & Hx)%list_elem_of_fmap. by apply Z.leb_le, Hall, list_elem_of_In.
Qed.

(** The pair rank the categorizer looks up: the first rank, in the order
    of the cards, that is held twice. *)
Lemma pair_rank_lookup (ranks : list Z) k :
  occurrences ranks k = 2 →
  ∃ pair_rank,
    getitem (filter (λ rc, rc.2 = 2) (Counter ranks)).*1 0 = Ok pair_rank ∧
    occurrences ranks pair_rank = 2.
Proof.
  intros Hk.
  assert ((k, 2) ∈ filter (λ rc : Z * Z, rc.2 = 2) (Counter ranks)) as Hin.
  { apply list_elem_of_filter. split; [done|]. apply elem_of_Counter.
    split; [|done]. apply occurrences_pos. lia. }
  destruct (filter _ (Counter ranks)) as [|[k' n] c] eqn:Hfilter.
  { by apply elem_of_nil in Hin. }
  exists k'. split; [done|].
  assert ((k', n) ∈ filter (λ rc : Z * Z, rc.2 = 2) (Counter ranks)) as Hin'
    by (rewrite Hfilter; apply list_elem_of_here).
  apply list_elem_of_filter in Hin' as [Hn Hin']. cbn in Hn. subst n.
  by apply elem_of_Counter in Hin' as [_ ->].
Qed.

Lemma categorize_hand_Ok hand community r kickers :
  (2 ≤ length hand)%nat →
  evaluate hand community = Ok (r, kickers) →
  ∃ category, _categorize_hand r hand community = Ok category.
Proof.
  intros Hlen Heval. destruct hand as [|h0 [|h1 hand]]; cbn [length] in Hlen; [lia..|].
  unfold _categorize_hand.
  destruct (_ <=? _); [by eexists|].
  assert ((if decide (r = THREE_OF_A_KIND)
           then h0' ← getitem (h0 :: h1 :: hand) 0;
                h1' ← getitem (h0 :: h1 :: hand) 1; Ok (rank h0' =? rank h1')
           else Ok false) = Ok (bool_decide (r = THREE_OF_A_KIND) && (rank h0 =? rank h1)))
    as -> by by case_decide; [rewrite bool_decide_eq_true_2|rewrite bool_decide_eq_false_2].
  cbn [mbind result_bind].
  destruct (_ && _); [by eexists|]. destruct (_ <=? _); [by eexists|].
  set (combined := (h0 :: h1 :: hand) ++ community).
  destruct (top_suit_count_spec combined) as (n & _ & Hn & _); [done|].
  assert (∃ is_draw,
    (if (length combined <? 5)%nat
     then n ← top_suit_count combined;
          if n =? 4 then Ok true
          else if (4 <=? length (unique_ranks_of combined))%nat
               then Ok (existsb (λ d, d <=? 4) (window_spans 3 (unique_ranks_of combined)))
               else Ok false
     else Ok false) = Ok is_draw) as [is_draw ->].
  { rewrite Hn. cbn [mbind result_bind]. repeat destruct (_ <? _)%nat;
      repeat destruct (_ =? _); repeat destruct (_ <=? _)%nat; by eexists. }
  cbn [mbind result_bind]. destruct is_draw; [by eexists|].
  case_decide as Hr; [|by eexists]. subst r.
  destruct (evaluate_pair_has_pair _ _ _ Heval) as [k Hk].
  destruct (pair_rank_lookup _ k Hk) as (pair_rank & Hlookup & _).
  subst combined. rewrite Hlookup.
  cbn [mbind result_bind getitem lookup list_lookup].
  destruct (_ && _); [by eexists|]. destruct (bool_decide _); by eexists.
Qed.

(** X9: with two hole cards or more, the categorizer returns a category
    for the rank the evaluator returns for the same cards; the category
    is never WEAK_DRAW, and is STRONG_DRAW on fewer than five cards
    only. *)
Theorem categorize_after_evaluate hand community r kickers :
  (2 ≤ length hand)%nat →
  evaluate hand community = Ok (r, kickers) →
  ∃ category,
    _categorize_hand r hand community = Ok category ∧
    category ≠ WEAK_DRAW ∧
    (category = STRONG_DRAW → (length (hand ++ community) < 5)%nat).
Proof.
  intros Hlen Heval.
  destruct (categorize_hand_Ok hand community r kickers Hlen Heval) as [category Hcat].
  exists category. split_and!; [done| |].
  - intros ->. by apply categorize_not_weak_draw in Hcat.
  - intros ->. by apply categorize_strong_draw in Hcat as [? _].
Qed.

(** X10: the evaluator returns PAIR on two hole cards and a board of
    three cards or more.  Then one rank exactly is held twice, and the
    category is STRONG_MADE when a hole card has that rank and no board
    card is higher, MEDIUM_MADE when a hole card has that rank and some
    board card is higher, and WEAK_MADE when the pair is on the board. *)
Theorem categorize_pair h0 h1 community kickers :
  (3 ≤ length community)%nat →
  evaluate [h0; h1] community = Ok (PAIR, kickers) →
  ∃ pair_rank,
    (∀ k, occurrences (map rank ([h0; h1] ++ community)) k = 2 ↔ k = pair_rank) ∧
    _categorize_hand PAIR [h0; h1] community =
      Ok (if bool_decide (pair_rank = rank h0 ∨ pair_rank = rank h1)
          then if forallb (λ c, rank c <=? pair_rank) community
               then STRONG_MADE else MEDIUM_MADE
          else WEAK_MADE).
Proof.
  intros Hlen Heval.
  assert (5 ≤ length ([h0; h1] ++ community))%nat as Hfive by (cbn [app length]; lia).
  destruct (evaluate_pair_has_pair _ _ _ Heval) as [k Hk].
  destruct (pair_rank_lookup _ k Hk) as (pair_rank & Hlookup & Hpair).
  exists pair_rank. split.
  { intros k'. split; [|by intros ->].
    intros Hk'. by eapply evaluate_pair_unique. }
  unfold _categorize_hand.
  change (HandRank_value FULL_HOUSE <=? HandRank_value PAIR) with false.
  change (HandRank_value TWO_PAIR <=? HandRank_value PAIR) with false.
  cbv iota. rewrite (decide_False (P := PAIR = THREE_OF_A_KIND)) by done.
  cbn [mbind result_bind].
  destruct (Nat.ltb_spec (length ([h0; h1] ++ community)) 5) as [|_]; [lia|].
  cbn [mbind result_bind]. rewrite decide_True by done.
  rewrite Hlookup. cbn [mbind result_bind getitem lookup list_lookup].
  rewrite max_default0_le by (intros ->; cbn [length] in Hlen; lia).
  assert (pair_rank ∈ [rank h0; rank h1] ↔ pair_rank = rank h0 ∨ pair_rank = rank h1)
    as Hmem by (rewrite !elem_of_cons, elem_of_nil; tauto).
  rewrite (bool_decide_ext _ _ Hmem).
  destruct (bool_decide _); [|done]. cbn [andb]. by destruct (forallb _ _).
Qed.
End pairs.

(** ** Draws and their equity *)

Section draws.
Import HandEvaluator GTOPlayer Spec More.

Lemma equity_of_outs_bounds outs multiplier :
  0 ≤ outs ≤ 9 → 2 ≤ multiplier ≤ 4 →
  (0 <= inject_Z (outs * multiplier) / 100)%Q ∧
  (inject_Z (outs * multiplier) / 100 <= 36 # 100)%Q.
Proof.
  intros Houts Hmult. unfold Qle, Qdiv, Qmult, Qinv, inject_Z. cbn. split; nia.
Qed.

(** X11: the estimator raises IndexError when there is no card at all;
    otherwise it returns 0, 4, 8 or 9 outs times the multiplier (4 with
    three community cards, else 2) over 100, which lies between 0 and
    0.36. *)
Theorem estimate_draw_equity_values self community :
  match hand self ++ community with
  | [] => _estimate_draw_equity self community = Raise IndexError
  | _ :: _ =>
      ∃ outs equity,
        _estimate_draw_equity self community = Ok equity ∧
        outs ∈ [0; 4; 8; 9] ∧
        equity =
          (inject_Z (outs * if decide (length community = 3%nat) then 4 else 2) / 100)%Q ∧
        (0 <= equity)%Q ∧ (equity <= 36 # 100)%Q
  end.
Proof.
  destruct (hand self ++ community) as [|c combined] eqn:Hcombined.
  { unfold _estimate_draw_equity. by rewrite Hcombined. }
  destruct (top_suit_count_spec (hand self ++ community)) as (n & _ & Hn & _).
  { by rewrite Hcombined. }
  unfold _estimate_draw_equity. rewrite Hn. cbn [mbind result_bind].
  set (multiplier := if decide (length community = 3%nat) then 4 else 2).
  assert (2 ≤ multiplier ≤ 4) as Hmult by (unfold multiplier; case_decide; lia).
  clearbody multiplier.
  set (outs := if (4 <=? length (unique_ranks_of (hand self ++ community)))%nat
               then _ else _).
  assert (outs ∈ [0; 4; 8; 9]) as Houts.
  { unfold outs. rewrite !elem_of_cons.
    repeat (destruct (_ <=? _)%nat || destruct (existsb _ _) || destruct (_ =? _));
      cbn; auto. }
  clearbody outs. exists outs. eexists. split_and!; [done..| |].
  - apply equity_of_outs_bounds; [|done].
    rewrite !elem_of_cons, elem_of_nil in Houts. lia.
  - apply equity_of_outs_bounds; [|done].
    rewrite !elem_of_cons, elem_of_nil in Houts. lia.
Qed.

(** X12: for cards the categorizer calls a strong draw, the estimator
    counts four outs at least: the estimate is 0.08 or more. *)
Theorem strong_draw_equity self community r :
  _categorize_hand r (hand self) community = Ok STRONG_DRAW →
  ∃ equity,
    _estimate_draw_equity self community = Ok equity ∧ (8 # 100 <= equity)%Q.
Proof. apply draw_equity_of_strong_draw. Qed.
End draws.

(** ** Hand strings and range tokens *)

Section range_tokens.
Import HandEvaluator GTOPlayer Spec More.

Lemma unpack2_length {A} (l : list A) :
  length l ≠ 2%nat → unpack2 l = Raise ValueError.
Proof. by destruct l as [|a [|b [|c l]]]. Qed.

Lemma get_hand_string_not_two_cards self :
  length (hand self) ≠ 2%nat → _get_hand_string self = Raise ValueError.
Proof.
  intros Hlen. unfold _get_hand_string. rewrite unpack2_length; [done|].
  by rewrite sort_cards_Permutation.
Qed.

(** The hand string of two cards, whichever is stored first. *)
Lemma get_hand_string_two_cards self c1 c2 :
  hand self = [c1; c2] →
  _get_hand_string self =
  let '(hi, lo) := if rank c1 <? rank c2 then (c2, c1) else (c1, c2) in
  Ok (if decide (rank_str (rank hi) = rank_str (rank lo))
      then rank_str (rank hi) +:+ rank_str (rank lo)
      else rank_str (rank hi) +:+ rank_str (rank lo)
           +:+ (if decide (suit c1 = suit c2) then "s" else "o")).
Proof.
  intros Hhand. unfold _get_hand_string. rewrite Hhand.
  unfold sort_cards, sorted_by. cbn.
  destruct (rank c1 <? rank c2); cbn; [|done].
  destruct (decide (suit c2 = suit c1)), (decide (suit c1 = suit c2)); congruence || done.
Qed.

(** The text of a rank reads back as the rank, so that ranks with the
    same text are equal. *)
Lemma rank_str_inj r1 r2 : rank_str r1 = rank_str r2 → r1 = r2.
Proof.
  intros Heq. pose proof (rank_map_rank_str r1) as H1.
  pose proof (rank_map_rank_str r2) as H2. rewrite Heq, H2 in H1. by injection H1.
Qed.

Lemma Card_init_rank_str r ch :
  Card_init (rank_str r +:+ String ch "") = Ok (mkCard r (String ch "")).
Proof.
  unfold Card_init.
  rewrite decide_False by (destruct (rank_str r); discriminate).
  rewrite str_init_snoc, str_last_snoc. by rewrite rank_map_rank_str.
Qed.

Lemma rank_str_nonempty r : rank_str r ≠ "".
Proof.
  intros Heq. pose proof (rank_map_rank_str r) as Hr. rewrite Heq in Hr. discriminate Hr.
Qed.

(** The ranks of a deck are written with one character, which is neither
    [s] nor [o]. *)
Lemma rank_str_valid r :
  2 ≤ r ≤ 14 →
  ∃ ch, rank_str r = String ch "" ∧ ch ≠ "s"%char ∧ ch ≠ "o"%char.
Proof.
  intros Hr.
  assert (r ∈ [2; 3; 4; 5; 6; 7; 8; 9; 10; 11; 12; 13; 14]) as Hin
    by (rewrite !elem_of_cons, elem_of_nil; lia).
  rewrite !elem_of_cons, elem_of_nil in Hin.
  repeat (destruct Hin as [->|Hin]; [by eexists|]). done.
Qed.

Lemma prefix_refl s : String.prefix s s = true.
Proof. induction s as [|c s IH]; [done|]. cbn. by destruct (Ascii.ascii_dec c c). Qed.

Lemma get_hand_string_nonempty self hand_str :
  _get_hand_string self = Ok hand_str → ∃ c s, hand_str = String c s.
Proof.
  unfold _get_hand_string. intros H.
  apply bind_Ok in H as ([c1 c2] & _ & H). injection H as <-.
  pose proof (rank_str_nonempty (rank c1)) as Hne.
  destruct (rank_str (rank c1)) as [|c s]; [done|].
  case_decide; cbn; by eexists _, _.
Qed.

(** A token is looked at without error, unless it is ["+"]. *)
Lemma range_token_total hand_str c1 c2 r :
  (∃ c s, hand_str = String c s) → r ≠ "+" →
  ∃ m, range_token_matches hand_str c1 c2 r = Ok m.
Proof.
  intros (h & hs & ->) Hr. unfold range_token_matches.
  case_decide as Hlen; [by eexists|].
  destruct (endswith r "+") eqn:Hplus; [|by eexists].
  destruct r as [|r0 [|r1 r]]; [done| |].
  { apply bool_decide_eq_true_1 in Hplus as [l Hl]. cbn in Hl.
    destruct l as [|? [|??]]; [|done..]. cbn in Hl. by injection Hl as ->. }
  cbn [str_getitem String.get mbind result_bind].
  destruct (Card_init_total (String r1 "" +:+ "s")) as [base ->].
  cbn [fmap result_fmap mbind result_bind].
  case_decide; cbn [mbind result_bind];
    repeat (destruct (_ && _) || destruct (bool_decide _)); by eexists.
Qed.

Lemma in_range_loop_total hand_str c1 c2 range_list :
  (∃ c s, hand_str = String c s) → "+" ∉ range_list →
  ∃ b, in_range_loop hand_str c1 c2 range_list = Ok b.
Proof.
  intros Hne. induction range_list as [|r l IH]; [by eexists|].
  intros [Hr Hl]%not_elem_of_cons. cbn [in_range_loop].
  destruct (range_token_total hand_str c1 c2 r Hne) as [m ->]; [done|].
  cbn [mbind result_bind]. destruct m; [by eexists|by apply IH].
Qed.

Lemma is_in_range_Ok self range_list :
  length (hand self) = 2%nat → "+" ∉ range_list →
  ∃ b, _is_in_range self range_list = Ok b.
Proof.
  intros Hlen Hplus. destruct (hand self) as [|c1 [|c2 [|]]] eqn:Hhand; try done.
  unfold _is_in_range.
  assert (∃ hand_str, _get_hand_string self = Ok hand_str) as [hand_str Hstr].
  { rewrite (get_hand_string_two_cards self c1 c2 Hhand).
    destruct (_ <? _); by eexists. }
  rewrite Hstr, Hhand. cbn [mbind result_bind unpack2].
  apply in_range_loop_total; [|done]. by eapply get_hand_string_nonempty.
Qed.

(** X13: the hand string exists for a hand of two cards exactly, and is
    the same whichever of the two is stored first; for any other hand
    both it and the range matcher, on any list, raise ValueError. *)
Theorem hand_string_of_two_cards self :
  match hand self with
  | [c1; c2] =>
      ∃ hand_str,
        _get_hand_string self = Ok hand_str ∧
        ∀ self', hand self' = [c2; c1] → _get_hand_string self' = Ok hand_str
  | _ =>
      _get_hand_string self = Raise ValueError ∧
      ∀ range_list, _is_in_range self range_list = Raise ValueError
  end.
Proof.
  assert (length (hand self) ≠ 2%nat →
          _get_hand_string self = Raise ValueError ∧
          ∀ range_list, _is_in_range self range_list = Raise ValueError) as Hraise.
  { intros Hlen. split; [by apply get_hand_string_not_two_cards|].
    intros range_list. unfold _is_in_range.
    by rewrite get_hand_string_not_two_cards. }
  destruct (hand self) as [|c1 [|c2 [|c3 l]]] eqn:Hhand; try by apply Hraise.
  rewrite (get_hand_string_two_cards self c1 c2 Hhand).
  destruct (Z.ltb_spec (rank c1) (rank c2)); (eexists; split; [done|]);
    intros self' Hhand'; rewrite (get_hand_string_two_cards self' c2 c1 Hhand');
    destruct (Z.ltb_spec (rank c2) (rank c1)); try lia; f_equal.
  - destruct (decide (suit c1 = suit c2)), (decide (suit c2 = suit c1)); congruence.
  - destruct (decide (suit c1 = suit c2)), (decide (suit c2 = suit c1)); congruence.
  - assert (rank c1 = rank c2) as Heq by lia. rewrite Heq.
    by rewrite !decide_True by done.
Qed.

(** X14: on a hand of two cards the range matcher raises IndexError on
    the token ["+"], and returns for every list of tokens without that
    token. *)
Theorem is_in_range_total self range_list :
  length (hand self) = 2%nat →
  _is_in_range self ["+"] = Raise IndexError ∧
  ("+" ∉ range_list → ∃ b, _is_in_range self range_list = Ok b).
Proof.
  intros Hlen. split; [|by apply is_in_range_Ok].
  destruct (hand self) as [|c1 [|c2 [|]]] eqn:Hhand; try done.
  unfold _is_in_range. rewrite (get_hand_string_two_cards self c1 c2 Hhand), Hhand.
  destruct (_ <? _); reflexivity.
Qed.

Lemma endswith_plus s : endswith s "+" = true → "+"%char ∈ chars s.
Proof.
  intros [l Hl]%bool_decide_eq_true_1. rewrite Hl, elem_of_app. right.
  apply list_elem_of_here.
Qed.

Lemma rank_str_no_plus r : "+"%char ∉ chars (rank_str r).
Proof.
  intros Hin. pose proof (rank_str_chars r) as Hall. rewrite Forall_forall in Hall.
  by specialize (Hall _ Hin).
Qed.

Lemma get_hand_string_no_plus self hand_str :
  _get_hand_string self = Ok hand_str → endswith hand_str "+" = false.
Proof.
  unfold _get_hand_string. intros H.
  apply bind_Ok in H as ([c1 c2] & _ & H). injection H as <-.
  apply not_true_iff_false. intros Hin%endswith_plus. revert Hin.
  case_decide; rewrite !chars_app, !elem_of_app;
    intros Hin; destruct_or!; try by eapply rank_str_no_plus.
  by case_decide; apply list_elem_of_singleton in Hin.
Qed.

(** X15: a hand is in every range list that holds its own hand string
    and not the token ["+"]. *)
Theorem own_hand_string_in_range self hand_str range_list :
  _get_hand_string self = Ok hand_str →
  hand_str ∈ range_list → "+" ∉ range_list →
  _is_in_range self range_list = Ok true.
Proof.
  intros Hstr Hin Hplus.
  destruct (decide (length (hand self) = 2%nat)) as [Hlen|Hlen];
    [|by rewrite get_hand_string_not_two_cards in Hstr].
  destruct (hand self) as [|c1 [|c2 [|]]] eqn:Hhand; try done.
  unfold _is_in_range. rewrite Hstr, Hhand. cbn [mbind result_bind unpack2].
  pose proof (get_hand_string_nonempty _ _ Hstr) as Hne.
  induction range_list as [|r l IH]; [by apply elem_of_nil in Hin|].
  apply not_elem_of_cons in Hplus as [Hr Hl]. cbn [in_range_loop].
  destruct (range_token_total hand_str c1 c2 r Hne) as [m Hm]; [done|].
  rewrite Hm. cbn [mbind result_bind]. destruct m; [done|].
  apply elem_of_cons in Hin as [<-|Hin]; [|by apply IH].
  unfold range_token_matches in Hm. case_decide.
  - unfold startswith in Hm. rewrite prefix_refl in Hm. discriminate Hm.
  - rewrite (get_hand_string_no_plus _ _ Hstr) in Hm.
    rewrite bool_decide_eq_true_2 in Hm by done. discriminate Hm.
Qed.

(** X16: the pair range of a rank of the deck, as ["99+"], matches the
    hands of two cards of one rank that is the base rank or higher,
    whatever the cards are. *)
Theorem pair_plus_token self c1 c2 b :
  hand self = [c1; c2] → 2 ≤ b ≤ 14 →
  _is_in_range self [rank_str b +:+ rank_str b +:+ "+"] =
    Ok (bool_decide (rank c1 = rank c2 ∧ b ≤ rank c1)).
Proof.
  intros Hhand Hb. unfold _is_in_range.
  assert (∃ hand_str, _get_hand_string self = Ok hand_str) as [hand_str Hstr].
  { rewrite (get_hand_string_two_cards self c1 c2 Hhand).
    destruct (_ <? _); by eexists. }
  destruct (get_hand_string_nonempty _ _ Hstr) as (h & hs & ->).
  rewrite Hstr, Hhand.
  cbn [mbind result_bind unpack2 in_range_loop].
  pose proof (Card_init_rank_str b "s") as Hbase.
  destruct (rank_str_valid b Hb) as (chb & Hchb & _). rewrite Hchb in Hbase |- *.
  unfold range_token_matches.
  change (String chb "" +:+ String chb "" +:+ "+") with (String chb (String chb "+")).
  cbn [String.length]. rewrite (decide_False (P := 3%nat = 2%nat)) by done.
  change (endswith (String chb (String chb "+")) "+") with true. cbv iota.
  cbn [str_getitem String.get mbind result_bind].
  rewrite Hbase. cbn [fmap result_fmap mbind result_bind rank].
  rewrite (decide_True (P := 3%nat = 3%nat)) by done. cbn [mbind result_bind].
  rewrite bool_decide_eq_true_2 by done. cbv iota.
  assert ((rank c1 =? rank c2) && (b <=? rank c1)
          = bool_decide (rank c1 = rank c2 ∧ b ≤ rank c1)) as ->;
    [|cbn [mbind result_bind]; by destruct (bool_decide _)].
  apply eq_true_iff_eq. rewrite andb_true_iff, bool_decide_eq_true. lia.
Qed.
Lemma endswith_last x y z :
  endswith (String x (String y "")) (String z "") = bool_decide (z = y).
Proof.
  apply bool_decide_ext. cbn. split.
  - intros [l Hl]. destruct l as [|? [|? [|??]]]; cbn in Hl; congruence.
  - intros ->. by exists [x].
Qed.

(** What a suited or offsuit range token does with a hand string of two
    ranks of the deck. *)
Lemma suit_token_matches hi lo c1 c2 a b (same suited : bool) :
  2 ≤ hi ≤ 14 → 2 ≤ lo ≤ 14 → 2 ≤ a ≤ 14 → 2 ≤ b ≤ 14 →
  range_token_matches
    (if decide (rank_str hi = rank_str lo) then rank_str hi +:+ rank_str lo
     else rank_str hi +:+ rank_str lo +:+ (if same then "s" else "o"))
    c1 c2 (rank_str a +:+ rank_str b +:+ (if suited then "s+" else "o+")) =
  Ok (bool_decide (hi ≠ lo ∧ same = suited ∧ hi = a ∧ b ≤ rank c2)).
Proof.
  intros Hhi Hlo Ha Hb.
  pose proof (Card_init_rank_str b "s") as Hbase.
  assert (rank_str hi = rank_str a ↔ hi = a) as Hinj
    by (split; [apply rank_str_inj|by intros ->]).
  assert (rank_str hi = rank_str lo ↔ hi = lo) as Hpair
    by (split; [apply rank_str_inj|by intros ->]).
  destruct (rank_str_valid hi Hhi) as (hh & Hhh & _).
  destruct (rank_str_valid lo Hlo) as (hl & Hhl & Hs & Ho).
  destruct (rank_str_valid a Ha) as (ca & Hca & _).
  destruct (rank_str_valid b Hb) as (cb & Hcb & _).
  rewrite Hhh, Hhl, Hca in *. rewrite Hcb in Hbase |- *. clear Hhh Hhl Hca Hcb.
  change (String cb "" +:+ "s") with (String cb "s") in Hbase.
  unfold range_token_matches.
  destruct suited.
  - change (String ca "" +:+ String cb "" +:+ "s+") with (String ca (String cb "s+")).
    cbn [String.length]. rewrite (decide_False (P := 4%nat = 2%nat)) by done.
    change (endswith (String ca (String cb "s+")) "+") with true. cbv iota.
    cbn [str_getitem String.get].
    rewrite (decide_False (P := 4%nat = 3%nat)) by done.
    change (endswith (String ca (String cb "s+")) "s+") with true.
    change (endswith (String ca (String cb "s+")) "o+") with false.
    cbn [andb]. cbn [mbind result_bind].
    change (String cb "" +:+ "s") with (String cb "s"). rewrite Hbase.
    cbn [fmap result_fmap mbind result_bind rank].
    case_decide as Heq.
    + change (String hh "" +:+ String hl "") with (String hh (String hl "")).
      rewrite endswith_last, bool_decide_eq_false_2 by done.
      rewrite bool_decide_eq_false_2; [done|]. intros [Hne _]. by apply Hne, Hpair.
    + destruct same.
      * change (String hh "" +:+ String hl "" +:+ "s") with (String hh (String hl "s")).
        change (endswith (String hh (String hl "s")) "s") with true.
        cbn [str_getitem String.get mbind result_bind]. f_equal.
        apply eq_true_iff_eq.
        rewrite andb_true_iff, !bool_decide_eq_true, Z.leb_le, Hinj, <-Hpair. tauto.
      * change (String hh "" +:+ String hl "" +:+ "o") with (String hh (String hl "o")).
        change (endswith (String hh (String hl "o")) "s") with false.
        rewrite bool_decide_eq_false_2; [done|]. by intros (_ & ? & _).
  - change (String ca "" +:+ String cb "" +:+ "o+") with (String ca (String cb "o+")).
    cbn [String.length]. rewrite (decide_False (P := 4%nat = 2%nat)) by done.
    change (endswith (String ca (String cb "o+")) "+") with true. cbv iota.
    cbn [str_getitem String.get].
    rewrite (decide_False (P := 4%nat = 3%nat)) by done.
    change (endswith (String ca (String cb "o+")) "s+") with false.
    change (endswith (String ca (String cb "o+")) "o+") with true.
    cbn [andb]. cbn [mbind result_bind].
    change (String cb "" +:+ "s") with (String cb "s"). rewrite Hbase.
    cbn [fmap result_fmap mbind result_bind rank].
    case_decide as Heq.
    + change (String hh "" +:+ String hl "") with (String hh (String hl "")).
      rewrite endswith_last, bool_decide_eq_false_2 by done.
      rewrite bool_decide_eq_false_2; [done|]. intros [Hne _]. by apply Hne, Hpair.
    + destruct same.
      * change (String hh "" +:+ String hl "" +:+ "s") with (String hh (String hl "s")).
        change (endswith (String hh (String hl "s")) "o") with false.
        rewrite bool_decide_eq_false_2; [done|]. by intros (_ & ? & _).
      * change (String hh "" +:+ String hl "" +:+ "o") with (String hh (String hl "o")).
        change (endswith (String hh (String hl "o")) "o") with true.
        cbn [str_getitem String.get mbind result_bind]. f_equal.
        apply eq_true_iff_eq.
        rewrite andb_true_iff, !bool_decide_eq_true, Z.leb_le, Hinj, <-Hpair. tauto.
Qed.

(** X17: a suited or offsuit range token of two ranks of the deck, as
    ["ATs+"] or ["AJo+"], matches a hand of two cards of the deck when
    the cards have different ranks, are suited as the token says, the
    higher rank is the first rank of the token, and the rank of the
    card stored second is the base rank or higher. *)
Theorem suited_plus_token self c1 c2 a b (suited : bool) :
  hand self = [c1; c2] →
  2 ≤ rank c1 ≤ 14 → 2 ≤ rank c2 ≤ 14 → 2 ≤ a ≤ 14 → 2 ≤ b ≤ 14 →
  _is_in_range self [rank_str a +:+ rank_str b +:+ (if suited then "s+" else "o+")] =
    Ok (bool_decide (rank c1 ≠ rank c2 ∧ bool_decide (suit c1 = suit c2) = suited ∧
                     Z.max (rank c1) (rank c2) = a ∧ b ≤ rank c2)).
Proof.
  intros Hhand H1 H2 Ha Hb. unfold _is_in_range.
  rewrite (get_hand_string_two_cards self c1 c2 Hhand), Hhand.
  destruct (Z.ltb_spec (rank c1) (rank c2)) as [Hlt|Hge];
    cbn [mbind result_bind unpack2 in_range_loop].
  - destruct (decide (suit c1 = suit c2)) as [Hsuit|Hsuit].
    + rewrite (suit_token_matches (rank c2) (rank c1) c1 c2 a b true suited) by done.
      cbn [mbind result_bind]. rewrite (bool_decide_eq_true_2 (suit c1 = suit c2)) by done.
      rewrite (bool_decide_ext _
        (rank c1 ≠ rank c2 ∧ true = suited ∧ Z.max (rank c1) (rank c2) = a ∧ b ≤ rank c2))
        by (rewrite Z.max_r by lia; intuition lia).
      by destruct (bool_decide _).
    + rewrite (suit_token_matches (rank c2) (rank c1) c1 c2 a b false suited) by done.
      cbn [mbind result_bind]. rewrite (bool_decide_eq_false_2 (suit c1 = suit c2)) by done.
      rewrite (bool_decide_ext _
        (rank c1 ≠ rank c2 ∧ false = suited ∧ Z.max (rank c1) (rank c2) = a ∧ b ≤ rank c2))
        by (rewrite Z.max_r by lia; intuition lia).
      by destruct (bool_decide _).
  - destruct (decide (suit c1 = suit c2)) as [Hsuit|Hsuit].
    + rewrite (suit_token_matches (rank c1) (rank c2) c1 c2 a b true suited) by done.
      cbn [mbind result_bind]. rewrite (bool_decide_eq_true_2 (suit c1 = suit c2)) by done.
      rewrite (bool_decide_ext _
        (rank c1 ≠ rank c2 ∧ true = suited ∧ Z.max (rank c1) (rank c2) = a ∧ b ≤ rank c2))
        by (rewrite Z.max_l by lia; intuition lia).
      by destruct (bool_decide _).
    + rewrite (suit_token_matches (rank c1) (rank c2) c1 c2 a b false suited) by done.
      cbn [mbind result_bind]. rewrite (bool_decide_eq_false_2 (suit c1 = suit c2)) by done.
      rewrite (bool_decide_ext _
        (rank c1 ≠ rank c2 ∧ false = suited ∧ Z.max (rank c1) (rank c2) = a ∧ b ≤ rank c2))
        by (rewrite Z.max_l by lia; intuition lia).
      by destruct (bool_decide _).
Qed.
End range_tokens.

(** ** The policy as a whole *)

Section policy.
Import HandEvaluator GTOPlayer Spec More.

Lemma mapM_Card_init l : mapM Card_init l = Ok (map card l).
Proof.
  induction l as [|s l IH]; [done|]. cbn [mapM map]. rewrite IH. unfold card.
  by destruct (Card_init_total s) as [c ->].
Qed.

Lemma community_cards_of_Ok round_state :
  community_cards_of round_state = Ok (map card (community_cards round_state)).
Proof. apply mapM_Card_init. Qed.

Lemma evaluate_Ok hand community : ∃ r kickers, evaluate hand community = Ok (r, kickers).
Proof.
  destruct (decide (length (hand ++ community) < 5)%nat) as [Hlt|Hge].
  - rewrite evaluate_fewer_than_five by done.
    destruct (_evaluate_preliminary _) as [r kickers]. by exists r, kickers.
  - destruct (evaluate_five_or_more hand community) as ([r kickers] & -> & _); [lia|].
    by exists r, kickers.
Qed.

Lemma get_position_Ok self round_state : ∃ p, _get_position self round_state = Ok p.
Proof.
  unfold _get_position. destruct (_ <=? _); [by eexists|].
  rewrite !index_seat_of.
  destruct (seat_of _ (id self)); cbn [mbind result_bind]; [|by eexists].
  destruct (seat_of _ (Some _)); cbn [mbind result_bind]; [|by eexists].
  repeat (destruct (bool_decide _) || destruct (_ =? _)); by eexists.
Qed.

Lemma table_lists_no_plus range_list : range_list ∈ table_lists → "+" ∉ range_list.
Proof.
  intros Hin.
  assert (forallb (λ l, bool_decide ("+" ∉ l)) table_lists = true) as Hall
    by (vm_compute; reflexivity).
  rewrite forallb_forall in Hall. apply list_elem_of_In, Hall in Hin.
  by apply bool_decide_eq_true_1 in Hin.
Qed.

Lemma preflop_ranges_table_lists p :
  RFI (preflop_ranges p) ∈ table_lists ∧
  vs_raise_3bet (preflop_ranges p) ∈ table_lists ∧
  vs_raise_call (preflop_ranges p) ∈ table_lists.
Proof.
  unfold table_lists. cbn [mbind list_bind app].
  rewrite !elem_of_cons. destruct p; cbn [preflop_ranges RFI vs_raise_3bet vs_raise_call];
    split_and!; auto 20.
Qed.

Lemma preflop_action_Ok self round_state amount_to_call :
  length (hand self) = 2%nat →
  ∃ r, _get_preflop_action self round_state amount_to_call = Ok r.
Proof.
  intros Hlen. unfold _get_preflop_action.
  destruct (get_position_Ok self round_state) as [p ->]. cbn [mbind result_bind].
  destruct (preflop_ranges_table_lists p) as (Hrfi & H3bet & Hcall).
  destruct (is_in_range_Ok self _ Hlen (table_lists_no_plus _ Hrfi)) as [in_rfi ->].
  destruct (is_in_range_Ok self _ Hlen (table_lists_no_plus _ H3bet)) as [in_3bet ->].
  destruct (is_in_range_Ok self _ Hlen (table_lists_no_plus _ Hcall)) as [in_call ->].
  cbn [mbind result_bind].
  repeat (destruct (bool_decide _) || destruct in_rfi || destruct in_3bet
          || destruct in_call || destruct (_ =? _)); by eexists.
Qed.

Lemma get_action_Ok self round_state random :
  length (hand self) = 2%nat →
  ∃ r, get_action self round_state random = Ok r.
Proof.
  intros Hlen.
  unfold get_action. case_decide; [by apply preflop_action_Ok|].
  rewrite community_cards_of_Ok. cbn [mbind result_bind].
  set (community := map card (community_cards round_state)).
  destruct (evaluate_Ok (hand self) community) as (r & kickers & Heval).
  rewrite Heval. cbn [mbind result_bind].
  destruct (categorize_hand_Ok (hand self) community r kickers) as [category Hcat];
    [lia|done|].
  rewrite Hcat. cbn [mbind result_bind].
  destruct (_ =? _).
  { repeat (destruct (is_preflop_aggressor _) || destruct (_ || _)
            || destruct (_ && _) || destruct (Qle_bool _ _)); by eexists. }
  destruct (Qeq_bool _ (HandCategory_value MONSTER)); [by eexists|].
  destruct (Qle_bool (HandCategory_value STRONG_MADE) _); [by eexists|].
  destruct (Qeq_bool _ (HandCategory_value STRONG_DRAW)) eqn:Hdraw.
  - assert (category = STRONG_DRAW) as -> by (by destruct category).
    apply categorize_strong_draw in Hcat as (_ & n & Hn).
    destruct (estimate_draw_equity_Ok self community n Hn) as [equity ->].
    cbn [mbind result_bind].
    repeat (destruct (negb _) || destruct (_ && _)); by eexists.
  - cbn [mbind result_bind]. destruct (_ && _); by eexists.
Qed.

(** X18: with two hole cards and chip counts of machine size (the pot,
    the amount to call and the minimum raise, which the code multiplies
    and divides as floats, and the id), [get_action] returns an action,
    whatever else the round state holds and whatever the random draw
    is; whatever the card texts of the board are, too, as text that is
    no card stands for a card of rank 0. *)
Theorem get_action_returns self round_state random :
  length (hand self) = 2%nat →
  machine_sized (pot round_state) →
  machine_sized
    (current_bet round_state
     - default 0 (player_bets round_state !! str_id (id self))) →
  machine_sized (min_raise round_state) →
  small_id (id self) →
  community_cards_of round_state = Ok (map card (community_cards round_state)) ∧
  ∃ action amount self',
    get_action self round_state random = Ok (action, amount, self').
Proof.
  intros Hlen _ _ _ _. split; [apply community_cards_of_Ok|].
  destruct (get_action_Ok self round_state random Hlen) as [[[action amount] self'] Hr].
  by exists action, amount, self'.
Qed.

(** X19: before the flop, [get_action] on a hand that is not of two
    cards raises ValueError, whatever the position is. *)
Theorem get_action_preflop_without_hand self round_state random :
  round round_state = "Preflop" →
  length (hand self) ≠ 2%nat →
  get_action self round_state random = Raise ValueError.
Proof.
  intros Hround Hlen. unfold get_action. rewrite decide_True by done.
  unfold _get_preflop_action.
  destruct (get_position_Ok self round_state) as [p ->]. cbn [mbind result_bind].
  assert (∀ l, _is_in_range self l = Raise ValueError) as Hraise.
  { intros l. unfold _is_in_range. by rewrite get_hand_string_not_two_cards. }
  rewrite !Hraise. by destruct (bool_decide _).
Qed.

(** X20: what [get_action] returns follows the protocol of actions for
    the amount the agent owes: a fold is for 0 chips, a check is for 0
    chips and happens only when nothing is owed, a call is for the
    amount owed, a raise is for a target brought into the raise bounds.
    After the flop the agent neither folds nor calls when nothing is
    owed. *)
Theorem get_action_protocol self round_state random action amount self' :
  let amount_to_call :=
    current_bet round_state
    - default 0 (player_bets round_state !! str_id (id self)) in
  get_action self round_state random = Ok (action, amount, self') →
  follows_protocol round_state amount_to_call action amount ∧
  (round round_state ≠ "Preflop" → amount_to_call = 0 →
   action = CHECK ∨ action = RAISE).
Proof.
  intros atc. unfold get_action. fold atc. case_decide as Hround.
  - intros H. split; [|done]. unfold _get_preflop_action in H.
    inv_Ok H; simplify_eq; cbn [follows_protocol];
      first [done | by eexists | by split; [|apply Z.eqb_eq]].
  - intros H. inv_Ok H; simplify_eq;
      (split;
       [cbn [follows_protocol]; first [done | by eexists | by split; [|apply Z.eqb_eq]]
       |intros _ Hatc;
        first [by left | by right
              | by match goal with
                   | Hz : (_ =? 0) = false |- _ => apply Z.eqb_neq in Hz
                   end]]).
Qed.

(** X21: [get_action] changes nothing of the instance but the aggressor
    flag, which it sets when it raises before the flop, and only
    then. *)
Theorem get_action_state self round_state random action amount self' :
  get_action self round_state random = Ok (action, amount, self') →
  self' = if bool_decide (round round_state = "Preflop" ∧ action = RAISE)
          then set_aggressor self else self.
Proof.
  unfold get_action. case_decide as Hround.
  - intros H. unfold _get_preflop_action in H.
    inv_Ok H; simplify_eq;
      first [by rewrite bool_decide_eq_true_2
            |by rewrite bool_decide_eq_false_2 by (by intros [_ ?])].
  - intros H. rewrite bool_decide_eq_false_2 by (by intros [? _]).
    inv_Ok H; by simplify_eq.
Qed.

Lemma int_float_inject_Z z : int_float (inject_Z z) = z.
Proof. unfold int_float. cbn. apply Z.quot_1_r. Qed.

Lemma int_float_fraction pot num den :
  int_float (inject_Z pot * (num # den)) = (num * pot) `quot` Z.pos den.
Proof. unfold int_float. cbn. f_equal; lia. Qed.

(** X22: after the flop, with nothing to call and a pot of machine
    size, [get_action] returns the decision of the table for the
    category the categorizer assigns: the pre-flop aggressor bets 66% of the pot with a monster, a strong
    made hand or a strong draw, 40% of the pot with air when the random
    draw is below 0.4, and checks otherwise; another player bets half
    the pot with a monster, a strong or a medium made hand and checks
    otherwise.  The instance stays as it is. *)
Theorem get_action_nothing_owed self round_state random community hand_rank kickers category :
  round round_state ≠ "Preflop" →
  current_bet round_state
  - default 0 (player_bets round_state !! str_id (id self)) = 0 →
  machine_sized (pot round_state) →
  small_id (id self) →
  community_cards_of round_state = Ok community →
  evaluate (hand self) community = Ok (hand_rank, kickers) →
  _categorize_hand hand_rank (hand self) community = Ok category →
  get_action self round_state random =
    Ok (nothing_owed_decision round_state (is_preflop_aggressor self) category random,
        self).
Proof.
  intros Hround Hatc _ _ Hcc Heval Hcat. unfold get_action.
  rewrite decide_False by done. rewrite Hatc, Hcc. cbn [mbind result_bind].
  rewrite Heval. cbn [mbind result_bind]. rewrite Hcat. cbn [mbind result_bind].
  change (0 =? 0) with true. cbv iota.
  unfold nothing_owed_decision, pot_bet, _make_bet, clamp, Qlt_bool.
  rewrite !int_float_inject_Z, !int_float_fraction.
  destruct (is_preflop_aggressor self), category; try reflexivity.
  by destruct (Qle_bool (4 # 10) random).
Qed.
(** X25: before the flop, with two hole cards and a minimum raise of
    machine size, [get_action] finds the position, looks the hand up in the range lists of the position,
    and returns the decision of the table: facing a raise, a raise to
    three times the current bet on the 3-bet list, a call on the call
    list, a fold otherwise; without a raise, a raise to 2.5 times the
    minimum raise on the opening list, otherwise a check when nothing is
    owed and a fold when something is.  The aggressor flag is set with
    the raise. *)
Theorem get_action_preflop self round_state random :
  let amount_to_call :=
    current_bet round_state
    - default 0 (player_bets round_state !! str_id (id self)) in
  round round_state = "Preflop" →
  length (hand self) = 2%nat →
  machine_sized (min_raise round_state) →
  small_id (id self) →
  ∃ position in_3bet in_call in_rfi,
    _get_position self round_state = Ok position ∧
    _is_in_range self (vs_raise_3bet (preflop_ranges position)) = Ok in_3bet ∧
    _is_in_range self (vs_raise_call (preflop_ranges position)) = Ok in_call ∧
    _is_in_range self (RFI (preflop_ranges position)) = Ok in_rfi ∧
    get_action self round_state random =
      Ok (preflop_decision round_state amount_to_call in_3bet in_call in_rfi,
          if (if has_raise round_state then in_3bet else in_rfi)
          then set_aggressor self else self).
Proof.
  intros atc Hround Hlen _ _.
  destruct (get_position_Ok self round_state) as [p Hp].
  destruct (preflop_ranges_table_lists p) as (Hrfi & H3bet & Hcall).
  destruct (is_in_range_Ok self _ Hlen (table_lists_no_plus _ Hrfi)) as [in_rfi Hin_rfi].
  destruct (is_in_range_Ok self _ Hlen (table_lists_no_plus _ H3bet)) as [in_3bet Hin_3bet].
  destruct (is_in_range_Ok self _ Hlen (table_lists_no_plus _ Hcall)) as [in_call Hin_call].
  exists p, in_3bet, in_call, in_rfi. split_and!; [done..|].
  unfold get_action. fold atc. rewrite decide_True by done.
  unfold _get_preflop_action, preflop_decision, has_raise.
  rewrite Hp. cbn [mbind result_bind]. rewrite Hin_rfi, Hin_3bet, Hin_call.
  cbn [mbind result_bind].
  unfold _make_raise, clamp. rewrite int_float_inject_Z, int_float_fraction.
  replace (current_bet round_state * 3) with (3 * current_bet round_state) by lia.
  destruct (bool_decide _), in_3bet, in_call, in_rfi; try reflexivity;
    destruct (Z.eqb_spec atc 0); by (rewrite decide_True by done)
                                    || by (rewrite decide_False by done).
Qed.
End policy.

(** ** The lifecycle *)

Section lifecycle.
Import HandEvaluator GTOPlayer Spec More.

Lemma split_chars_no_space l : " "%char ∉ l → split_chars l = [l].
Proof.
  induction l as [|c l IH]; [done|]. intros [Hc Hl]%not_elem_of_cons.
  cbn [split_chars]. rewrite decide_False by done. by rewrite IH.
Qed.

Lemma split_chars_space l1 l2 :
  " "%char ∉ l1 → split_chars (l1 ++ " "%char :: l2) = l1 :: split_chars l2.
Proof.
  induction l1 as [|c l1 IH]; [done|]. intros [Hc Hl]%not_elem_of_cons.
  cbn [app split_chars]. rewrite decide_False by done. by rewrite IH.
Qed.

(** There is one piece more than there are spaces. *)
Lemma length_split_chars l :
  length (split_chars l) = S (list_count l " "%char).
Proof.
  unfold list_count. induction l as [|c l IH]; [done|].
  cbn [split_chars]. rewrite filter_cons. case_decide as Hc.
  - cbn [length]. by rewrite IH.
  - destruct (split_chars l) as [|w ws]; [done|]. by rewrite <-IH.
Qed.

Lemma printable_chars c :
  printable c →
  Card_repr c = rank_str (rank c) +:+ suit c ∧
  (" "%char ∉ chars (Card_repr c)) ∧
  Card_init (Card_repr c) = Ok c.
Proof.
  intros (Hrank & ch & Hsuit & Hch). destruct c as [r s]. cbn [rank suit] in *. subst s.
  unfold Card_repr. cbn [rank suit]. rewrite decide_False by done.
  fold (rank_str r). split_and!; [done| |apply Card_init_rank_str].
  rewrite chars_app, not_elem_of_app. split.
  - intros Hin. pose proof (rank_str_chars r) as Hall. rewrite Forall_forall in Hall.
    by specialize (Hall _ Hin).
  - intros Hin%list_elem_of_singleton. congruence.
Qed.

Lemma split_space_deal_text c1 c2 :
  printable c1 → printable c2 →
  split_space (deal_text c1 c2) = [Card_repr c1; Card_repr c2].
Proof.
  intros (_ & H1 & _)%printable_chars (_ & H2 & _)%printable_chars.
  unfold split_space, deal_text. rewrite chars_app.
  change (chars (" " +:+ Card_repr c2)) with (" "%char :: chars (Card_repr c2)).
  rewrite split_chars_space, split_chars_no_space by done.
  cbn [fmap list_fmap]. by rewrite !str_chars.
Qed.

(** X23: the text of two cards of the deck, dealt by [on_start] as the
    first entry of the hands, is read back as these two cards; the
    seats are stored, the id and the aggressor flag are kept, and the
    agent then has an action for every round that starts with chip
    counts of machine size (the pot, the amount to call, the minimum
    raise and the id). *)
Theorem on_start_deal self starting_chips c1 c2 others blind_amount
    big_blind_player_id small_blind_player_id all_players :
  printable c1 → printable c2 →
  small_id (id self) →
  on_start self starting_chips (deal_text c1 c2 :: others) blind_amount
    big_blind_player_id small_blind_player_id all_players =
    (mk (id self) [c1; c2] (is_preflop_aggressor self) all_players, Ok ()) ∧
  ∀ round_state remaining_chips random,
    machine_sized (pot round_state) →
    machine_sized
      (current_bet round_state
       - default 0 (player_bets round_state !! str_id (id self))) →
    machine_sized (min_raise round_state) →
    ∃ action amount self',
      get_action
        (on_round_start (mk (id self) [c1; c2] (is_preflop_aggressor self) all_players)
           round_state remaining_chips)
        round_state random = Ok (action, amount, self').
Proof.
  intros Hc1 Hc2 _. split.
  - unfold on_start. cbn [getitem lookup list_lookup mbind result_bind].
    rewrite split_space_deal_text by done. cbn [mapM].
    apply printable_chars in Hc1 as (_ & _ & ->), Hc2 as (_ & _ & ->). done.
  - intros round_state remaining_chips random _ _ _.
    destruct (get_action_Ok
                (on_round_start (mk (id self) [c1; c2] (is_preflop_aggressor self) all_players)
                   round_state remaining_chips) round_state random)
      as [[[action amount] self'] Hr]; [done|].
    by exists action, amount, self'.
Qed.

(** X24: [on_start] stores the seats first.  It raises IndexError when
    there is no hand text, and leaves the instance with the new seats
    and the hand it had.  On any text it returns: each piece between
    single spaces becomes a card, text that is no card becoming a card
    of rank 0, so that the hand has one card more than the text has
    spaces. *)
Theorem on_start_any_text self starting_chips player_hands blind_amount
    big_blind_player_id small_blind_player_id all_players :
  match player_hands with
  | [] =>
      on_start self starting_chips player_hands blind_amount
        big_blind_player_id small_blind_player_id all_players =
      (mk (id self) (hand self) (is_preflop_aggressor self) all_players,
       Raise IndexError)
  | my_hand_str :: _ =>
      ∃ self',
        on_start self starting_chips player_hands blind_amount
          big_blind_player_id small_blind_player_id all_players = (self', Ok ()) ∧
        hand self' = map card (split_space my_hand_str) ∧
        length (hand self') = S (list_count (chars my_hand_str) " "%char) ∧
        all_player_ids self' = all_players
  end.
Proof.
  destruct player_hands as [|my_hand_str others]; [done|].
  unfold on_start. cbn [getitem lookup list_lookup mbind result_bind].
  rewrite mapM_Card_init. cbn [mbind result_bind]. eexists. split_and!; [done..| |done].
  cbn [hand]. unfold split_space. by rewrite !length_map, length_split_chars.
Qed.
End lifecycle.

(** ** Further instances on example deals *)

Section more_examples.
Import HandEvaluator GTOPlayer Spec More Examples.

(** The ten of diamonds. *)
Lemma Card_repr_round_trip_witness :
  Card_init (Card_repr (mkCard 10 "d")) = Ok (mkCard 10 "d").
Proof.
  apply (Card_repr_round_trip (mkCard 10 "d")).
  - discriminate.
  - reflexivity.
Defined.

(** Pocket aces on A K 2, and the same cards with the hole aces swapped
    and the board ace among the hole cards. *)
Lemma evaluate_cards_only_witness :
  ∃ s,
    evaluate [mkCard 14 "h"; mkCard 14 "d"]
      [mkCard 14 "c"; mkCard 13 "d"; mkCard 2 "s"] = Ok s ∧
    evaluate [mkCard 14 "d"; mkCard 14 "h"; mkCard 14 "c"]
      [mkCard 13 "d"; mkCard 2 "s"] = Ok s.
Proof.
  apply (evaluate_cards_only
           [mkCard 14 "h"; mkCard 14 "d"] [mkCard 14 "c"; mkCard 13 "d"; mkCard 2 "s"]
           [mkCard 14 "d"; mkCard 14 "h"; mkCard 14 "c"] [mkCard 13 "d"; mkCard 2 "s"]).
  simpl. apply perm_swap.
Defined.

(** Pocket aces on A K 2 are the five cards that are scored. *)
Lemma evaluate_exactly_five_witness :
  evaluate (map card ["Ah"; "Ad"]) (map card ["Ac"; "Kd"; "2s"]) =
  _evaluate_five_card_hand (map card ["Ah"; "Ad"] ++ map card ["Ac"; "Kd"; "2s"]).
Proof.
  apply (evaluate_exactly_five (map card ["Ah"; "Ad"]) (map card ["Ac"; "Kd"; "2s"])).
  reflexivity.
Defined.

(** Pocket aces on A K 2, and a king on the turn. *)
Lemma evaluate_more_cards_witness :
  ∃ s',
    evaluate (map card ["Ah"; "Ad"]) (map card ["Ac"; "Kd"; "2s"] ++ map card ["Ks"])
    = Ok s' ∧
    score_le (THREE_OF_A_KIND, [14; 13; 2]) s'.
Proof.
  apply (evaluate_more_cards (map card ["Ah"; "Ad"]) (map card ["Ac"; "Kd"; "2s"])
           (map card ["Ks"]) (THREE_OF_A_KIND, [14; 13; 2])).
  - vm_compute. lia.
  - vm_compute. reflexivity.
Defined.

(** Two pairs on four cards are a PAIR. *)
Lemma evaluate_fewer_than_five_cards_witness :
  ∃ r,
    evaluate (map card ["7h"; "7d"]) (map card ["8h"; "8d"])
    = Ok (r, sorted_desc (map rank (map card ["7h"; "7d"] ++ map card ["8h"; "8d"]))) ∧
    r = PAIR.
Proof.
  destruct (evaluate_fewer_than_five_cards (map card ["7h"; "7d"]) (map card ["8h"; "8d"]))
    as (r & Hr & _ & _ & Hpair & _).
  - vm_compute. lia.
  - exists r. split; [exact Hr|]. apply Hpair. exists 7. reflexivity.
Defined.

(** The wheel in four suits is a straight. *)
Lemma straight_exactly_witness :
  sorted_desc (map rank (map card ["Ah"; "2d"; "3c"; "4d"; "5s"])) = wheel
  ∨ consecutive (sorted_desc (map rank (map card ["Ah"; "2d"; "3c"; "4d"; "5s"]))).
Proof.
  apply (straight_exactly (map card ["Ah"; "2d"; "3c"; "4d"; "5s"])
           STRAIGHT [5; 4; 3; 2; 1]).
  - reflexivity.
  - vm_compute. reflexivity.
  - left. reflexivity.
Defined.

(** Aces full of kings. *)
Lemma grouped_kickers_witness :
  map (occurrences (map rank (map card ["Kd"; "Ah"; "Ks"; "Ad"; "Ac"]))) [14; 13]
  = multiplicities FULL_HOUSE.
Proof.
  apply (grouped_kickers (map card ["Kd"; "Ah"; "Ks"; "Ad"; "Ac"]) FULL_HOUSE [14; 13]).
  - reflexivity.
  - vm_compute. reflexivity.
  - apply (bool_decide_unpack _). vm_compute. exact I.
Defined.

(** Five hearts. *)
Lemma flush_exactly_witness :
  same_suit (map card ["Ah"; "Kh"; "9h"; "5h"; "2h"]).
Proof.
  apply (flush_exactly (map card ["Ah"; "Kh"; "9h"; "5h"; "2h"]) FLUSH [14; 13; 9; 5; 2]).
  - reflexivity.
  - vm_compute. reflexivity.
  - left. reflexivity.
Defined.

(** A set of aces is categorized. *)
Lemma categorize_after_evaluate_witness :
  ∃ category,
    _categorize_hand THREE_OF_A_KIND (map card ["Ah"; "Ad"]) (map card ["Ac"; "Kd"; "2s"])
    = Ok category ∧
    category ≠ WEAK_DRAW ∧
    (category = STRONG_DRAW →
     (length (map card ["Ah"; "Ad"] ++ map card ["Ac"; "Kd"; "2s"]) < 5)%nat).
Proof.
  apply (categorize_after_evaluate (map card ["Ah"; "Ad"]) (map card ["Ac"; "Kd"; "2s"])
           THREE_OF_A_KIND [14; 13; 2]).
  - vm_compute. lia.
  - vm_compute. reflexivity.
Defined.

(** A K on A 7 2: top pair. *)
Lemma categorize_pair_witness :
  ∃ pair_rank,
    (∀ k, occurrences
            (map rank ([mkCard 14 "h"; mkCard 13 "d"]
                       ++ [mkCard 14 "c"; mkCard 7 "d"; mkCard 2 "s"])) k = 2
          ↔ k = pair_rank) ∧
    _categorize_hand PAIR [mkCard 14 "h"; mkCard 13 "d"]
      [mkCard 14 "c"; mkCard 7 "d"; mkCard 2 "s"] =
      Ok (if bool_decide (pair_rank = rank (mkCard 14 "h") ∨ pair_rank = rank (mkCard 13 "d"))
          then if forallb (λ c, rank c <=? pair_rank)
                    [mkCard 14 "c"; mkCard 7 "d"; mkCard 2 "s"]
               then STRONG_MADE else MEDIUM_MADE
          else WEAK_MADE).
Proof.
  apply (categorize_pair (mkCard 14 "h") (mkCard 13 "d")
           [mkCard 14 "c"; mkCard 7 "d"; mkCard 2 "s"] [14; 13; 7; 2]).
  - simpl. lia.
  - vm_compute. reflexivity.
Defined.

(** Four hearts on the turn of a short board. *)
Lemma strong_draw_equity_witness :
  ∃ equity,
    _estimate_draw_equity (agent ["7h"; "6h"]) (map card ["5h"; "2h"]) = Ok equity ∧
    (8 # 100 <= equity)%Q.
Proof.
  apply (strong_draw_equity (agent ["7h"; "6h"]) (map card ["5h"; "2h"]) HIGH_CARD).
  vm_compute. reflexivity.
Defined.

(** A K suited against a suited range. *)
Lemma is_in_range_total_witness :
  _is_in_range (agent ["Ah"; "Kh"]) ["+"] = Raise IndexError ∧
  ("+" ∉ ["ATs+"] → ∃ b, _is_in_range (agent ["Ah"; "Kh"]) ["ATs+"] = Ok b).
Proof.
  apply (is_in_range_total (agent ["Ah"; "Kh"]) ["ATs+"]).
  reflexivity.
Defined.

(** A K suited is in a range that lists ["AKs"]. *)
Lemma own_hand_string_in_range_witness :
  _is_in_range (agent ["Ah"; "Kh"]) ["QJs"; "AKs"] = Ok true.
Proof.
  apply (own_hand_string_in_range (agent ["Ah"; "Kh"]) "AKs" ["QJs"; "AKs"]).
  - vm_compute. reflexivity.
  - apply (bool_decide_unpack _). vm_compute. exact I.
  - apply (bool_decide_unpack _). vm_compute. exact I.
Defined.

(** Pocket nines against ["99+"]. *)
Lemma pair_plus_token_witness :
  _is_in_range (mk None [mkCard 9 "h"; mkCard 9 "d"] false [])
    [rank_str 9 +:+ rank_str 9 +:+ "+"] =
    Ok (bool_decide (rank (mkCard 9 "h") = rank (mkCard 9 "d") ∧ 9 ≤ rank (mkCard 9 "h"))).
Proof.
  apply (pair_plus_token (mk None [mkCard 9 "h"; mkCard 9 "d"] false [])
           (mkCard 9 "h") (mkCard 9 "d") 9).
  - reflexivity.
  - lia.
Defined.

(** Suited A T against ["ATs+"]. *)
Lemma suited_plus_token_witness :
  _is_in_range (mk None [mkCard 14 "h"; mkCard 10 "h"] false [])
    [rank_str 14 +:+ rank_str 10 +:+ "s+"] =
    Ok (bool_decide
          (rank (mkCard 14 "h") ≠ rank (mkCard 10 "h") ∧
           bool_decide (suit (mkCard 14 "h") = suit (mkCard 10 "h")) = true ∧
           Z.max (rank (mkCard 14 "h")) (rank (mkCard 10 "h")) = 14 ∧
           10 ≤ rank (mkCard 10 "h"))).
Proof.
  apply (suited_plus_token (mk None [mkCard 14 "h"; mkCard 10 "h"] false [])
           (mkCard 14 "h") (mkCard 10 "h") 14 10 true).
  - reflexivity.
  - simpl. lia.
  - simpl. lia.
  - lia.
  - lia.
Defined.

(** Pocket aces on the flop. *)
Lemma get_action_returns_witness :
  community_cards_of flop_bet = Ok (map card (community_cards flop_bet)) ∧
  ∃ action amount self',
    get_action (agent ["Ah"; "Ad"]) flop_bet 0 = Ok (action, amount, self').
Proof.
  apply (get_action_returns (agent ["Ah"; "Ad"]) flop_bet 0).
  - reflexivity.
  - split; vm_compute; intros H; discriminate H.
  - split; vm_compute; intros H; discriminate H.
  - split; vm_compute; intros H; discriminate H.
  - split; vm_compute; intros H; discriminate H.
Defined.

(** The agent before any hand is dealt. *)
Lemma get_action_preflop_without_hand_witness :
  get_action init preflop_unraised 0 = Raise ValueError.
Proof.
  apply (get_action_preflop_without_hand init preflop_unraised 0).
  - reflexivity.
  - discriminate.
Defined.

(** The raise of a set of aces facing a bet. *)
Lemma get_action_protocol_witness :
  follows_protocol flop_bet 50 RAISE 200 ∧
  (round flop_bet ≠ "Preflop" → 50 = 0 → RAISE = CHECK ∨ RAISE = RAISE).
Proof.
  apply (get_action_protocol (agent ["Ah"; "Ad"]) flop_bet 0 RAISE 200
           (agent ["Ah"; "Ad"])).
  vm_compute. reflexivity.
Defined.

(** Pocket aces open before the flop and become the aggressor. *)
Lemma get_action_state_witness :
  set_aggressor (agent ["Ah"; "Ad"]) =
  if bool_decide (round preflop_unraised = "Preflop" ∧ RAISE = RAISE)
  then set_aggressor (agent ["Ah"; "Ad"]) else agent ["Ah"; "Ad"].
Proof.
  apply (get_action_state (agent ["Ah"; "Ad"]) preflop_unraised 0 RAISE 50
           (set_aggressor (agent ["Ah"; "Ad"]))).
  vm_compute. reflexivity.
Defined.

(** A set of aces checked to on the flop bets half the pot. *)
Lemma get_action_nothing_owed_witness :
  get_action (agent ["Ah"; "Ad"])
    (mkRoundState "Flop" 0 ∅ 100 20 1000 ["Ac"; "Kd"; "2s"] ∅ 2) 0 =
  Ok (nothing_owed_decision
        (mkRoundState "Flop" 0 ∅ 100 20 1000 ["Ac"; "Kd"; "2s"] ∅ 2)
        (is_preflop_aggressor (agent ["Ah"; "Ad"])) MONSTER 0,
      agent ["Ah"; "Ad"]).
Proof.
  apply (get_action_nothing_owed (agent ["Ah"; "Ad"])
           (mkRoundState "Flop" 0 ∅ 100 20 1000 ["Ac"; "Kd"; "2s"] ∅ 2) 0
           (map card ["Ac"; "Kd"; "2s"]) THREE_OF_A_KIND [14; 13; 2] MONSTER).
  - discriminate.
  - reflexivity.
  - split; vm_compute; intros H; discriminate H.
  - split; vm_compute; intros H; discriminate H.
  - reflexivity.
  - vm_compute. reflexivity.
  - vm_compute. reflexivity.
Defined.

(** The ace and the king of hearts are dealt to player 1, who then
    acts on the flop. *)
Lemma on_start_deal_witness :
  on_start (set_id init 1) 1000 [deal_text (mkCard 14 "h") (mkCard 13 "h")] 10 2 3
    [1; 2; 3] =
    (mk (id (set_id init 1)) [mkCard 14 "h"; mkCard 13 "h"]
       (is_preflop_aggressor (set_id init 1)) [1; 2; 3], Ok ()) ∧
  ∃ action amount self',
    get_action
      (on_round_start
         (mk (id (set_id init 1)) [mkCard 14 "h"; mkCard 13 "h"]
            (is_preflop_aggressor (set_id init 1)) [1; 2; 3])
         flop_bet 1000)
      flop_bet 0 = Ok (action, amount, self').
Proof.
  destruct (on_start_deal (set_id init 1) 1000 (mkCard 14 "h") (mkCard 13 "h") [] 10 2 3
              [1; 2; 3]) as [Hstart Hact].
  - split; [discriminate|]. exists "h"%char. split; [reflexivity|discriminate].
  - split; [discriminate|]. exists "h"%char. split; [reflexivity|discriminate].
  - split; vm_compute; intros H; discriminate H.
  - split; [exact Hstart|]. apply (Hact flop_bet 1000 0%Q).
    + split; vm_compute; intros H; discriminate H.
    + split; vm_compute; intros H; discriminate H.
    + split; vm_compute; intros H; discriminate H.
Defined.

(** Pocket aces under the gun of six open. *)
Lemma get_action_preflop_witness :
  ∃ position in_3bet in_call in_rfi,
    _get_position (agent ["Ah"; "Ad"]) preflop_unraised = Ok position ∧
    _is_in_range (agent ["Ah"; "Ad"]) (vs_raise_3bet (preflop_ranges position))
    = Ok in_3bet ∧
    _is_in_range (agent ["Ah"; "Ad"]) (vs_raise_call (preflop_ranges position))
    = Ok in_call ∧
    _is_in_range (agent ["Ah"; "Ad"]) (RFI (preflop_ranges position)) = Ok in_rfi ∧
    get_action (agent ["Ah"; "Ad"]) preflop_unraised 0 =
      Ok (preflop_decision preflop_unraised 10 in_3bet in_call in_rfi,
          if (if has_raise preflop_unraised then in_3bet else in_rfi)
          then set_aggressor (agent ["Ah"; "Ad"]) else agent ["Ah"; "Ad"]).
Proof.
  apply (get_action_preflop (agent ["Ah"; "Ad"]) preflop_unraised 0).
  - reflexivity.
  - reflexivity.
  - split; vm_compute; intros H; discriminate H.
  - split; vm_compute; intros H; discriminate H.
Defined.
End more_examples.
